(** * VectorStorage: an embedded vector store with usage-aware eviction

    A shallow embedding of [src/lib/vector-storage/VectorStorage.ts].

    - JavaScript numbers that carry embeddings, magnitudes, scores and sizes
      are IEEE-754 binary64 values: Rocq's primitive [float].
    - [hits] and [timestamp] are integer-valued and are kept in [Z]: the
      counts and times in question stay below 2^53, where binary64 numbers
      hold every integer.
    - Documents are JavaScript objects: they live in an object store (the
      [heap]) and arrays hold references to them, so that a mutation through
      one reference is seen through every alias, and a spread copy
      [{...doc}] is a different object.
    - Every method is a computation in a small state-and-exception monad over
      the instance fields, the object store, the IndexedDB object store, the
      clock and a trace of the calls made to the outside world. *)

From Stdlib Require Import ZArith Floats String Ascii List Lia Bool Sorted.
From stdpp Require Import base option list strings sorting.
Import ListNotations.

Open Scope Z_scope.

(** ** JavaScript numbers *)

Module JS.

(** [ToNumber(undefined)] is [NaN]; reading past the end of an array
    gives [undefined]. *)
Definition toNumber (v : option float) : float := default nan v.

Definition isNaN (x : float) : bool := PrimFloat.is_nan x.

(** [Array.prototype.reduce] with an initial value: the callback receives
    the accumulator, the element and its index. *)
Fixpoint reduce_from {A B : Type} (f : B -> A -> nat -> B)
      (i : nat) (l : list A) (acc : B) : B :=
    match l with
    | [] => acc
    | x :: l' => reduce_from f (S i) l' (f acc x i)
    end.

Definition reduce {A B : Type} (f : B -> A -> nat -> B) (l : list A) (init : B) : B :=
    reduce_from f 0 l init.

(** [Array.prototype.slice(0, k)] for an integer [k]: a negative [k] counts
    from the end. *)
Definition slice0 {A : Type} (k : Z) (l : list A) : list A :=
    if k <? 0 then take (Z.to_nat (Z.of_nat (length l) + k)) l
    else take (Z.to_nat k) l.

(** The sign that [Array.prototype.sort] reads off a comparator result
      [v]: [NaN] counts as [+0]; [v < 0] puts the first argument first,
      [v > 0] the second. *)
Definition sortSign (v : float) : comparison :=
    if (v <? 0)%float then Lt else if (0 <? v)%float then Gt else Eq.

(** [Array.prototype.sort] is required to be stable; with a consistent
      comparator every stable sort yields the same array.  We embed it as the
      stable insertion sort: an element moves behind a later one only when
      the comparator says "greater".  With a comparator that is not
      consistent (one whose result is NaN for some pairs and not for
      others) the order is left to the engine: only that the result is a
      permutation of the array is common to all engines, and nothing more
      is to be read off [sort] in that case. *)
Section Sort.
Context {A : Type} (compareFn : A -> A -> comparison).

Fixpoint sort_insert (x : A) (l : list A) : list A :=
      match l with
      | [] => [x]
      | y :: l' =>
          match compareFn x y with
          | Gt => y :: sort_insert x l'
          | _ => x :: l
          end
      end.

Definition sort (l : list A) : list A := foldr sort_insert [] l.
End Sort.

(** [String.prototype.trim] on strings of code units below 256: the
      white space and line terminators in that range are U+0009..U+000D,
      U+0020 and U+00A0. *)
Definition isWhiteSpace (c : ascii) : bool :=
    let n := nat_of_ascii c in
    ((9 <=? n)%nat && (n <=? 13)%nat) || (n =? 32)%nat || (n =? 160)%nat.

Fixpoint trimStart (s : list ascii) : list ascii :=
    match s with
    | [] => []
    | c :: s' => if isWhiteSpace c then trimStart s' else s
    end.

Definition trim (s : string) : string :=
    string_of_list_ascii
      (rev (trimStart (rev (trimStart (list_ascii_of_string s))))).

End JS.

(** ** The similarity engine (module-level functions of the source) *)

Definition getCosineSimilarityScore (dotProduct magnitudeA magnitudeB : float) : float :=
  (dotProduct / (magnitudeA * magnitudeB))%float.

Definition normalizeScore (score : float) : float :=
  ((score + 1) / 2)%float.

(** [embedding.reduce((sum, val) => sum + val * val, 0)] under [Math.sqrt]. *)
Definition l2norm (v : list float) : float :=
  PrimFloat.sqrt (JS.reduce (fun sum val _ => (sum + val * val)%float) v 0%float).

(** [doc.vector.reduce((sum, val, i) => sum + val * queryVector[i], 0)] *)
Definition dotProduct (vector queryVector : list float) : float :=
  JS.reduce (fun sum val i => (sum + val * JS.toNumber (queryVector !! i))%float)
    vector 0%float.

(** ** Documents

    [IVSDocument<T>] and [IVSSimilaritySearchItem<T>] (a document with a
    [score]) as one object shape; a property that may be absent is an
    [option].  [metadata] is [None] for a falsy metadata value, the case the
    source guards with [doc.metadata || {}]. *)
Record IVSDocument (T : Type) := mkDoc {
  hits : option Z;
  metadata : option T;
  text : string;
  timestamp : Z;
  vector : option (list float);
  vectorMag : option float;
  score : option float
}.
Arguments mkDoc {T}.
Arguments hits {T}.
Arguments metadata {T}.
Arguments text {T}.
Arguments timestamp {T}.
Arguments vector {T}.
Arguments vectorMag {T}.
Arguments score {T}.

Definition set_hits {T} (v : option Z) (d : IVSDocument T) : IVSDocument T :=
  mkDoc v (metadata d) (text d) (timestamp d) (vector d) (vectorMag d) (score d).
Definition set_vector {T} (v : option (list float)) (d : IVSDocument T) : IVSDocument T :=
  mkDoc (hits d) (metadata d) (text d) (timestamp d) v (vectorMag d) (score d).
Definition set_vectorMag {T} (v : option float) (d : IVSDocument T) : IVSDocument T :=
  mkDoc (hits d) (metadata d) (text d) (timestamp d) (vector d) v (score d).
Definition set_score {T} (v : option float) (d : IVSDocument T) : IVSDocument T :=
  mkDoc (hits d) (metadata d) (text d) (timestamp d) (vector d) (vectorMag d) v.

(** The object every dangling reference would read; references only come
    from allocation, so no method ever reads it. *)
Definition emptyObject {T} : IVSDocument T :=
  mkDoc None None EmptyString 0 None None None.

#[global] Instance IVSDocument_inhabited {T} : Inhabited (IVSDocument T) :=
  populate emptyObject.

(** [calcVectorMagnitude(doc)]: [doc.vector!.reduce] raises a [TypeError]
    ([None]) when [vector] is absent. *)
Definition calcVectorMagnitude {T} (doc : IVSDocument T) : option float :=
  l2norm <$> vector doc.

(** One step of [calculateSimilarityScores]: the score of one document. *)
Definition similarityScore {T} (doc : IVSDocument T)
    (queryVector : list float) (queryMagnitude : float) : option float :=
  match vector doc with
  | None => None
  | Some v =>
      let dot := dotProduct v queryVector in
      let score := getCosineSimilarityScore dot (JS.toNumber (vectorMag doc)) queryMagnitude in
      Some (normalizeScore score)
  end.

(** The comparator of [removeDocsLRU]:
    [(a.hits ?? 0) - (b.hits ?? 0) || a.timestamp - b.timestamp]. *)
Definition lruCompare {T} (a b : IVSDocument T) : comparison :=
  let dh := default 0 (hits a) - default 0 (hits b) in
  let v := if dh =? 0 then timestamp a - timestamp b else dh in
  v ?= 0.

(** The comparator of [similaritySearch]: [(a, b) => b[1] - a[1]]. *)
Definition scoreCompare {A} (a b : A * float) : comparison :=
  JS.sortSign (snd b - snd a)%float.

(** ** The host environment

    What the class takes from outside: the metadata type [T]; the helper
    [getObjectSizeInMB] and the constant [DEFAULT_MAX_SIZE_IN_MB], imported
    from [./common]; the embedding provider behind [embedTextsFn] ([None]
    when the call rejects); the clock behind [Date.now()], read by a call
    counter; and [Object.values(metadata).includes(value)]. *)
Class Host := {
  T : Type;
  getObjectSizeInMB : list (IVSDocument T) -> float;
  DEFAULT_MAX_SIZE_IN_MB : float;
  embedTextsFn : list string -> option (list (list float));
  Date_now : nat -> Z;
  metadataValuesInclude : T -> string -> bool
}.

(** Calls that leave the class. *)
Inductive event :=
| EvEmbed (texts : list string)
| EvGetAll
| EvSave (committed : bool)
| EvConsoleError (msg : string).

Abbreviation Loc := nat.

Record IVSOptions := {
  o_maxSizeInMB : option float;
  o_openAIApiKey : option string;
  o_embedTextsFn : bool
}.

Record IVSSimilaritySearchParams `{Host} := {
  query : string;
  k : option Z;
  filterOptions : option (option T -> bool);
  includeValues : bool
}.

(** The instance fields ([documents], [maxSizeInMB], [trainingMode], and
    [db]: whether the database handle is set) together with the world they
    act on: the object store [heap], the records [idb] of the IndexedDB
    object store, the number of clock reads and the trace of outside calls
    (latest first). *)
Record VectorStorage `{Host} := mkVS {
  documents : list Loc;
  maxSizeInMB : float;
  trainingMode : bool;
  db : bool;
  heap : list (IVSDocument T);
  idb : list (IVSDocument T);
  ticks : nat;
  trace : list event
}.

(** A method returns, throws, or never returns. *)
Inductive outcome `{Host} (A : Type) : Type :=
| Returns (a : A) (s : VectorStorage)
| Throws (e : string) (s : VectorStorage)
| Diverges.
Arguments Returns {_ A}.
Arguments Throws {_ A}.
Arguments Diverges {_ A}.

Section Model.
Context `{Host}.

Abbreviation Doc := (IVSDocument T).

Definition set_documents (v : list Loc) (s : VectorStorage) : VectorStorage :=
  mkVS _ v (maxSizeInMB s) (trainingMode s) (db s) (heap s) (idb s) (ticks s) (trace s).
Definition set_trainingMode (v : bool) (s : VectorStorage) : VectorStorage :=
  mkVS _ (documents s) (maxSizeInMB s) v (db s) (heap s) (idb s) (ticks s) (trace s).
Definition set_db (v : bool) (s : VectorStorage) : VectorStorage :=
  mkVS _ (documents s) (maxSizeInMB s) (trainingMode s) v (heap s) (idb s) (ticks s) (trace s).
Definition set_heap (v : list Doc) (s : VectorStorage) : VectorStorage :=
  mkVS _ (documents s) (maxSizeInMB s) (trainingMode s) (db s) v (idb s) (ticks s) (trace s).
Definition set_idb (v : list Doc) (s : VectorStorage) : VectorStorage :=
  mkVS _ (documents s) (maxSizeInMB s) (trainingMode s) (db s) (heap s) v (ticks s) (trace s).
Definition set_ticks (v : nat) (s : VectorStorage) : VectorStorage :=
  mkVS _ (documents s) (maxSizeInMB s) (trainingMode s) (db s) (heap s) (idb s) v (trace s).
Definition set_trace (v : list event) (s : VectorStorage) : VectorStorage :=
  mkVS _ (documents s) (maxSizeInMB s) (trainingMode s) (db s) (heap s) (idb s) (ticks s) v.

(** *** The monad of methods *)
Definition M (A : Type) : Type := VectorStorage -> outcome A.

Definition ret {A} (a : A) : M A := fun s => Returns a s.
Definition bind {A B} (m : M A) (f : A -> M B) : M B :=
  fun s =>
    match m s with
    | Returns a s' => f a s'
    | Throws e s' => Throws e s'
    | Diverges => Diverges
    end.
Definition throw {A} (e : string) : M A := fun s => Throws e s.
Definition get : M VectorStorage := fun s => Returns s s.
Definition modify (f : VectorStorage -> VectorStorage) : M unit :=
  fun s => Returns tt (f s).
Definition emit (e : event) : M unit :=
  modify (fun s => set_trace (e :: trace s) s).

Notation "x <- m ;; f" := (bind m (fun x => f))
  (at level 100, m at next level, right associativity).
Notation "m ;;; f" := (bind m (fun _ => f))
  (at level 100, right associativity).

(** [arr.forEach((x, index) => f(x, index))] *)
Fixpoint forEach_from {A} (f : A -> nat -> M unit) (i : nat) (l : list A) : M unit :=
  match l with
  | [] => ret tt
  | x :: l' => f x i ;;; forEach_from f (S i) l'
  end.
Definition forEach {A} (f : A -> nat -> M unit) (l : list A) : M unit :=
  forEach_from f 0 l.

(** [arr.map(x => f(x))] with an effectful callback. *)
Fixpoint mapM {A B} (f : A -> M B) (l : list A) : M (list B) :=
  match l with
  | [] => ret []
  | x :: l' => y <- f x ;; ys <- mapM f l' ;; ret (y :: ys)
  end.

(** *** Objects *)
Definition deref (s : VectorStorage) (l : Loc) : Doc := heap s !!! l.
Definition docsOf (s : VectorStorage) (ls : list Loc) : list Doc := deref s <$> ls.

(** A new object: an object literal or a structured clone. *)
Definition alloc (d : Doc) : M Loc :=
  fun s => Returns (length (heap s)) (set_heap (heap s ++ [d]) s).

(** Assignment to, or deletion of, a property of the object at [l]. *)
Definition update (l : Loc) (f : Doc -> Doc) : M unit :=
  modify (fun s => set_heap (alter f l (heap s)) s).

(** [Date.now()] *)
Definition now : M Z :=
  fun s => Returns (Date_now (ticks s)) (set_ticks (S (ticks s)) s).

(** *** Private methods *)

(** [removeDocsLRU]'s loop [while (size > max) documents.shift()];
    [shift] on an empty array changes nothing, so the loop does not end
    when even the empty array is over the ceiling ([None]). *)
Definition overCeiling (s : VectorStorage) (ls : list Loc) : bool :=
  (maxSizeInMB s <? getObjectSizeInMB (docsOf s ls))%float.

Fixpoint shiftWhileOver (s : VectorStorage) (ls : list Loc) : option (list Loc) :=
  match ls with
  | [] => if overCeiling s [] then None else Some []
  | l :: rest => if overCeiling s ls then shiftWhileOver s rest else Some ls
  end.

Definition removeDocsLRU : M unit :=
  fun s =>
    if trainingMode s then Returns tt s
    else if overCeiling s (documents s) then
      let sorted := JS.sort (fun a b => lruCompare (deref s a) (deref s b)) (documents s) in
      match shiftWhileOver s sorted with
      | Some ls => Returns tt (set_documents ls s)
      | None => Diverges
      end
    else Returns tt s.

(** [initDB] creates the object store with a unique index on [text]: a
    transaction that puts two records with one text fails, and its [clear]
    is rolled back with it.  The values stored are taken to be cloneable,
    so that no [put] fails for another reason.  [idb] lists the records in
    the order they were put; the object store hands them out by key, an
    order that no method depends on: the texts are read as a set, and a
    load happens once, at construction, from the records as the backend
    gives them. *)
Definition textsUnique (ds : list Doc) : bool :=
  bool_decide (NoDup (text <$> ds)).

Definition saveToIndexDbStorage : M unit :=
  modify (set_db true) ;;;
  s <- get ;;
  let records := docsOf s (documents s) in
  if textsUnique records then
    modify (set_idb records) ;;; emit (EvSave true)
  else
    emit (EvSave false) ;;;
    emit (EvConsoleError "Failed to save to IndexedDB:").

(** [this.documents = await this.db.getAll('documents')]: every record
    comes back as a new object. *)
Definition loadFromIndexDbStorage : M unit :=
  modify (set_db true) ;;;
  s <- get ;;
  emit EvGetAll ;;;
  ls <- mapM alloc (idb s) ;;
  modify (set_documents ls) ;;;
  removeDocsLRU.

(** [embedTextsFn(texts)] *)
Definition callEmbedTextsFn (texts : list string) : M (list (list float)) :=
  emit (EvEmbed texts) ;;;
  match embedTextsFn texts with
  | Some vs => ret vs
  | None => throw "embedTextsFn rejected"
  end.

Definition embedText (query : string) : M (option (list float)) :=
  vs <- callEmbedTextsFn [query] ;; ret (vs !! 0%nat).

Definition calculateMagnitude (embedding : option (list float)) : M float :=
  match embedding with
  | Some e => ret (l2norm e)
  | None => throw "TypeError: embedding is undefined"
  end.

(** The callback of [calculateSimilarityScores]: [doc => [doc, score]]. *)
Definition scorePair (queryVector : list float) (queryMagnitude : float)
    (doc : Loc) : M (Loc * float) :=
  s <- get ;;
  match similarityScore (deref s doc) queryVector queryMagnitude with
  | Some sc => ret (doc, sc)
  | None => throw "TypeError: doc.vector is undefined"
  end.

Definition calculateSimilarityScores (filteredDocuments : list Loc)
    (queryVector : list float) (queryMagnitude : float) : M (list (Loc * float)) :=
  mapM (scorePair queryVector queryMagnitude) filteredDocuments.

(** [doc.hits = (doc.hits ?? 0) + 1] *)
Definition hit (d : Doc) : Doc := set_hits (Some (default 0 (hits d) + 1)) d.

Definition updateHitCounters (results : list Loc) : M unit :=
  forEach (fun doc _ => update doc hit) results.

(** The filter of [addDocuments]. *)
Definition isNewDocument (s : VectorStorage) (existingTexts : list string) (doc : Loc) : bool :=
  negb (String.eqb (JS.trim (text (deref s doc))) "")
  && negb (existsb (fun d => String.eqb (text (deref s d)) (text (deref s doc))) (documents s))
  && negb (existsb (String.eqb (text (deref s doc))) existingTexts).

(** The callback of the [forEach] of [addDocuments]:
    [doc.vector = newVectors[index]; doc.vectorMag = calcVectorMagnitude(doc)]. *)
Definition assignVector (newVectors : list (list float)) (doc : Loc) (index : nat) : M unit :=
  update doc (set_vector (newVectors !! index)) ;;;
  s <- get ;;
  match calcVectorMagnitude (deref s doc) with
  | Some m => update doc (set_vectorMag (Some m))
  | None => throw "TypeError: doc.vector is undefined"
  end.

Definition addDocuments (docs : list Loc) : M (list Loc) :=
  s <- get ;;
  if negb (db s) then throw "TypeError: this.db is undefined" else
  emit EvGetAll ;;;
  let existingTexts := text <$> idb s in
  let newDocuments := List.filter (isNewDocument s existingTexts) docs in
  if (length newDocuments =? 0)%nat then ret [] else
  newVectors <- callEmbedTextsFn ((fun l => text (deref s l)) <$> newDocuments) ;;
  forEach (assignVector newVectors) newDocuments ;;;
  modify (fun s => set_documents (documents s ++ newDocuments) s) ;;;
  removeDocsLRU ;;;
  saveToIndexDbStorage ;;;
  ret newDocuments.

(** Modelled from the spec: [filterDocuments] of [./common/helpers], which is
    not part of the sources at hand.  "Returns documents whose metadata
    satisfies the predicate; absent predicate returns all documents
    unchanged, order preserved." *)
Definition filterDocuments (s : VectorStorage) (docs : list Loc)
    (filterOptions : option (option T -> bool)) : list Loc :=
  match filterOptions with
  | None => docs
  | Some p => List.filter (fun l => p (metadata (deref s l))) docs
  end.

(** *** Public methods *)

Definition startTrainingMode : M unit := modify (set_trainingMode true).
Definition endTrainingMode : M unit := modify (set_trainingMode false).

(** The object literal of [addText] and [addTexts]:
    [{ metadata, text, timestamp: Date.now(), vector: [], vectorMag: 0 }]. *)
Definition newDocument (text : string) (metadata : T) : M Loc :=
  t <- now ;;
  alloc (mkDoc None (Some metadata) text t (Some []) (Some 0%float) None).

Definition addText (text : string) (metadata : T) : M (option Loc) :=
  doc <- newDocument text metadata ;;
  docs <- addDocuments [doc] ;;
  ret (docs !! 0%nat).

Definition addTexts (texts : list string) (metadatas : list T) : M (list Loc) :=
  if negb (length texts =? length metadatas)%nat then
    throw "The lengths of texts and metadata arrays must match."
  else
    docs <- mapM (fun '(text, metadata) => newDocument text metadata)
                 (zip texts metadatas) ;;
    addDocuments docs.

Record SearchResult := {
  similarItems : list Loc;
  queryText : string;
  queryEmbedding : list float
}.

(** [pair => ({ ...pair[0], score: pair[1] })]: a new object with the
    properties of the document and its score. *)
Definition copyWithScore (pair : Loc * float) : M Loc :=
  s <- get ;;
  alloc (set_score (Some (snd pair)) (deref s (fst pair))).

(** [delete result.vector; delete result.vectorMag] *)
Definition deleteValues (result : Loc) : M unit :=
  update result (set_vector None) ;;; update result (set_vectorMag None).

Definition similaritySearch (params : IVSSimilaritySearchParams) : M SearchResult :=
  let k := default 4 (k params) in
  queryEmbedding <- embedText (query params) ;;
  queryMagnitude <- calculateMagnitude queryEmbedding ;;
  let queryEmbedding := default [] queryEmbedding in
  s <- get ;;
  let filteredDocuments := filterDocuments s (documents s) (filterOptions params) in
  scoresPairs <- calculateSimilarityScores filteredDocuments queryEmbedding queryMagnitude ;;
  let sortedPairs := JS.sort scoreCompare scoresPairs in
  results <- mapM copyWithScore (JS.slice0 k sortedPairs) ;;
  updateHitCounters results ;;;
  (if (0 <? length results)%nat then removeDocsLRU ;;; saveToIndexDbStorage else ret tt) ;;;
  (if negb (includeValues params) then forEach (fun result _ => deleteValues result) results
   else ret tt) ;;;
  ret {| similarItems := results; queryText := query params; queryEmbedding := queryEmbedding |}.

Definition deleteDocumentsByMetadata (documentId : string) : M unit :=
  modify (fun s =>
    set_documents
      (List.filter
         (fun l => negb (from_option (fun m => metadataValuesInclude m documentId) false
                           (metadata (deref s l))))
         (documents s))
      s) ;;;
  saveToIndexDbStorage.

(** The constructor's test [!this.openaiApiKey && !options.embedTextsFn],
    negated: the options name a non-empty API key or an embedding function. *)
Definition configured (options : IVSOptions) : bool :=
  negb (from_option (fun key => String.eqb key "") true (o_openAIApiKey options))
  || o_embedTextsFn options.

(** The constructor, with the [loadFromIndexDbStorage] it starts run to its
    end.  [records] is what the IndexedDB object store holds when the
    instance is created. *)
Definition constructor (options : IVSOptions) (records : list Doc) : outcome unit :=
  let this :=
    mkVS _ [] (default DEFAULT_MAX_SIZE_IN_MB (o_maxSizeInMB options)) false false
         [] records 0 [] in
  (modify (set_trainingMode true) ;;;
   if negb (configured options) then
     emit (EvConsoleError "VectorStorage: pass as an option either an OpenAI API key or a custom embedTextsFn function.")
   else loadFromIndexDbStorage) this.

End Model.

Notation "x <- m ;; f" := (bind m (fun x => f))
  (at level 100, m at next level, right associativity).
Notation "m ;;; f" := (bind m (fun _ => f))
  (at level 100, right associativity).

(** * The vocabulary of the properties *)
Section Vocabulary.
Context `{Host}.

Abbreviation Doc := (IVSDocument T).

(** Every reference held in [documents] points into the object store. *)
Definition wf (s : VectorStorage) : Prop :=
  Forall (fun l => (l < length (heap s))%nat) (documents s).

(** A candidate is dropped by [addDocuments] when its text is empty after
    trimming, or is the text of a document in memory, or of a record of the
    backend. *)
Definition dropped (s : VectorStorage) (doc : Loc) : Prop :=
  JS.trim (text (deref s doc)) = EmptyString
  \/ (exists d, d ∈ documents s /\ text (deref s d) = text (deref s doc))
  \/ (exists r, r ∈ idb s /\ text r = text (deref s doc)).

(** The size of the documents [ls] is at or under the ceiling.  The source
    tests the opposite, [size > max] ([overCeiling]); the two exclude each
    other, and one of them holds unless a number is NaN. *)
Definition withinCeiling (s : VectorStorage) (ls : list Loc) : bool :=
  (getObjectSizeInMB (docsOf s ls) <=? maxSizeInMB s)%float.

(** Neither the size of [ls] nor the ceiling is NaN. *)
Definition sizesAreNumbers (s : VectorStorage) (ls : list Loc) : Prop :=
  JS.isNaN (getObjectSizeInMB (docsOf s ls)) = false /\ JS.isNaN (maxSizeInMB s) = false.

(** The order of [removeDocsLRU]: fewer hits first, then older first. *)
Definition lruLe (a b : Doc) : Prop :=
  default 0 (hits a) < default 0 (hits b)
  \/ (default 0 (hits a) = default 0 (hits b) /\ timestamp a <= timestamp b).

(** The documents with [hits ?? 0] equal to [h] and [timestamp] equal to [t]. *)
Definition hasLruKey (s : VectorStorage) (h t : Z) (l : Loc) : bool :=
  (default 0 (hits (deref s l)) =? h) && (timestamp (deref s l) =? t).

(** Scores in descending order: no entry is below a later one. *)
Definition descending (l : list float) : Prop :=
  StronglySorted (fun a b => (b <=? a)%float = true) l.

(** The pairs whose score is exactly [sc]. *)
Definition hasScore (sc : float) (p : Loc * float) : bool :=
  PrimFloat.Leibniz.eqb (snd p) sc.

(** [vectorMag] is the L2 norm of [vector]. *)
Definition magnitudeCached (d : Doc) : Prop :=
  exists v, vector d = Some v /\ vectorMag d = Some (l2norm v).

(** Every reference in [documents] is live, and every document in memory
    and every record of the backend carries the norm of its vector. *)
Definition consistent (s : VectorStorage) : Prop :=
  wf s
  /\ Forall (fun l => magnitudeCached (deref s l)) (documents s)
  /\ Forall magnitudeCached (idb s).

(** The calls a client can make, and the state a call leaves behind: a
    thrown exception is caught by the caller and the state stays as the
    method left it. *)
Inductive call :=
| CallAddText (text0 : string) (metadata0 : T)
| CallAddTexts (texts : list string) (metadatas : list T)
| CallSimilaritySearch (params : IVSSimilaritySearchParams)
| CallDeleteDocumentsByMetadata (documentId : string)
| CallStartTrainingMode
| CallEndTrainingMode.

(** A call as a computation; what it returns is dropped. *)
Definition perform (c : call) : M unit :=
  match c with
  | CallAddText text0 metadata0 => addText text0 metadata0 ;;; ret tt
  | CallAddTexts texts metadatas => addTexts texts metadatas ;;; ret tt
  | CallSimilaritySearch params => similaritySearch params ;;; ret tt
  | CallDeleteDocumentsByMetadata documentId => deleteDocumentsByMetadata documentId
  | CallStartTrainingMode => startTrainingMode
  | CallEndTrainingMode => endTrainingMode
  end.

Definition step (c : call) (s s' : VectorStorage) : Prop :=
  match perform c s with
  | Returns _ x | Throws _ x => s' = x
  | Diverges => False
  end.

(** Inserts, searches, and switching training mode on. *)
Definition insertsOrSearches (c : call) : Prop :=
  match c with
  | CallAddText _ _ | CallAddTexts _ _ | CallSimilaritySearch _ | CallStartTrainingMode => True
  | CallDeleteDocumentsByMetadata _ | CallEndTrainingMode => False
  end.

(** States reached from [s0] by calls that satisfy [allowed]. *)
Inductive reachable (allowed : call -> Prop) (s0 : VectorStorage) : VectorStorage -> Prop :=
| reachable_here : reachable allowed s0 s0
| reachable_step (s s' : VectorStorage) (c : call) :
    reachable allowed s0 s -> allowed c -> step c s s' -> reachable allowed s0 s'.

(** A computation is safe for training mode when, started with the flag
    on, it ends (by returning or throwing) with the flag on and with
    [documents] extended at most at its end. *)
Definition trainingSafe {A : Type} (m : M A) : Prop :=
  forall s, trainingMode s = true ->
    match m s with
    | Returns _ s' | Throws _ s' =>
        trainingMode s' = true /\ documents s `prefix_of` documents s'
    | Diverges => False
    end.

(** The state that [saveToIndexDbStorage] leaves: the handle is set, and
    the backend holds the in-memory set if its texts are distinct. *)
Definition saved (s : VectorStorage) : VectorStorage :=
  if textsUnique (docsOf s (documents s)) then
    set_trace (EvSave true :: trace s) (set_idb (docsOf s (documents s)) (set_db true s))
  else
    set_trace (EvConsoleError "Failed to save to IndexedDB:" :: EvSave false :: trace s)
      (set_db true s).

(** The [forEach] of [addDocuments]: the object store after the
    assignments, and whether every document got a vector. *)
Fixpoint assignVectors (newVectors : list (list float)) (index : nat)
    (docs : list Loc) (h : list Doc) : list Doc * bool :=
  match docs with
  | [] => (h, true)
  | doc :: rest =>
      match newVectors !! index with
      | Some v =>
          assignVectors newVectors (S index) rest
            (alter (set_vectorMag (Some (l2norm v))) doc (alter (set_vector (Some v)) doc h))
      | None => (alter (set_vector None) doc h, false)
      end
  end.

(** The objects that [addText] and [addTexts] create for their
    candidates, the first at clock read [tick]. *)
Fixpoint newDocuments (tick : nat) (tms : list (string * T)) : list Doc :=
  match tms with
  | [] => []
  | (t, m) :: tms' =>
      mkDoc None (Some m) t (Date_now tick) (Some []) (Some 0%float) None
      :: newDocuments (S tick) tms'
  end.

(** The pairs that [calculateSimilarityScores] returns ([None] when it
    throws). *)
Fixpoint scoresOf (s : VectorStorage) (queryVector : list float) (queryMagnitude : float)
    (ls : list Loc) : option (list (Loc * float)) :=
  match ls with
  | [] => Some []
  | l :: ls' =>
      match similarityScore (deref s l) queryVector queryMagnitude with
      | Some sc =>
          match scoresOf s queryVector queryMagnitude ls' with
          | Some ps => Some ((l, sc) :: ps)
          | None => None
          end
      | None => None
      end
  end.

(** What the [delete]s of [similaritySearch] leave of a result. *)
Definition stripValues (d : Doc) : Doc := set_vectorMag None (set_vector None d).

(** The objects that [similaritySearch] returns: for each of the best
    pairs, a copy of the document with its score, one more hit, and without
    [vector] and [vectorMag] unless [includeValues] is set. *)
Definition searchCopy (s : VectorStorage) (includeValues : bool) (p : Loc * float) : Doc :=
  (if includeValues then id else stripValues)
    (hit (set_score (Some (snd p)) (deref s (fst p)))).

(** [Object.values(doc.metadata || {}).includes(documentId)] *)
Definition mentions (documentId : string) (d : IVSDocument T) : bool :=
  from_option (fun m => metadataValuesInclude m documentId) false (metadata d).

(** The order in which [removeDocsLRU] evicts. *)
Definition evictionOrder (s : VectorStorage) : list Loc :=
  JS.sort (fun a b => lruCompare (deref s a) (deref s b)) (documents s).

(** The texts of the documents in memory, in order. *)
Definition textsInMemory (s : VectorStorage) : list string :=
  text <$> docsOf s (documents s).

(** When a search for [params] returns, with query embedding [qe]: every
    reference in [documents] is live, the provider answers the query with
    [qe] first, every document that passes the filter has a vector, and
    the eviction pass, should it run, comes to an end. *)
Definition searchReturns (params : IVSSimilaritySearchParams) (s : VectorStorage)
    (qe : list float) : Prop :=
  wf s
  /\ (exists rest, embedTextsFn [query params] = Some (qe :: rest))
  /\ Forall (fun l => is_Some (vector (deref s l)))
       (filterDocuments s (documents s) (filterOptions params))
  /\ (trainingMode s = true \/ overCeiling s [] = false).

(** [d'] is [d] but for [vector] and [vectorMag], the two properties
    that [addDocuments] assigns. *)
Definition sameButValues (d d' : IVSDocument T) : Prop :=
  text d' = text d /\ metadata d' = metadata d /\ timestamp d' = timestamp d
  /\ hits d' = hits d /\ score d' = score d.

(** The filter of [addDocuments] read on a text: it is not empty after
    trimming, and is the text of no document in memory and of no record
    of the backend. *)
Definition isNewText (s : VectorStorage) (t : string) : bool :=
  negb (String.eqb (JS.trim t) "")
  && negb (existsb (fun d => String.eqb (text (deref s d)) t) (documents s))
  && negb (existsb (String.eqb t) (text <$> idb s)).

(** The texts in memory are in order: every reference is live, no two
    documents in memory have one text, no text in memory is blank, and no
    save has failed. *)
Definition textsInOrder (s : VectorStorage) : Prop :=
  wf s
  /\ NoDup (textsInMemory s)
  /\ Forall (fun t => JS.trim t <> EmptyString) (textsInMemory s)
  /\ EvSave false ∉ trace s.

(** A call that does not name one text twice. *)
Definition distinctBatch (c : call) : Prop :=
  match c with
  | CallAddTexts texts _ => NoDup texts
  | _ => True
  end.

(** What no call but the two switches changes: the training flag and
    the ceiling stay, and a database handle that is set stays set. *)
Definition fieldsKept (s s' : VectorStorage) : Prop :=
  trainingMode s' = trainingMode s
  /\ maxSizeInMB s' = maxSizeInMB s
  /\ (db s = true -> db s' = true).

(** Every call but [deleteDocumentsByMetadata]. *)
Definition beforeDelete (c : call) : Prop :=
  match c with
  | CallDeleteDocumentsByMetadata _ => False
  | _ => True
  end.

(** Every call but [endTrainingMode]. *)
Definition beforeEndTrainingMode (c : call) : Prop :=
  match c with
  | CallEndTrainingMode => False
  | _ => True
  end.

(** What a call does to the in-memory set when nothing is evicted:
    [deleteDocumentsByMetadata] takes out the documents whose metadata
    values include its id, and no other; every other call keeps every
    document in place and adds at the end at most. *)
Definition keptByCall (c : call) (s s' : VectorStorage) : Prop :=
  match c with
  | CallDeleteDocumentsByMetadata documentId =>
      documents s'
      = List.filter (fun l => negb (mentions documentId (deref s l))) (documents s)
  | _ => documents s `prefix_of` documents s'
  end.

(** A computation that keeps these fields, whether it returns or throws. *)
Definition keepsFields {A : Type} (m : M A) : Prop :=
  forall s,
    match m s with
    | Returns _ s' | Throws _ s' => fieldsKept s s'
    | Diverges => True
    end.

End Vocabulary.

(** "At most" on the specification of binary64 numbers. *)
Definition SFle (x y : spec_float) : Prop :=
  match SFcompare x y with Some Lt | Some Eq => True | _ => False end.

(** Rounding a non-zero value whose exponent is in range never gives a zero
    or a NaN, and keeps the sign. *)
Definition emin64 : Z := SpecFloat.emin prec emax.

(** A number that is finite and not zero, or infinite, of sign [s]. *)
Variant signed (s : bool) : spec_float -> Prop :=
| signed_finite m e : signed s (S754_finite s m e)
| signed_infinity : signed s (S754_infinity s).

(** A number that is [+0] or [-0]. *)
Definition isZero (x : float) : bool := (x =? 0)%float.

(** A number that is zero or NaN. *)
Definition zeroOrNaN (x : float) : Prop := isZero x = true \/ JS.isNaN x = true.

(** ** A concrete host

    A small host on which the methods can be run: metadata is one string,
    the size helper charges 2 bytes for the array and, per document, 64 bytes
    plus the text and 20 bytes per vector entry, and the provider embeds a
    text as [length; 1]. *)
Module Demo.

Fixpoint natToFloat (n : nat) : float :=
  match n with
  | O => 0%float
  | S n' => (natToFloat n' + 1)%float
  end.

Definition bytes (ds : list (IVSDocument string)) : float :=
  foldr (fun d acc =>
           (acc + 64 + natToFloat (String.length (text d))
            + 20 * natToFloat (length (default [] (vector d))))%float)
        2%float ds.

Definition sizeInMB (ds : list (IVSDocument string)) : float :=
  (bytes ds / 1024 / 1024)%float.

Definition embed (texts : list string) : option (list (list float)) :=
  Some ((fun t => [natToFloat (String.length t); 1%float]) <$> texts).

(** [Object.values(m).includes(v)] for a string [m]: the values of a
    string are its characters. *)
Definition valuesInclude (m v : string) : bool :=
  existsb (fun c => String.eqb (String c EmptyString) v) (list_ascii_of_string m).

#[global] Instance host : Host := {|
  T := string;
  getObjectSizeInMB := sizeInMB;
  DEFAULT_MAX_SIZE_IN_MB := 2048%float;
  embedTextsFn := embed;
  Date_now := fun n => Z.of_nat n + 1700000000000;
  metadataValuesInclude := valuesInclude
|}.

(** The ceiling of the scenarios: 2^-12 MB, that is 256 bytes. *)
Definition options : IVSOptions :=
  {| o_maxSizeInMB := Some 0.000244140625%float;
     o_openAIApiKey := None;
     o_embedTextsFn := true |}.

(** The state an outcome leaves, [d] if there is none. *)
Definition stateOr {A} (d : VectorStorage) (o : outcome A) : VectorStorage :=
  match o with
  | Returns _ s | Throws _ s => s
  | Diverges => d
  end.

Definition blank : VectorStorage := mkVS _ [] 0%float false false [] [] 0 [].

(** A new instance on an empty database. *)
Definition ready : VectorStorage :=
  Eval vm_compute in stateOr blank (constructor options []).

(** The same after [addText("hello", "m1")]. *)
Definition withHello : VectorStorage :=
  Eval vm_compute in stateOr blank (addText "hello" "m1" ready).

(** Three documents inserted by a new instance. *)
Definition threeDocs : VectorStorage :=
  Eval vm_compute in
    stateOr blank (addTexts ["alpha"; "beta"; "gamma"] ["m1"; "m2"; "m3"] ready).

(** The same after [endTrainingMode()]. *)
Definition threeDocsEnded : VectorStorage :=
  Eval vm_compute in stateOr blank (endTrainingMode threeDocs).

(** The same with the object literal of a fourth document created. *)
Definition candidate : VectorStorage :=
  Eval vm_compute in stateOr blank (newDocument "delta" "m4" threeDocsEnded).

Definition queryFor (text0 : string) : IVSSimilaritySearchParams :=
  {| query := text0; k := None; filterOptions := None; includeValues := false |}.

Definition resultOr (d : SearchResult) (o : outcome SearchResult) : SearchResult :=
  match o with
  | Returns r _ => r
  | _ => d
  end.

(** A search for "alpha" among the three documents. *)
Definition alphaResult : SearchResult :=
  Eval vm_compute in
    resultOr (Build_SearchResult [] "" []) (similaritySearch (queryFor "alpha") threeDocs).

Definition afterAlpha : VectorStorage :=
  Eval vm_compute in stateOr blank (similaritySearch (queryFor "alpha") threeDocs).

(** A search for "hello" in the store that holds "hello". *)
Definition helloResult : SearchResult :=
  Eval vm_compute in
    resultOr (Build_SearchResult [] "" []) (similaritySearch (queryFor "hello") withHello).

Definition afterHello : VectorStorage :=
  Eval vm_compute in stateOr blank (similaritySearch (queryFor "hello") withHello).

(** A batch with one text twice, inserted by a new instance. *)
Definition afterDuplicate : VectorStorage :=
  Eval vm_compute in stateOr blank (addTexts ["a"; "a"] ["m1"; "m2"] ready).

(** A backend with three records: a vector opposite to the embedding of
    "hello", a zero vector, and the embedding of "hello" itself. *)
Definition records : list (IVSDocument string) :=
  Eval vm_compute in
    [ mkDoc None (Some "a") "opposite" 1 (Some [(-5)%float; (-1)%float])
        (Some (l2norm [(-5)%float; (-1)%float])) None;
      mkDoc None (Some "z") "zero" 2 (Some [0%float; 0%float])
        (Some (l2norm [0%float; 0%float])) None;
      mkDoc None (Some "b") "hello" 3 (Some [5%float; 1%float])
        (Some (l2norm [5%float; 1%float])) None ].

(** A new instance on that backend, and a search for "hello" in it. *)
Definition loaded : VectorStorage :=
  Eval vm_compute in stateOr blank (constructor options records).

Definition loadedResult : SearchResult :=
  Eval vm_compute in
    resultOr (Build_SearchResult [] "" []) (similaritySearch (queryFor "hello") loaded).

Definition afterLoadedSearch : VectorStorage :=
  Eval vm_compute in stateOr blank (similaritySearch (queryFor "hello") loaded).

(** Options that name neither an API key nor an embedding function. *)
Definition bare : IVSOptions :=
  {| o_maxSizeInMB := None; o_openAIApiKey := None; o_embedTextsFn := false |}.

(** What the eviction pass leaves of the three documents. *)
Definition evicted : VectorStorage :=
  Eval vm_compute in stateOr blank (removeDocsLRU threeDocsEnded).

(** A search that asks for two items with their vectors. *)
Definition queryWithValues (text0 : string) : IVSSimilaritySearchParams :=
  {| query := text0; k := Some 2; filterOptions := None; includeValues := true |}.

(** The same host with a provider that rejects every call, a new instance
    of it on an empty database, and a query. *)
Definition offline : Host := {|
  T := string;
  getObjectSizeInMB := sizeInMB;
  DEFAULT_MAX_SIZE_IN_MB := 2048%float;
  embedTextsFn := fun _ => None;
  Date_now := fun n => Z.of_nat n + 1700000000000;
  metadataValuesInclude := valuesInclude
|}.

Definition offlineReady : @VectorStorage offline :=
  Eval vm_compute in
    match @constructor offline options [] with
    | Returns _ s | Throws _ s => s
    | Diverges => @mkVS offline [] 0%float false false [] [] 0 []
    end.

Definition offlineQuery : @IVSSimilaritySearchParams offline :=
  @Build_IVSSimilaritySearchParams offline "hello" None None false.

(** A host whose size helper reports 1 MB for every set of documents, and
    an instance of it with a ceiling of half a megabyte, after
    [endTrainingMode()]. *)
Definition flat : Host := {|
  T := string;
  getObjectSizeInMB := fun _ => 1%float;
  DEFAULT_MAX_SIZE_IN_MB := 2048%float;
  embedTextsFn := embed;
  Date_now := fun n => Z.of_nat n + 1700000000000;
  metadataValuesInclude := valuesInclude
|}.

Definition flatEnded : @VectorStorage flat :=
  Eval vm_compute in
    match @constructor flat
            {| o_maxSizeInMB := Some 0.5%float; o_openAIApiKey := None; o_embedTextsFn := true |}
            [] with
    | Returns _ s | Throws _ s => @set_trainingMode flat false s
    | Diverges => @mkVS flat [] 0%float false false [] [] 0 []
    end.

End Demo.

(** * Facts about binary64 numbers *)
Module FloatFacts.

Lemma isNaN_spec x : JS.isNaN x = true <-> Prim2SF x = S754_nan.
Proof.
  unfold JS.isNaN, PrimFloat.is_nan. rewrite FloatAxioms.eqb_spec.
  unfold SFeqb.
  destruct (Prim2SF x) as [s|s| |s m e] eqn:E; simpl.
  - split; discriminate.
  - destruct s; simpl; split; discriminate.
  - tauto.
  - destruct s; rewrite Z.compare_refl, Pos.compare_cont_refl; simpl; split; discriminate.
Qed.

Lemma SFcompare_antisym x y :
  SFcompare y x = option_map CompOpp (SFcompare x y).
Proof.
  destruct x as [s1|s1| |s1 m1 e1], y as [s2|s2| |s2 m2 e2]; simpl;
    try reflexivity; try (destruct s1; reflexivity); try (destruct s2; reflexivity);
    try (destruct s1, s2; reflexivity).
  destruct s1, s2; simpl; try reflexivity;
    rewrite (Z.compare_antisym e1 e2); destruct (e1 ?= e2); simpl; try reflexivity;
    rewrite (Pos.compare_cont_antisym); simpl; try rewrite CompOpp_involutive; reflexivity.
Qed.

Lemma SFle_trans x y z : SFle x y -> SFle y z -> SFle x z.
Proof.
  unfold SFle.
  destruct x as [s1|s1| |s1 m1 e1], y as [s2|s2| |s2 m2 e2], z as [s3|s3| |s3 m3 e3];
    simpl; try tauto;
    try (destruct s1; simpl; tauto); try (destruct s2; simpl; tauto);
    try (destruct s3; simpl; tauto);
    try (destruct s1, s2; simpl; tauto); try (destruct s1, s3; simpl; tauto);
    try (destruct s2, s3; simpl; tauto);
    try (destruct s1, s2, s3; simpl; tauto).
  destruct s1, s2, s3; simpl; try tauto;
    rewrite ?Pos.compare_cont_spec; simpl;
    destruct (Z.compare_spec e1 e2), (Z.compare_spec e2 e3), (Z.compare_spec e1 e3);
    simpl; try tauto; try lia; subst;
    destruct (Pos.compare_spec m1 m2), (Pos.compare_spec m2 m3), (Pos.compare_spec m1 m3);
    simpl; try tauto; try lia.
Qed.

Lemma digits2_pos_bounds m :
  2 ^ (Zpos (digits2_pos m) - 1) <= Zpos m < 2 ^ Zpos (digits2_pos m).
Proof.
  induction m as [p IH|p IH|]; simpl digits2_pos.
  - rewrite Pos2Z.inj_succ, Z.pow_succ_r by lia.
    replace (Z.succ (Zpos (digits2_pos p)) - 1) with (Z.succ (Zpos (digits2_pos p) - 1)) by lia.
    rewrite Z.pow_succ_r by lia. lia.
  - rewrite Pos2Z.inj_succ, Z.pow_succ_r by lia.
    replace (Z.succ (Zpos (digits2_pos p)) - 1) with (Z.succ (Zpos (digits2_pos p) - 1)) by lia.
    rewrite Z.pow_succ_r by lia. lia.
  - simpl. lia.
Qed.

Lemma shr_m_shr_1 mrs : 0 <= shr_m mrs -> shr_m (shr_1 mrs) = shr_m mrs / 2.
Proof.
  destruct mrs as [m r s]; simpl. intros Hm.
  rewrite <- Z.div2_div.
  destruct m as [|[p|p|]|p]; simpl; try reflexivity; lia.
Qed.

Lemma shr_m_iter_pos p : forall mrs,
  0 <= shr_m mrs -> shr_m (SpecFloat.iter_pos shr_1 p mrs) = shr_m mrs / 2 ^ Zpos p.
Proof.
  assert (Hnn : forall mrs, 0 <= shr_m mrs -> 0 <= shr_m (shr_1 mrs)).
  { intros mrs Hm. rewrite shr_m_shr_1 by assumption. apply Z.div_pos; lia. }
  induction p as [p IH|p IH|]; intros mrs Hm; simpl SpecFloat.iter_pos.
  - assert (H1 := Hnn _ Hm).
    assert (H2 : 0 <= shr_m (SpecFloat.iter_pos shr_1 p (shr_1 mrs))).
    { rewrite IH by assumption. apply Z.div_pos; lia. }
    rewrite IH, IH, shr_m_shr_1 by assumption.
    rewrite !Z.div_div by lia. f_equal.
    replace (Zpos p~1) with (1 + (Zpos p + Zpos p)) by lia.
    rewrite !Z.pow_add_r by lia. reflexivity.
  - assert (H2 : 0 <= shr_m (SpecFloat.iter_pos shr_1 p mrs)).
    { rewrite IH by assumption. apply Z.div_pos; lia. }
    rewrite IH, IH by assumption.
    rewrite !Z.div_div by lia. f_equal.
    replace (Zpos p~0) with (Zpos p + Zpos p) by lia.
    rewrite Z.pow_add_r by lia. reflexivity.
  - rewrite shr_m_shr_1 by assumption. reflexivity.
Qed.

Lemma Zdigits2_bounds m : 0 < m ->
  0 < Zdigits2 m /\ 2 ^ (Zdigits2 m - 1) <= m < 2 ^ Zdigits2 m.
Proof.
  destruct m as [|p|p]; try lia. intros _. simpl Zdigits2.
  split; [lia | apply digits2_pos_bounds].
Qed.

Lemma shr_record_of_loc_m m l : shr_m (shr_record_of_loc m l) = m.
Proof. destruct l as [|[]]; reflexivity. Qed.

Lemma shr_fexp_pos m e l :
  0 < m -> emin64 <= e ->
  0 < shr_m (fst (shr_fexp prec emax m e l)) /\ emin64 <= snd (shr_fexp prec emax m e l).
Proof.
  intros Hm He. unfold shr_fexp, shr.
  destruct (Zdigits2_bounds m Hm) as [Hd [Hlo Hhi]].
  set (d := Zdigits2 m) in *.
  assert (Hf : fexp prec emax (d + e) - e = Z.max (d - prec) (emin64 - e)).
  { unfold fexp, emin64. lia. }
  rewrite Hf.
  destruct (Z.max (d - prec) (emin64 - e)) as [|p|p] eqn:Hn; simpl fst; simpl snd;
    rewrite ?shr_record_of_loc_m; try (split; lia).
  rewrite shr_m_iter_pos by (rewrite shr_record_of_loc_m; lia).
  rewrite shr_record_of_loc_m.
  assert (Hp : Zpos p = d - prec) by lia.
  split; [|lia].
  apply Z.div_str_pos. split; [apply Z.pow_pos_nonneg; lia|].
  apply Z.le_trans with (2 ^ (d - 1)); [|assumption].
  apply Z.pow_le_mono_r; [lia|]. rewrite Hp. unfold prec. lia.
Qed.

Lemma round_nearest_even_ge m l : m <= round_nearest_even m l.
Proof.
  unfold round_nearest_even. destruct l as [|[]]; try lia.
  destruct (Z.even m); lia.
Qed.

Lemma binary_round_aux_signed s m e l :
  0 < m -> emin64 <= e -> signed s (binary_round_aux prec emax s m e l).
Proof.
  intros Hm He. unfold binary_round_aux.
  destruct (shr_fexp_pos m e l Hm He) as [H1 H1e].
  destruct (shr_fexp prec emax m e l) as [mrs' e'] eqn:E1. simpl in H1, H1e.
  set (m2 := round_nearest_even (shr_m mrs') (loc_of_shr_record mrs')).
  assert (H2 : 0 < m2) by (pose proof (round_nearest_even_ge (shr_m mrs') (loc_of_shr_record mrs')); unfold m2; lia).
  destruct (shr_fexp_pos m2 e' loc_Exact H2 H1e) as [H3 _].
  destruct (shr_fexp prec emax m2 e' loc_Exact) as [mrs'' e''] eqn:E2. simpl in H3.
  destruct (shr_m mrs'') as [|p|p]; try lia.
  destruct (e'' <=? emax - prec); constructor.
Qed.

Lemma shl_align_spec m e e' :
  e' <= e ->
  Zpos (fst (shl_align m e e')) = Zpos m * 2 ^ (e - e') /\ snd (shl_align m e e') = e'.
Proof.
  intros He. unfold shl_align.
  destruct (e' - e) as [|p|p] eqn:E; simpl fst; simpl snd; try lia.
  - replace (e - e') with 0 by lia. split; lia.
  - replace (e - e') with (Zpos p) by lia. split; [|reflexivity].
    clear. induction p as [|p IH] using Pos.peano_ind.
    + simpl. lia.
    + rewrite Pos.iter_succ, Pos2Z.inj_succ, Z.pow_succ_r by lia.
      rewrite Pos2Z.inj_xO, IH. ring.
Qed.

Lemma binary_round_signed s m e :
  emin64 <= e -> signed s (binary_round prec emax s m e).
Proof.
  intros He. unfold binary_round.
  destruct (shl_align m e (fexp prec emax (Zpos (digits2_pos m) + e))) as [mz ez] eqn:E.
  apply binary_round_aux_signed; [lia|].
  unfold shl_align in E.
  destruct (fexp prec emax (Zpos (digits2_pos m) + e) - e) eqn:E'; inversion E; subst; try lia.
  unfold fexp, emin64. lia.
Qed.

Lemma bounded_spec m e :
  bounded prec emax m e = true ->
  emin64 <= e /\ Zpos m < 2 ^ prec /\ (emin64 < e -> 2 ^ (prec - 1) <= Zpos m).
Proof.
  unfold bounded, canonical_mantissa. intros Hb.
  apply andb_prop in Hb. destruct Hb as [Hc _].
  apply Z.eqb_eq in Hc. unfold fexp in Hc. fold emin64 in Hc.
  pose proof (digits2_pos_bounds m) as [Hlo Hhi].
  set (d := Zpos (digits2_pos m)) in *.
  split; [lia|]. split.
  - apply Z.lt_le_trans with (2 ^ d); [assumption|].
    apply Z.pow_le_mono_r; lia.
  - intros He. replace d with prec in Hlo by lia. assumption.
Qed.

(** The aligned mantissas of two canonical numbers compare like the
    numbers: first by exponent, then by mantissa. *)
Lemma aligned_compare mx ex my ey :
  bounded prec emax mx ex = true -> bounded prec emax my ey = true ->
  (Zpos (fst (shl_align mx ex (Z.min ex ey))) ?= Zpos (fst (shl_align my ey (Z.min ex ey))))
  = match ex ?= ey with
    | Lt => Lt
    | Gt => Gt
    | Eq => Pos.compare_cont Eq mx my
    end.
Proof.
  intros Hx Hy.
  destruct (bounded_spec _ _ Hx) as [Hex [Hxhi Hxlo]].
  destruct (bounded_spec _ _ Hy) as [Hey [Hyhi Hylo]].
  destruct (shl_align_spec mx ex (Z.min ex ey) ltac:(lia)) as [-> _].
  destruct (shl_align_spec my ey (Z.min ex ey) ltac:(lia)) as [-> _].
  assert (Hp : 2 ^ prec = 2 * 2 ^ (prec - 1)) by reflexivity.
  destruct (Z.compare_spec ex ey) as [E|E|E].
  - subst. rewrite Z.min_id, Z.sub_diag, Z.pow_0_r, !Z.mul_1_r. reflexivity.
  - rewrite Z.min_l, Z.sub_diag, Z.pow_0_r, Z.mul_1_r by lia.
    apply Z.compare_lt_iff.
    assert (2 <= 2 ^ (ey - ex)).
    { change 2 with (2 ^ 1) at 1. apply Z.pow_le_mono_r; lia. }
    specialize (Hylo ltac:(lia)). nia.
  - rewrite Z.min_r, Z.sub_diag, Z.pow_0_r, Z.mul_1_r by lia.
    apply Z.compare_gt_iff.
    assert (2 <= 2 ^ (ex - ey)).
    { change 2 with (2 ^ 1) at 1. apply Z.pow_le_mono_r; lia. }
    specialize (Hxlo ltac:(lia)). nia.
Qed.

Lemma binary_normalize_pos m e :
  emin64 <= e ->
  SFltb (S754_zero false) (binary_normalize prec emax m e false) = (0 <? m).
Proof.
  intros He. destruct m as [|p|p]; simpl binary_normalize; try reflexivity.
  - destruct (binary_round_signed false p e He); reflexivity.
  - destruct (binary_round_signed true p e He); reflexivity.
Qed.

(** The sign of a difference: for numbers other than NaN, [y - x] is
    positive exactly when [x < y]. *)
Lemma SFsub_pos x y :
  valid_binary x = true -> valid_binary y = true ->
  x <> S754_nan -> y <> S754_nan ->
  SFltb (S754_zero false) (SF64sub y x) = SFltb x y.
Proof.
  intros Vx Vy Nx Ny.
  destruct x as [sx|sx| |sx mx ex], y as [sy|sy| |sy my ey]; try congruence;
    try (destruct sx, sy; reflexivity).
  unfold SF64sub, SFsub.
  simpl in Vx, Vy.
  destruct (bounded_spec _ _ Vx) as [Hex _], (bounded_spec _ _ Vy) as [Hey _].
  rewrite binary_normalize_pos by lia.
  pose proof (aligned_compare mx ex my ey Vx Vy) as Hc.
  rewrite (Z.min_comm ey ex).
  remember (Zpos (fst (shl_align mx ex (Z.min ex ey)))) as ax eqn:Eax.
  remember (Zpos (fst (shl_align my ey (Z.min ex ey)))) as ay eqn:Eay.
  assert (0 < ax) by lia. assert (0 < ay) by lia. clear Eax Eay.
  unfold SFltb, SFcompare.
  revert Hc.
  destruct sx, sy; unfold cond_Zopp;
    (destruct (ex ?= ey); [destruct (Pos.compare_cont Eq mx my)|..]); simpl; intros Hc;
    first [apply Z.compare_eq_iff in Hc | change (ax < ay) in Hc
          | apply Z.compare_gt_iff in Hc | idtac];
    match goal with
    | |- (0 <? ?d) = _ => destruct (Z.ltb_spec 0 d)
    end; first [reflexivity | exfalso; lia].
Qed.

Lemma isNaN_false x : JS.isNaN x = false <-> Prim2SF x <> S754_nan.
Proof.
  rewrite <- isNaN_spec. destruct (JS.isNaN x); split; congruence.
Qed.

Theorem sub_pos_ltb (x y : float) :
  JS.isNaN x = false -> JS.isNaN y = false ->
  (0 <? y - x)%float = (x <? y)%float.
Proof.
  intros Hx Hy. rewrite !FloatAxioms.ltb_spec, FloatAxioms.sub_spec.
  apply SFsub_pos; try apply Prim2SF_valid; apply isNaN_false; assumption.
Qed.
(** *** NaN is absorbing *)

Lemma isNaN_eq x : JS.isNaN x = true -> x = nan.
Proof.
  intros Hx. apply isNaN_spec in Hx. apply Prim2SF_inj. rewrite Hx. reflexivity.
Qed.

Lemma SF_nan_eq x : Prim2SF x = S754_nan -> x = nan.
Proof. intros Hx. apply Prim2SF_inj. rewrite Hx. reflexivity. Qed.

Lemma add_nan_l x : (nan + x)%float = nan.
Proof. apply SF_nan_eq. rewrite FloatAxioms.add_spec. reflexivity. Qed.

Lemma add_nan_r x : (x + nan)%float = nan.
Proof.
  apply SF_nan_eq. rewrite FloatAxioms.add_spec.
  change (Prim2SF nan) with S754_nan. destruct (Prim2SF x); reflexivity.
Qed.

Lemma mul_nan_r x : (x * nan)%float = nan.
Proof.
  apply SF_nan_eq. rewrite FloatAxioms.mul_spec.
  change (Prim2SF nan) with S754_nan. destruct (Prim2SF x); reflexivity.
Qed.

Lemma div_nan_l x : (nan / x)%float = nan.
Proof. apply SF_nan_eq. rewrite FloatAxioms.div_spec. reflexivity. Qed.

(** *** The order on numbers other than NaN *)

Lemma ltb_irrefl x : (x <? x)%float = false.
Proof.
  rewrite FloatAxioms.ltb_spec. unfold SFltb.
  destruct (Prim2SF x) as [s|s| |s m e]; simpl; try reflexivity.
  - destruct s; reflexivity.
  - destruct s; rewrite Z.compare_refl, Pos.compare_cont_refl; reflexivity.
Qed.

Lemma ltb_asym x y : (x <? y)%float = true -> (y <? x)%float = false.
Proof.
  rewrite !FloatAxioms.ltb_spec. unfold SFltb.
  rewrite (SFcompare_antisym (Prim2SF x) (Prim2SF y)).
  destruct (SFcompare (Prim2SF x) (Prim2SF y)) as [[]|]; simpl; congruence.
Qed.

Lemma ltb_leb x y : (x <? y)%float = true -> (x <=? y)%float = true.
Proof.
  rewrite FloatAxioms.ltb_spec, FloatAxioms.leb_spec. unfold SFltb, SFleb.
  destruct (SFcompare (Prim2SF x) (Prim2SF y)) as [[]|]; congruence.
Qed.

Lemma leb_not_ltb x y : (x <=? y)%float = true -> (y <? x)%float = false.
Proof.
  rewrite FloatAxioms.ltb_spec, FloatAxioms.leb_spec. unfold SFltb, SFleb.
  rewrite (SFcompare_antisym (Prim2SF x) (Prim2SF y)).
  destruct (SFcompare (Prim2SF x) (Prim2SF y)) as [[]|]; simpl; congruence.
Qed.

Lemma SFcompare_defined x y :
  x <> S754_nan -> y <> S754_nan -> exists c, SFcompare x y = Some c.
Proof.
  intros Hx Hy.
  destruct x as [s1|s1| |s1 m1 e1], y as [s2|s2| |s2 m2 e2]; simpl; try congruence; eauto.
Qed.

(** For numbers other than NaN, "not greater" is "at most". *)
Lemma not_ltb_leb x y :
  JS.isNaN x = false -> JS.isNaN y = false ->
  (y <? x)%float = false -> (x <=? y)%float = true.
Proof.
  intros Hx Hy. apply isNaN_false in Hx, Hy.
  rewrite FloatAxioms.ltb_spec, FloatAxioms.leb_spec. unfold SFltb, SFleb.
  rewrite (SFcompare_antisym (Prim2SF x) (Prim2SF y)).
  destruct (SFcompare_defined _ _ Hx Hy) as [c ->].
  destruct c; simpl; congruence.
Qed.

Lemma leb_SFle x y : (x <=? y)%float = true <-> SFle (Prim2SF x) (Prim2SF y).
Proof.
  rewrite FloatAxioms.leb_spec. unfold SFleb, SFle.
  destruct (SFcompare (Prim2SF x) (Prim2SF y)) as [[]|]; split; intros; try tauto; congruence.
Qed.

Lemma leb_trans x y z :
  (x <=? y)%float = true -> (y <=? z)%float = true -> (x <=? z)%float = true.
Proof. rewrite !leb_SFle. apply SFle_trans. Qed.

Lemma leb_not_nan x y :
  (x <=? y)%float = true -> JS.isNaN x = false /\ JS.isNaN y = false.
Proof.
  rewrite FloatAxioms.leb_spec, !isNaN_false. unfold SFleb.
  destruct (Prim2SF x), (Prim2SF y); simpl; intros; split; congruence.
Qed.

(** [x - x] is never positive: it is a zero, or NaN for an infinity. *)
Lemma sub_diag_not_pos x : (0 <? x - x)%float = false.
Proof.
  destruct (JS.isNaN x) eqn:Hx.
  - apply isNaN_eq in Hx. subst. reflexivity.
  - rewrite sub_pos_ltb by assumption. apply ltb_irrefl.
Qed.

(** The sign read by [sort] is [Gt] exactly when the result is positive. *)
Lemma sortSign_Gt v : JS.sortSign v = Gt <-> (0 <? v)%float = true.
Proof.
  unfold JS.sortSign. destruct (v <? 0)%float eqn:Hneg.
  - apply ltb_asym in Hneg. rewrite Hneg. split; discriminate.
  - destruct (0 <? v)%float; split; congruence.
Qed.

End FloatFacts.

(** * [Array.prototype.sort] *)
Section SortFacts.
Context {A : Type} (compareFn : A -> A -> comparison).

Lemma sort_insert_perm (x : A) (l : list A) :
  JS.sort_insert compareFn x l ≡ₚ x :: l.
Proof.
  induction l as [|y l IH]; simpl; [reflexivity|].
  destruct (compareFn x y); try reflexivity.
  rewrite IH. apply Permutation_swap.
Qed.

Lemma sort_perm (l : list A) : JS.sort compareFn l ≡ₚ l.
Proof.
  induction l as [|x l IH]; simpl; [reflexivity|].
  rewrite sort_insert_perm, IH. reflexivity.
Qed.

Lemma sort_elem_of (x : A) (l : list A) : x ∈ JS.sort compareFn l <-> x ∈ l.
Proof. rewrite (sort_perm l). reflexivity. Qed.

Lemma sort_length (l : list A) : length (JS.sort compareFn l) = length l.
Proof. rewrite (sort_perm l). reflexivity. Qed.

(** Stability: elements that the comparator never puts in the order
    "greater" keep their relative order. *)
Lemma sort_insert_filter (P : A -> bool) (x : A) (l : list A) :
  (forall y, y ∈ l -> P x = true -> P y = true -> compareFn x y <> Gt) ->
  List.filter P (JS.sort_insert compareFn x l) = List.filter P (x :: l).
Proof.
  induction l as [|y l IH]; intros Hxy; [reflexivity|].
  simpl JS.sort_insert.
  destruct (compareFn x y) eqn:Hc; try reflexivity.
  simpl. rewrite IH by (intros z Hz; apply Hxy; right; exact Hz). simpl.
  destruct (P x) eqn:Hx, (P y) eqn:Hy; try reflexivity.
  exfalso. apply (Hxy y); [left | | | ]; auto.
Qed.

Lemma sort_stable (P : A -> bool) (l : list A) :
  (forall x y, x ∈ l -> y ∈ l -> P x = true -> P y = true -> compareFn x y <> Gt) ->
  List.filter P (JS.sort compareFn l) = List.filter P l.
Proof.
  induction l as [|x l IH]; intros Hxy; [reflexivity|].
  simpl JS.sort. rewrite sort_insert_filter.
  - simpl. rewrite IH; [reflexivity|].
    intros y z Hy Hz. apply Hxy; right; assumption.
  - intros y Hy. apply Hxy; [left | right; apply sort_elem_of; exact Hy].
Qed.

(** Order: when, on the elements of the array, the comparator agrees with a
    relation [R] ("[x] may stand before [y]"), the result is sorted by [R]. *)
Lemma sort_insert_HdRel (R : A -> A -> Prop) (x z : A) (l : list A) :
  R z x -> HdRel R z l -> HdRel R z (JS.sort_insert compareFn x l).
Proof.
  intros Hzx Hl. destruct l as [|y l]; simpl; [constructor; exact Hzx|].
  inversion Hl; subst. destruct (compareFn x y); constructor; assumption.
Qed.

Lemma sort_insert_sorted (R : A -> A -> Prop) (x : A) (l : list A) :
  (forall y, y ∈ l -> compareFn x y <> Gt -> R x y) ->
  (forall y, y ∈ l -> compareFn x y = Gt -> R y x) ->
  Sorted R l -> Sorted R (JS.sort_insert compareFn x l).
Proof.
  intros Hle Hgt Hs. induction Hs as [|y l Hs IH Hhd]; simpl.
  - repeat constructor.
  - destruct (compareFn x y) eqn:Hc.
    + constructor; [constructor; assumption|]. constructor.
      apply Hle; [left | congruence].
    + constructor; [constructor; assumption|]. constructor.
      apply Hle; [left | congruence].
    + constructor.
      * apply IH; intros z Hz; [apply Hle | apply Hgt]; right; exact Hz.
      * apply sort_insert_HdRel; [|exact Hhd]. apply Hgt; [left | exact Hc].
Qed.

Lemma sort_sorted (R : A -> A -> Prop) (l : list A) :
  (forall x y, x ∈ l -> y ∈ l -> compareFn x y <> Gt -> R x y) ->
  (forall x y, x ∈ l -> y ∈ l -> compareFn x y = Gt -> R y x) ->
  Sorted R (JS.sort compareFn l).
Proof.
  induction l as [|x l IH]; intros Hle Hgt; simpl; [constructor|].
  apply sort_insert_sorted.
  - intros y Hy. apply Hle; [left | right; apply sort_elem_of; exact Hy].
  - intros y Hy. apply Hgt; [left | right; apply sort_elem_of; exact Hy].
  - apply IH; intros y z Hy Hz; [apply Hle | apply Hgt]; right; assumption.
Qed.

End SortFacts.

Lemma sort_ext {A : Type} (f g : A -> A -> comparison) (l : list A) :
  (forall x y, f x y = g x y) -> JS.sort f l = JS.sort g l.
Proof.
  intros Hfg. induction l as [|x l IH]; simpl; [reflexivity|].
  rewrite IH. generalize (JS.sort g l). intros l'.
  induction l' as [|y l' IH']; simpl; [reflexivity|].
  rewrite Hfg, IH'. reflexivity.
Qed.

(** * The similarity engine *)
Section Scoring.
Import FloatFacts.

Lemma reduce_from_nan (q : list float) (l : list float) (i : nat) :
  JS.reduce_from (fun sum val i => (sum + val * JS.toNumber (q !! i))%float) i l nan = nan.
Proof.
  revert i. induction l as [|x l IH]; intros i; simpl; [reflexivity|].
  rewrite add_nan_l. apply IH.
Qed.

Lemma reduce_from_past_end (q : list float) (l : list float) :
  forall (i : nat) (acc : float),
    (i <= length q < i + length l)%nat ->
    JS.reduce_from (fun sum val i => (sum + val * JS.toNumber (q !! i))%float) i l acc = nan.
Proof.
  induction l as [|x l IH]; intros i acc Hi; simpl in *; [lia|].
  destruct (decide (i = length q)) as [->|Hne].
  - rewrite (lookup_ge_None_2 q (length q)) by lia. simpl.
    rewrite mul_nan_r, add_nan_r. apply reduce_from_nan.
  - apply IH. lia.
Qed.

Lemma reduce_from_take (q : list float) (n : nat) (l : list float) :
  forall (i : nat) (acc : float),
    (i + length l <= n)%nat ->
    JS.reduce_from (fun sum val i => (sum + val * JS.toNumber (take n q !! i))%float) i l acc
    = JS.reduce_from (fun sum val i => (sum + val * JS.toNumber (q !! i))%float) i l acc.
Proof.
  induction l as [|x l IH]; intros i acc Hi; simpl in *; [reflexivity|].
  rewrite lookup_take_lt by lia. apply IH. lia.
Qed.

(** A query vector shorter than the document vector: the sum meets
    [val * undefined] and is NaN from there on. *)
Lemma dotProduct_short_query (v q : list float) :
  (length q < length v)%nat -> dotProduct v q = nan.
Proof. intros Hlen. apply reduce_from_past_end. lia. Qed.

(** A longer query vector: its entries past the document vector are never
    read. *)
Lemma dotProduct_long_query (v q : list float) :
  dotProduct v (take (length v) q) = dotProduct v q.
Proof. apply reduce_from_take. lia. Qed.

Lemma normalized_cosine_nan (a b : float) :
  normalizeScore (getCosineSimilarityScore nan a b) = nan.
Proof.
  unfold normalizeScore, getCosineSimilarityScore.
  rewrite div_nan_l, add_nan_l, div_nan_l. reflexivity.
Qed.

(** C6 (as amended).  Scoring a document whose [vector] is present never
    fails, whatever the two lengths are.  When the document vector is longer
    than the query vector the score is NaN; when it is shorter, the score is
    the one obtained against the query vector cut to the document's length. *)
Theorem similarityScore_unequal_lengths
    {T : Type} (doc : IVSDocument T) (v queryVector : list float) (queryMagnitude : float) :
  vector doc = Some v ->
  (exists sc, similarityScore doc queryVector queryMagnitude = Some sc)
  /\ ((length queryVector < length v)%nat ->
      similarityScore doc queryVector queryMagnitude = Some nan)
  /\ ((length v < length queryVector)%nat ->
      similarityScore doc queryVector queryMagnitude
      = similarityScore doc (take (length v) queryVector) queryMagnitude).
Proof.
  intros Hv. unfold similarityScore. rewrite Hv. repeat split.
  - eexists. reflexivity.
  - intros Hlen. rewrite dotProduct_short_query by assumption.
    rewrite normalized_cosine_nan. reflexivity.
  - intros _. rewrite dotProduct_long_query. reflexivity.
Qed.

End Scoring.

(** * Properties of the methods *)
Section Methods.
Context `{Host}.

Abbreviation Doc := (IVSDocument T).

Lemma existsb_eqb_elem (x : string) (l : list string) :
  existsb (String.eqb x) l = true <-> x ∈ l.
Proof.
  rewrite existsb_exists. split.
  - intros (y & Hin & Heq). apply String.eqb_eq in Heq. subst.
    apply list_elem_of_In. assumption.
  - intros Hin. exists x. split; [apply list_elem_of_In; assumption | apply String.eqb_refl].
Qed.

Lemma isNewDocument_false_iff (s : VectorStorage) (doc : Loc) :
  isNewDocument s (text <$> idb s) doc = false <-> dropped s doc.
Proof.
  unfold isNewDocument, dropped.
  rewrite !andb_false_iff, !negb_false_iff, String.eqb_eq, existsb_exists, existsb_eqb_elem.
  rewrite list_elem_of_fmap.
  split.
  - intros [[Ht | (d & Hin & Heq)] | (r & Heq & Hin)].
    + left. assumption.
    + right. left. exists d. apply String.eqb_eq in Heq. apply list_elem_of_In in Hin. auto.
    + right. right. exists r. auto.
  - intros [Ht | [(d & Hin & Heq) | (r & Hin & Heq)]].
    + left. left. assumption.
    + left. right. exists d. split; [apply list_elem_of_In; assumption|].
      apply String.eqb_eq. assumption.
    + right. exists r. auto.
Qed.

Lemma filter_all_dropped (s : VectorStorage) (docs : list Loc) :
  Forall (dropped s) docs ->
  List.filter (isNewDocument s (text <$> idb s)) docs = [].
Proof.
  induction 1 as [|doc docs Hd _ IH]; simpl; [reflexivity|].
  apply isNewDocument_false_iff in Hd. rewrite Hd. assumption.
Qed.

(** *** What the loops of the methods compute *)

Lemma overCeiling_ext (s s' : VectorStorage) (ls : list Loc) :
  maxSizeInMB s' = maxSizeInMB s -> heap s' = heap s ->
  overCeiling s' ls = overCeiling s ls.
Proof.
  intros Hm Hh. unfold overCeiling, docsOf, deref. rewrite Hm, Hh. reflexivity.
Qed.

Lemma withinCeiling_not_over (s : VectorStorage) (ls : list Loc) :
  withinCeiling s ls = true -> overCeiling s ls = false.
Proof. apply FloatFacts.leb_not_ltb. Qed.

Lemma not_over_withinCeiling (s : VectorStorage) (ls : list Loc) :
  sizesAreNumbers s ls -> overCeiling s ls = false -> withinCeiling s ls = true.
Proof. intros [Hsize Hmax]. apply FloatFacts.not_ltb_leb; assumption. Qed.

Lemma saveToIndexDbStorage_run (s : VectorStorage) :
  saveToIndexDbStorage s = Returns tt (saved s).
Proof.
  unfold saveToIndexDbStorage, saved, bind, modify, get, emit, docsOf, deref. simpl.
  destruct (textsUnique _); reflexivity.
Qed.

Lemma saved_fields (s : VectorStorage) :
  documents (saved s) = documents s /\ heap (saved s) = heap s
  /\ maxSizeInMB (saved s) = maxSizeInMB s /\ trainingMode (saved s) = trainingMode s
  /\ db (saved s) = true /\ ticks (saved s) = ticks s.
Proof. unfold saved. destruct (textsUnique _); simpl; repeat split; reflexivity. Qed.

Lemma assignVector_run (newVectors : list (list float)) (doc : Loc) (index : nat)
    (s : VectorStorage) :
  (doc < length (heap s))%nat ->
  assignVector newVectors doc index s
  = match newVectors !! index with
    | Some v =>
        Returns tt
          (set_heap (alter (set_vectorMag (Some (l2norm v))) doc
                       (alter (set_vector (Some v)) doc (heap s))) s)
    | None =>
        Throws "TypeError: doc.vector is undefined"
          (set_heap (alter (set_vector None) doc (heap s)) s)
    end.
Proof.
  intros Hdoc. unfold assignVector, bind, update, modify, get, deref. simpl.
  rewrite list_lookup_total_alter_eq by assumption.
  unfold calcVectorMagnitude. simpl.
  destruct (newVectors !! index); reflexivity.
Qed.

Lemma forEach_assignVector (newVectors : list (list float)) (docs : list Loc) :
  forall (index : nat) (s : VectorStorage),
    Forall (fun l => (l < length (heap s))%nat) docs ->
    forEach_from (assignVector newVectors) index docs s
    = (let '(h, ok) := assignVectors newVectors index docs (heap s) in
       if ok then Returns tt (set_heap h s)
       else Throws "TypeError: doc.vector is undefined" (set_heap h s)).
Proof.
  induction docs as [|doc rest IH]; intros index s Hlt; simpl.
  - destruct s; reflexivity.
  - inversion Hlt as [|? ? Hdoc Hrest]; subst.
    unfold bind. rewrite assignVector_run by assumption.
    destruct (newVectors !! index) as [v|] eqn:Hv; [|reflexivity].
    rewrite IH by (simpl; rewrite !length_alter; assumption).
    simpl. destruct (assignVectors _ _ _ _) as [h ok]. destruct ok; reflexivity.
Qed.

Lemma assignVectors_length (newVectors : list (list float)) (docs : list Loc) :
  forall (index : nat) (h : list Doc),
    length (fst (assignVectors newVectors index docs h)) = length h.
Proof.
  induction docs as [|doc rest IH]; intros index h; simpl; [reflexivity|].
  destruct (newVectors !! index); simpl.
  - rewrite IH, !length_alter. reflexivity.
  - apply length_alter.
Qed.

Lemma assignVectors_ok (newVectors : list (list float)) (docs : list Loc) :
  forall (index : nat) (h : list Doc),
    (index + length docs <= length newVectors)%nat ->
    snd (assignVectors newVectors index docs h) = true.
Proof.
  induction docs as [|doc rest IH]; intros index h Hlen; simpl in *; [reflexivity|].
  destruct (lookup_lt_is_Some_2 newVectors index ltac:(lia)) as [v ->].
  apply IH. lia.
Qed.

(** Only the objects of [docs] change. *)
Lemma assignVectors_frame (newVectors : list (list float)) (docs : list Loc) (l : Loc) :
  forall (index : nat) (h : list Doc),
    l ∉ docs ->
    fst (assignVectors newVectors index docs h) !! l = h !! l.
Proof.
  induction docs as [|doc rest IH]; intros index h Hl; simpl; [reflexivity|].
  apply not_elem_of_cons in Hl. destruct Hl as [Hne Hl].
  destruct (newVectors !! index); simpl.
  - rewrite IH by assumption. rewrite !list_lookup_alter_ne by congruence. reflexivity.
  - rewrite list_lookup_alter_ne by congruence. reflexivity.
Qed.

(** [updateHitCounters] and the [delete] loop: one [alter] per reference. *)
Lemma forEach_from_update (f : Doc -> Doc) (ls : list Loc) :
  forall (i : nat) (s : VectorStorage),
    forEach_from (fun l _ => update l f) i ls s
    = Returns tt (set_heap (foldl (fun h l => alter f l h) (heap s) ls) s).
Proof.
  induction ls as [|l ls IH]; intros i s; simpl.
  - destruct s; reflexivity.
  - unfold bind. unfold update at 1. unfold modify. rewrite IH. reflexivity.
Qed.

Lemma forEach_from_deleteValues (ls : list Loc) :
  forall (i : nat) (s : VectorStorage),
    forEach_from (fun l _ => deleteValues l) i ls s
    = Returns tt (set_heap (foldl (fun h l => alter stripValues l h) (heap s) ls) s).
Proof.
  induction ls as [|l ls IH]; intros i s; simpl.
  - destruct s; reflexivity.
  - unfold bind at 1. unfold deleteValues, bind, update, modify. rewrite IH. simpl.
    rewrite list_alter_alter_eq. reflexivity.
Qed.

(** Altering, one after the other, the objects allocated last. *)
Lemma foldl_alter_seq (f : Doc -> Doc) (todo : list Doc) :
  forall pre : list Doc,
    foldl (fun h l => alter f l h) (pre ++ todo) (seq (length pre) (length todo))
    = pre ++ (f <$> todo).
Proof.
  induction todo as [|c todo IH]; intros pre; simpl; [reflexivity|].
  replace (alter f (length pre) (pre ++ c :: todo)) with ((pre ++ [f c]) ++ todo).
  - replace (S (length pre)) with (length (pre ++ [f c])) by (rewrite length_app; simpl; lia).
    rewrite IH, <- app_assoc. reflexivity.
  - rewrite <- app_assoc. simpl.
    rewrite alter_app_r_alt, Nat.sub_diag by lia. reflexivity.
Qed.

Lemma calculateSimilarityScores_run (ls : list Loc) (qv : list float) (qm : float)
    (s : VectorStorage) :
  calculateSimilarityScores ls qv qm s
  = match scoresOf s qv qm ls with
    | Some ps => Returns ps s
    | None => Throws "TypeError: doc.vector is undefined" s
    end.
Proof.
  unfold calculateSimilarityScores. induction ls as [|l ls IH]; simpl; [reflexivity|].
  unfold bind at 1. unfold scorePair at 1. unfold bind at 1. unfold get at 1.
  destruct (similarityScore (deref s l) qv qm) as [sc|]; [|reflexivity].
  unfold ret at 1. unfold bind at 1. rewrite IH.
  destruct (scoresOf s qv qm ls); reflexivity.
Qed.

Lemma scoresOf_spec (s : VectorStorage) (qv : list float) (qm : float) (ls : list Loc) :
  forall ps,
    scoresOf s qv qm ls = Some ps ->
    fst <$> ps = ls
    /\ Forall (fun p => similarityScore (deref s (fst p)) qv qm = Some (snd p)) ps.
Proof.
  induction ls as [|l ls IH]; intros ps Hps; simpl in Hps.
  - inversion Hps. split; [reflexivity | constructor].
  - destruct (similarityScore (deref s l) qv qm) as [sc|] eqn:Hsc; [|discriminate].
    destruct (scoresOf s qv qm ls) as [ps'|]; [|discriminate].
    inversion Hps; subst. destruct (IH ps' eq_refl) as [Hfst Hall].
    split; [rewrite fmap_cons, Hfst; reflexivity | constructor; assumption].
Qed.

Lemma scoresOf_total (s : VectorStorage) (qv : list float) (qm : float) (ls : list Loc) :
  Forall (fun l => is_Some (vector (deref s l))) ls ->
  is_Some (scoresOf s qv qm ls).
Proof.
  induction 1 as [|l ls [v Hv] _ [ps IH]]; simpl; [eauto|].
  unfold similarityScore. rewrite Hv, IH. eauto.
Qed.

Lemma scoresOf_ext (s s' : VectorStorage) (qv : list float) (qm : float) (ls : list Loc) :
  heap s' = heap s -> scoresOf s' qv qm ls = scoresOf s qv qm ls.
Proof.
  intros Hh. induction ls as [|l ls IH]; simpl; [reflexivity|].
  unfold deref. rewrite Hh, IH. reflexivity.
Qed.

(** The copies made for the results are new objects at the end of the
    object store. *)
Lemma mapM_copyWithScore (pairs : list (Loc * float)) :
  forall s : VectorStorage,
    Forall (fun p => (fst p < length (heap s))%nat) pairs ->
    mapM copyWithScore pairs s
    = Returns (seq (length (heap s)) (length pairs))
        (set_heap
           (heap s ++ ((fun p => set_score (Some (snd p)) (deref s (fst p))) <$> pairs)) s).
Proof.
  induction pairs as [|p pairs IH]; intros s Hlt; simpl.
  - rewrite app_nil_r. destruct s; reflexivity.
  - inversion Hlt as [|? ? Hp Hps]; subst.
    unfold bind at 1. unfold copyWithScore at 1. unfold bind at 1, get, alloc.
    set (c := set_score (Some (snd p)) (deref s (fst p))).
    set (s1 := set_heap (heap s ++ [c]) s).
    assert (Heq : (fun q : Loc * float => set_score (Some (snd q)) (deref s1 (fst q))) <$> pairs
                  = (fun q : Loc * float => set_score (Some (snd q)) (deref s (fst q))) <$> pairs).
    { apply Forall_fmap_ext_1. eapply Forall_impl; [exact Hps|]. intros q Hq. simpl.
      unfold deref, s1. simpl. rewrite lookup_total_app_l by assumption. reflexivity. }
    unfold bind at 1. rewrite IH.
    + rewrite Heq. unfold s1. simpl.
      rewrite length_app, Nat.add_1_r, <- app_assoc. reflexivity.
    + unfold s1. simpl. rewrite length_app.
      eapply Forall_impl; [exact Hps|]. simpl. intros; lia.
Qed.

(** Eviction followed by a save: the object store, the ceiling and the
    training flag stay; [documents] loses entries at most. *)
Lemma removeDocsLRU_shape (s : VectorStorage) :
  match removeDocsLRU s with
  | Returns _ s2 =>
      heap s2 = heap s /\ maxSizeInMB s2 = maxSizeInMB s
      /\ trainingMode s2 = trainingMode s /\ idb s2 = idb s
      /\ (forall l, l ∈ documents s2 -> l ∈ documents s)
      /\ (trainingMode s = true -> documents s2 = documents s)
  | Throws _ _ => False
  | Diverges => True
  end.
Proof.
  unfold removeDocsLRU. destruct (trainingMode s) eqn:Ht.
  { repeat split; auto. }
  destruct (overCeiling s (documents s)).
  2: { repeat split; auto; discriminate. }
  set (sorted := JS.sort _ (documents s)).
  assert (Hsub : forall ls ls', shiftWhileOver s ls = Some ls' -> forall l, l ∈ ls' -> l ∈ ls).
  { induction ls as [|x ls IH]; simpl; intros ls' Hls l Hl.
    - destruct (overCeiling s []); inversion Hls; subst. assumption.
    - destruct (overCeiling s (x :: ls)).
      + right. eapply IH; eassumption.
      + inversion Hls; subst. assumption. }
  destruct (shiftWhileOver s sorted) as [ls'|] eqn:Hs; [|exact I].
  simpl. repeat split; auto; try discriminate.
  intros l Hl. eapply sort_elem_of. eapply Hsub; eassumption.
Qed.

Lemma evictAndSave_shape (s : VectorStorage) :
  match (removeDocsLRU ;;; saveToIndexDbStorage) s with
  | Returns _ s2 =>
      heap s2 = heap s /\ maxSizeInMB s2 = maxSizeInMB s
      /\ trainingMode s2 = trainingMode s
      /\ (forall l, l ∈ documents s2 -> l ∈ documents s)
      /\ (trainingMode s = true -> documents s2 = documents s)
      /\ (idb s2 = idb s \/ idb s2 = docsOf s2 (documents s2))
  | Throws _ _ => False
  | Diverges => True
  end.
Proof.
  unfold bind. pose proof (removeDocsLRU_shape s) as Hshape.
  destruct (removeDocsLRU s) as [[] s1|e s1|]; [|contradiction|exact I].
  destruct Hshape as (Hh & Hm & Ht & Hi & Hsub & Hsame).
  rewrite saveToIndexDbStorage_run.
  destruct (saved_fields s1) as (Hd' & Hh' & Hm' & Ht' & _).
  rewrite Hd', Hh', Hm', Ht'. repeat split; auto.
  unfold saved, docsOf, deref. destruct (textsUnique _); simpl; [right | left]; auto.
Qed.

Lemma similaritySearch_run (params : IVSSimilaritySearchParams) (s : VectorStorage)
    (qe : list float) (rest : list (list float)) (pairs : list (Loc * float)) :
  embedTextsFn [query params] = Some (qe :: rest) ->
  scoresOf s qe (l2norm qe) (filterDocuments s (documents s) (filterOptions params))
  = Some pairs ->
  wf s ->
  similaritySearch params s
  = (let top := JS.slice0 (default 4 (k params)) (JS.sort scoreCompare pairs) in
     let results := seq (length (heap s)) (length top) in
     let s1 :=
       set_heap
         (heap s ++ (hit <$> ((fun p => set_score (Some (snd p)) (deref s (fst p))) <$> top)))
         (set_trace (EvEmbed [query params] :: trace s) s) in
     match (if (0 <? length results)%nat then removeDocsLRU ;;; saveToIndexDbStorage
            else ret tt) s1 with
     | Returns _ s2 =>
         Returns {| similarItems := results;
                    queryText := query params;
                    queryEmbedding := qe |}
           (set_heap (heap s ++ (searchCopy s (includeValues params) <$> top)) s2)
     | Throws e s2 => Throws e s2
     | Diverges => Diverges
     end).
Proof.
  intros Hembed Hscores Hwf.
  unfold similaritySearch, embedText, callEmbedTextsFn.
  cbn [bind emit modify get ret]. rewrite Hembed.
  cbn [bind emit modify get ret lookup list_lookup calculateMagnitude default from_option id].
  set (s0 := set_trace (EvEmbed [query params] :: trace s) s).
  change (filterDocuments s0 (documents s0) (filterOptions params))
    with (filterDocuments s (documents s) (filterOptions params)).
  unfold bind at 1. rewrite calculateSimilarityScores_run.
  rewrite (scoresOf_ext s s0) by reflexivity. rewrite Hscores.
  set (top := JS.slice0 (default 4 (k params)) (JS.sort scoreCompare pairs)).
  assert (Htop : Forall (fun p : Loc * float => (fst p < length (heap s0))%nat) top).
  { destruct (scoresOf_spec _ _ _ _ _ Hscores) as [Hfst _].
    assert (Hall : Forall (fun p : Loc * float => (fst p < length (heap s))%nat) pairs).
    { unfold wf in Hwf. rewrite Forall_forall in Hwf. rewrite Forall_forall.
      intros p Hp. apply Hwf.
      assert (Hl : fst p ∈ filterDocuments s (documents s) (filterOptions params)).
      { rewrite <- Hfst. apply list_elem_of_fmap. exists p. auto. }
      unfold filterDocuments in Hl. destruct (filterOptions params); [|exact Hl].
      apply list_elem_of_In in Hl. apply filter_In in Hl. apply list_elem_of_In. tauto. }
    unfold top, JS.slice0.
    assert (Hsorted : Forall (fun p : Loc * float => (fst p < length (heap s))%nat)
                        (JS.sort scoreCompare pairs)).
    { rewrite Forall_forall in Hall. rewrite Forall_forall. intros p Hp. apply Hall.
      eapply sort_elem_of. exact Hp. }
    destruct (default 4 (k params) <? 0); apply Forall_take; exact Hsorted. }
  unfold bind at 1. rewrite (mapM_copyWithScore top s0 Htop).
  unfold bind at 1. unfold updateHitCounters, forEach. rewrite forEach_from_update.
  cbn [heap set_heap].
  set (copies := (fun p : Loc * float => set_score (Some (snd p)) (deref s0 (fst p))) <$> top).
  assert (Hlen : length copies = length top) by apply length_fmap.
  rewrite <- Hlen. rewrite foldl_alter_seq. rewrite Hlen.
  assert (Hlenhit : length (hit <$> copies) = length top) by (rewrite length_fmap; exact Hlen).
  match goal with
  | |- _ ?st = _ => change st with (set_heap (heap s ++ (hit <$> copies)) s0)
  end.
  cbv zeta. fold s0. fold top.
  change ((fun p : Loc * float => set_score (Some (snd p)) (deref s (fst p))) <$> top)
    with copies.
  set (s1 := set_heap (heap s ++ (hit <$> copies)) s0).
  change (heap s0) with (heap s).
  set (results := seq (length (heap s)) (length top)).
  unfold bind at 1.
  assert (Htail : match (if (0 <? length results)%nat
                         then removeDocsLRU ;;; saveToIndexDbStorage else ret tt) s1 with
                  | Returns _ s2 => heap s2 = heap s1
                  | Throws _ _ => False
                  | Diverges => True
                  end).
  { destruct (0 <? length results)%nat; [|reflexivity].
    pose proof (evictAndSave_shape s1) as Hshape.
    destruct ((removeDocsLRU ;;; saveToIndexDbStorage) s1); tauto. }
  destruct ((if (0 <? length results)%nat
             then removeDocsLRU ;;; saveToIndexDbStorage else ret tt) s1)
    as [[] s2|e s2|]; [|contradiction|reflexivity].
  unfold bind at 1. unfold searchCopy.
  destruct (includeValues params); cbn [negb].
  - unfold ret. f_equal. destruct s2; simpl in *. subst. f_equal.
    unfold copies. rewrite <- list_fmap_compose. reflexivity.
  - unfold forEach. rewrite forEach_from_deleteValues. unfold ret. f_equal. f_equal.
    rewrite Htail. unfold s1. cbn [heap set_heap]. unfold results.
    rewrite <- Hlenhit. rewrite foldl_alter_seq. f_equal.
    unfold copies. rewrite <- !list_fmap_compose. reflexivity.
Qed.

(** *** C9: [addTexts] with arrays of different lengths *)

(** C9.  When [texts] and [metadatas] differ in length, [addTexts] throws
    the length-mismatch error and leaves the whole state as it was: no
    object is created, no document is inserted, nothing is persisted. *)
Theorem addTexts_length_mismatch
    (texts : list string) (metadatas : list T) (s : VectorStorage) :
  length texts <> length metadatas ->
  addTexts texts metadatas s
  = Throws "The lengths of texts and metadata arrays must match." s.
Proof.
  intros Hlen. unfold addTexts.
  apply Nat.eqb_neq in Hlen. rewrite Hlen. reflexivity.
Qed.

(** *** C4: a batch in which every candidate is dropped *)

Lemma addDocuments_nothing_new (docs : list Loc) (s : VectorStorage) :
  db s = true ->
  Forall (dropped s) docs ->
  addDocuments docs s = Returns [] (set_trace (EvGetAll :: trace s) s).
Proof.
  intros Hdb Hall. unfold addDocuments, bind, get, emit, modify, ret.
  rewrite Hdb. simpl.
  replace (List.filter _ docs) with (@nil Loc); [reflexivity|].
  symmetry. apply (filter_all_dropped (set_trace (EvGetAll :: trace s) s)).
  exact Hall.
Qed.

(** C4.  On a well-formed store whose database handle is open, a batch in
    which every candidate is dropped makes [addDocuments] return the empty
    array after its one read of the backend: the trace gains [EvGetAll] only
    (no call of the provider, no save), and nothing else in the state
    changes.  In particular [addText] of a text already in memory or in the
    backend returns no document, calls the provider zero times and does not
    save. *)
Theorem addDocuments_all_dropped (s : VectorStorage) :
  db s = true ->
  wf s ->
  (forall docs : list Loc,
     Forall (dropped s) docs ->
     exists s',
       addDocuments docs s = Returns [] s'
       /\ trace s' = EvGetAll :: trace s
       /\ documents s' = documents s /\ heap s' = heap s /\ idb s' = idb s)
  /\ (forall (text0 : string) (metadata0 : T),
        ((exists d, d ∈ documents s /\ text (deref s d) = text0)
         \/ (exists r, r ∈ idb s /\ text r = text0)) ->
        exists s',
          addText text0 metadata0 s = Returns None s'
          /\ trace s' = EvGetAll :: trace s
          /\ documents s' = documents s /\ idb s' = idb s).
Proof.
  intros Hdb Hwf. split.
  - intros docs Hall. eexists. split; [apply addDocuments_nothing_new; assumption|].
    simpl. auto.
  - intros text0 metadata0 Hpresent.
    unfold addText, newDocument, bind, now, alloc.
    rewrite addDocuments_nothing_new.
    + simpl. eexists. split; [reflexivity|]. simpl. auto.
    + exact Hdb.
    + constructor; [|constructor].
      unfold dropped, deref. simpl.
      rewrite lookup_total_app_r, Nat.sub_diag by reflexivity. simpl.
      right. destruct Hpresent as [(d & Hin & Heq) | Hidb]; [left | right; exact Hidb].
      exists d. split; [assumption|].
      rewrite lookup_total_app_l; [exact Heq|].
      unfold wf in Hwf. rewrite Forall_forall in Hwf. apply Hwf. assumption.
Qed.

(** *** C7: the eviction pass *)

Lemma lruCompare_not_Gt (a b : Doc) : lruCompare a b <> Gt <-> lruLe a b.
Proof.
  unfold lruCompare, lruLe.
  destruct (Z.eqb_spec (default 0 (hits a) - default 0 (hits b)) 0) as [E|E];
    match goal with |- (?v ?= 0) <> Gt <-> _ => destruct (Z.compare_spec v 0) end;
    split; intros; try congruence; try lia.
Qed.

Lemma lruCompare_Gt (a b : Doc) : lruCompare a b = Gt -> lruLe b a.
Proof.
  unfold lruCompare, lruLe.
  destruct (Z.eqb_spec (default 0 (hits a) - default 0 (hits b)) 0) as [E|E];
    match goal with |- (?v ?= 0) = Gt -> _ => destruct (Z.compare_spec v 0) end;
    intros; try congruence; lia.
Qed.

Lemma lruLe_trans (a b c : Doc) : lruLe a b -> lruLe b c -> lruLe a c.
Proof. unfold lruLe. lia. Qed.

Lemma lru_sort_sorted (s : VectorStorage) (ls : list Loc) :
  StronglySorted (fun a b => lruLe (deref s a) (deref s b))
    (JS.sort (fun a b => lruCompare (deref s a) (deref s b)) ls).
Proof.
  apply Sorted.Sorted_StronglySorted.
  - intros a b c. apply lruLe_trans.
  - apply sort_sorted.
    + intros x y _ _. apply lruCompare_not_Gt.
    + intros x y _ _. apply lruCompare_Gt.
Qed.

Lemma lru_sort_stable (s : VectorStorage) (h t : Z) (ls : list Loc) :
  List.filter (hasLruKey s h t) (JS.sort (fun a b => lruCompare (deref s a) (deref s b)) ls)
  = List.filter (hasLruKey s h t) ls.
Proof.
  apply sort_stable. intros x y _ _ Hx Hy.
  apply lruCompare_not_Gt. unfold hasLruKey in Hx, Hy. unfold lruLe. lia.
Qed.

Lemma shiftWhileOver_spec (s : VectorStorage) (ls : list Loc) :
  overCeiling s [] = false ->
  exists n : nat,
    (n <= length ls)%nat
    /\ shiftWhileOver s ls = Some (drop n ls)
    /\ overCeiling s (drop n ls) = false
    /\ (forall m : nat, (m < n)%nat -> overCeiling s (drop m ls) = true).
Proof.
  intros Hempty. induction ls as [|l ls IH]; simpl.
  - exists 0%nat. rewrite Hempty. repeat split; auto. intros; lia.
  - destruct (overCeiling s (l :: ls)) eqn:Hover.
    + destruct IH as (n & Hn & Hs & Hok & Hmin).
      exists (S n). simpl. repeat split; auto; [lia|].
      intros [|m] Hm; simpl; [assumption | apply Hmin; lia].
    + exists 0%nat. simpl. repeat split; auto; [lia | intros; lia].
Qed.

Lemma shiftWhileOver_none (s : VectorStorage) (ls : list Loc) :
  (forall m : nat, (m <= length ls)%nat -> overCeiling s (drop m ls) = true) ->
  shiftWhileOver s ls = None.
Proof.
  induction ls as [|l ls IH]; intros Hall;
    pose proof (Hall 0%nat ltac:(lia)) as H0; simpl in H0; simpl; rewrite H0.
  - reflexivity.
  - apply IH. intros m Hm. apply (Hall (S m)). simpl. lia.
Qed.

Lemma removeDocsLRU_under (s : VectorStorage) :
  overCeiling s (documents s) = false -> removeDocsLRU s = Returns tt s.
Proof.
  intros Hover. unfold removeDocsLRU. rewrite Hover. destruct (trainingMode s); reflexivity.
Qed.

Lemma removeDocsLRU_training (s : VectorStorage) :
  trainingMode s = true -> removeDocsLRU s = Returns tt s.
Proof. intros Ht. unfold removeDocsLRU. rewrite Ht. reflexivity. Qed.

Lemma removeDocsLRU_over (s : VectorStorage) :
  trainingMode s = false ->
  overCeiling s (documents s) = true ->
  overCeiling s [] = false ->
  exists n : nat,
    (n <= length (documents s))%nat
    /\ removeDocsLRU s
       = Returns tt
           (set_documents
              (drop n (JS.sort (fun a b => lruCompare (deref s a) (deref s b)) (documents s)))
              s)
    /\ overCeiling s
         (drop n (JS.sort (fun a b => lruCompare (deref s a) (deref s b)) (documents s)))
       = false
    /\ (forall m : nat, (m < n)%nat ->
        overCeiling s
          (drop m (JS.sort (fun a b => lruCompare (deref s a) (deref s b)) (documents s)))
        = true).
Proof.
  intros Ht Hover Hempty.
  set (sorted := JS.sort (fun a b => lruCompare (deref s a) (deref s b)) (documents s)).
  destruct (shiftWhileOver_spec s sorted Hempty) as (n & Hn & Hs & Hok & Hmin).
  exists n. unfold removeDocsLRU. rewrite Ht, Hover. fold sorted. rewrite Hs.
  repeat split; auto.
  unfold sorted in Hn. rewrite sort_length in Hn. exact Hn.
Qed.

(** C7 (as amended).  The eviction pass changes nothing when the size of
    the set is at or under the ceiling, and nothing when training mode is on.
    With training mode off and the set over the ceiling (and an empty set
    not over it), it returns with [documents] equal to the array sorted by
    [(hits, timestamp)] ascending, stably, less its first [n] entries, where
    [n] is the least number of entries to drop for the rest not to be over
    the ceiling: what is left is at or under the ceiling, and dropping fewer
    entries would leave it over. *)
Theorem removeDocsLRU_spec (s : VectorStorage) :
  (withinCeiling s (documents s) = true -> removeDocsLRU s = Returns tt s)
  /\ (trainingMode s = true -> removeDocsLRU s = Returns tt s)
  /\ (trainingMode s = false ->
      overCeiling s (documents s) = true ->
      overCeiling s [] = false ->
      let sorted := JS.sort (fun a b => lruCompare (deref s a) (deref s b)) (documents s) in
      exists n : nat,
        (n <= length (documents s))%nat
        /\ removeDocsLRU s = Returns tt (set_documents (drop n sorted) s)
        /\ sorted ≡ₚ documents s
        /\ StronglySorted (fun a b => lruLe (deref s a) (deref s b)) sorted
        /\ (forall h t, List.filter (hasLruKey s h t) sorted
                        = List.filter (hasLruKey s h t) (documents s))
        /\ overCeiling s (drop n sorted) = false
        /\ (sizesAreNumbers s (drop n sorted) -> withinCeiling s (drop n sorted) = true)
        /\ (forall m : nat, (m < n)%nat -> overCeiling s (drop m sorted) = true)).
Proof.
  split; [intros Hw; apply removeDocsLRU_under, withinCeiling_not_over, Hw|].
  split; [apply removeDocsLRU_training|].
  intros Ht Hover Hempty sorted.
  destruct (removeDocsLRU_over s Ht Hover Hempty) as (n & Hn & Hrun & Hok & Hmin).
  exists n. repeat split; auto.
  - apply sort_perm.
  - apply lru_sort_sorted.
  - intros h t. apply lru_sort_stable.
  - intros Hnum. apply not_over_withinCeiling; assumption.
Qed.

(** With training mode off, the pass does not end when even the empty set
    is over the ceiling. *)
Lemma removeDocsLRU_diverges (s : VectorStorage) :
  trainingMode s = false ->
  (forall ls, overCeiling s ls = true) ->
  removeDocsLRU s = Diverges.
Proof.
  intros Ht Hall. unfold removeDocsLRU. rewrite Ht, Hall.
  rewrite shiftWhileOver_none; [reflexivity | auto].
Qed.

Lemma set_documents_same (s : VectorStorage) : set_documents (documents s) s = s.
Proof. destruct s; reflexivity. Qed.

Lemma filter_lt (s : VectorStorage) (P : Loc -> bool) (docs : list Loc) :
  Forall (fun l => (l < length (heap s))%nat) docs ->
  Forall (fun l => (l < length (heap s))%nat) (List.filter P docs).
Proof.
  induction 1 as [|x l Hx Hl IH]; simpl; [constructor|].
  destruct (P x); [constructor|]; assumption.
Qed.

(** [addDocuments], case by case. *)
Lemma addDocuments_cases (docs : list Loc) (s : VectorStorage) :
  Forall (fun l => (l < length (heap s))%nat) docs ->
  addDocuments docs s
  = (let new := List.filter (isNewDocument s (text <$> idb s)) docs in
     let texts := (fun l => text (deref s l)) <$> new in
     if negb (db s) then Throws "TypeError: this.db is undefined" s
     else if (length new =? 0)%nat then Returns [] (set_trace (EvGetAll :: trace s) s)
     else
       match embedTextsFn texts with
       | None =>
           Throws "embedTextsFn rejected"
             (set_trace (EvEmbed texts :: EvGetAll :: trace s) s)
       | Some vs =>
           let '(h, ok) := assignVectors vs 0 new (heap s) in
           let s1 := set_heap h (set_trace (EvEmbed texts :: EvGetAll :: trace s) s) in
           if ok then
             (removeDocsLRU ;;; saveToIndexDbStorage ;;; ret new)
               (set_documents (documents s ++ new) s1)
           else Throws "TypeError: doc.vector is undefined" s1
       end).
Proof.
  intros Hlt.
  unfold addDocuments. unfold bind at 1. unfold get. cbv zeta.
  destruct (db s); [|reflexivity].
  change (negb true) with false. cbv iota beta.
  unfold bind at 1. unfold emit, modify. cbv zeta.
  change (isNewDocument (set_trace (EvGetAll :: trace s) s)) with (isNewDocument s) in *.
  set (new := List.filter (isNewDocument s (text <$> idb s)) docs) in *.
  destruct (length new =? 0)%nat; [reflexivity|].
  unfold bind at 1. unfold callEmbedTextsFn. unfold bind at 1. unfold emit, modify.
  destruct (embedTextsFn _) as [vs|]; [|reflexivity].
  unfold ret at 1.
  unfold bind at 1. unfold forEach. rewrite forEach_assignVector.
  - simpl heap. destruct (assignVectors vs 0 new (heap s)) as [h ok]. destruct ok; reflexivity.
  - simpl heap. apply filter_lt. exact Hlt.
Qed.

(** [addDocuments] when some candidate survives and the provider answers. *)
Lemma addDocuments_run (docs : list Loc) (s : VectorStorage) (vs : list (list float)) :
  db s = true ->
  List.filter (isNewDocument s (text <$> idb s)) docs <> [] ->
  embedTextsFn ((fun l => text (deref s l))
                  <$> List.filter (isNewDocument s (text <$> idb s)) docs) = Some vs ->
  Forall (fun l => (l < length (heap s))%nat) docs ->
  addDocuments docs s
  = (let new := List.filter (isNewDocument s (text <$> idb s)) docs in
     let '(h, ok) := assignVectors vs 0 new (heap s) in
     let s1 := set_heap h
                 (set_trace (EvEmbed ((fun l => text (deref s l)) <$> new)
                               :: EvGetAll :: trace s) s) in
     if ok then
       (removeDocsLRU ;;; saveToIndexDbStorage ;;; ret new)
         (set_documents (documents s ++ new) s1)
     else Throws "TypeError: doc.vector is undefined" s1).
Proof.
  intros Hdb Hnew Hvs Hlt. rewrite addDocuments_cases by exact Hlt. cbv zeta.
  rewrite Hdb, Hvs. simpl negb. cbv iota.
  destruct (List.filter _ docs); [congruence | reflexivity].
Qed.

Lemma removeDocsLRU_returns (s : VectorStorage) :
  trainingMode s = false ->
  overCeiling s [] = false ->
  exists ls,
    removeDocsLRU s = Returns tt (set_documents ls s)
    /\ overCeiling s ls = false
    /\ (ls = documents s
        \/ exists n : nat,
             ls = drop n (JS.sort (fun a b => lruCompare (deref s a) (deref s b))
                            (documents s))).
Proof.
  intros Ht Hempty.
  destruct (overCeiling s (documents s)) eqn:Hover.
  - destruct (removeDocsLRU_over s Ht Hover Hempty) as (n & _ & Hrun & Hok & _).
    eexists. split; [exact Hrun|]. split; [exact Hok|]. right. exists n. reflexivity.
  - exists (documents s). rewrite set_documents_same.
    split; [|split; [assumption | left; reflexivity]].
    apply removeDocsLRU_under. assumption.
Qed.

Lemma filter_nonempty (s : VectorStorage) (docs : list Loc) :
  Exists (fun doc => ~ dropped s doc) docs ->
  List.filter (isNewDocument s (text <$> idb s)) docs <> [].
Proof.
  induction 1 as [doc docs Hd | doc docs _ IH]; simpl.
  - destruct (isNewDocument s (text <$> idb s) doc) eqn:E; [discriminate|].
    apply isNewDocument_false_iff in E. contradiction.
  - destruct (isNewDocument s (text <$> idb s) doc); [discriminate | assumption].
Qed.

(** *** C2: the size after an insertion *)

(** C2 (as amended).  On a store whose training mode has been ended and
    whose database handle is open, with a provider that answers with one
    vector per text and a ceiling that an empty set does not exceed:
    an [addDocuments] call in which at least one candidate survives returns
    the inserted documents, and afterwards the set is not over the ceiling
    (its size is at or under it); what remains is the whole set, or the set
    sorted by [(hits, timestamp)] less its first entries. *)
Theorem addDocuments_within_ceiling (docs : list Loc) (s : VectorStorage) :
  trainingMode s = false ->
  db s = true ->
  Forall (fun l => (l < length (heap s))%nat) docs ->
  overCeiling s [] = false ->
  (forall texts, exists vs, embedTextsFn texts = Some vs /\ length vs = length texts) ->
  Exists (fun doc => ~ dropped s doc) docs ->
  exists (inserted : list Loc) (s' : VectorStorage),
    addDocuments docs s = Returns inserted s'
    /\ inserted <> []
    /\ overCeiling s' (documents s') = false
    /\ (sizesAreNumbers s' (documents s') -> withinCeiling s' (documents s') = true)
    /\ (documents s' = documents s ++ inserted
        \/ exists n : nat,
             documents s'
             = drop n (JS.sort (fun a b => lruCompare (deref s' a) (deref s' b))
                         (documents s ++ inserted))).
Proof.
  intros Ht Hdb Hlt Hempty Hprovider Hsurvivor.
  pose proof (filter_nonempty s docs Hsurvivor) as Hnew.
  set (new := List.filter (isNewDocument s (text <$> idb s)) docs) in *.
  destruct (Hprovider ((fun l => text (deref s l)) <$> new)) as (vs & Hvs & Hlen).
  rewrite length_fmap in Hlen.
  rewrite (addDocuments_run docs s vs Hdb Hnew Hvs Hlt). fold new. cbv zeta.
  pose proof (assignVectors_ok vs new 0 (heap s) ltac:(lia)) as Hok.
  destruct (assignVectors vs 0 new (heap s)) as [h ok]. simpl in Hok. subst ok.
  match goal with
  | |- context [(_ ;;; _) ?s2] => set (s2' := s2)
  end.
  destruct (removeDocsLRU_returns s2') as (ls & Hrun & Hfit & Hshape); [exact Ht | exact Hempty|].
  unfold bind at 1. rewrite Hrun.
  unfold bind at 1. rewrite saveToIndexDbStorage_run. unfold ret.
  exists new, (saved (set_documents ls s2')).
  destruct (saved_fields (set_documents ls s2')) as (Hd & Hh & Hm & _).
  assert (Hderef : forall x, deref (saved (set_documents ls s2')) x = deref s2' x).
  { intros x. unfold deref. rewrite Hh. reflexivity. }
  split; [reflexivity|]. split; [exact Hnew|].
  assert (Hfit' : overCeiling (saved (set_documents ls s2')) ls = false).
  { rewrite (overCeiling_ext s2' _ ls);
      [exact Hfit | rewrite Hm; reflexivity | rewrite Hh; reflexivity]. }
  rewrite Hd. simpl documents. split; [exact Hfit'|]. split.
  - intros Hnum. apply not_over_withinCeiling; assumption.
  - destruct Hshape as [-> | (n & ->)]; [left; reflexivity|].
    right. exists n. f_equal. apply sort_ext.
    intros x y. rewrite !Hderef. reflexivity.
Qed.

(** *** C3: training mode *)

Lemma trainingSafe_ret {A : Type} (a : A) : trainingSafe (ret a).
Proof. intros s Ht. simpl. split; [assumption | reflexivity]. Qed.

Lemma trainingSafe_throw {A : Type} (e : string) : trainingSafe (@throw _ A e).
Proof. intros s Ht. simpl. split; [assumption | reflexivity]. Qed.

Lemma trainingSafe_get : trainingSafe get.
Proof. intros s Ht. simpl. split; [assumption | reflexivity]. Qed.

Lemma trainingSafe_bind {A B : Type} (m : M A) (f : A -> M B) :
  trainingSafe m -> (forall a, trainingSafe (f a)) -> trainingSafe (bind m f).
Proof.
  intros Hm Hf s Ht. unfold bind. specialize (Hm s Ht).
  destruct (m s) as [a s1|e s1|]; [|assumption|assumption].
  destruct Hm as [Ht1 Hp1]. specialize (Hf a s1 Ht1).
  destruct (f a s1) as [b s2|e s2|]; [| |assumption];
    (destruct Hf as [Ht2 Hp2]; split; [assumption | etrans; eassumption]).
Qed.

Lemma trainingSafe_modify (f : VectorStorage -> VectorStorage) :
  (forall s, trainingMode s = true ->
             trainingMode (f s) = true /\ documents s `prefix_of` documents (f s)) ->
  trainingSafe (modify f).
Proof. intros Hf s Ht. simpl. apply Hf. assumption. Qed.

Lemma trainingSafe_emit (e : event) : trainingSafe (emit e).
Proof. apply trainingSafe_modify. intros s Ht. simpl. split; [assumption | reflexivity]. Qed.

Lemma trainingSafe_update (l : Loc) (f : Doc -> Doc) : trainingSafe (update l f).
Proof. apply trainingSafe_modify. intros s Ht. simpl. split; [assumption | reflexivity]. Qed.

Lemma trainingSafe_alloc (d : Doc) : trainingSafe (alloc d).
Proof. intros s Ht. simpl. split; [assumption | reflexivity]. Qed.

Lemma trainingSafe_now : trainingSafe now.
Proof. intros s Ht. simpl. split; [assumption | reflexivity]. Qed.

Lemma trainingSafe_forEach_from {A : Type} (f : A -> nat -> M unit) (l : list A) :
  (forall x i, trainingSafe (f x i)) -> forall i, trainingSafe (forEach_from f i l).
Proof.
  intros Hf. induction l as [|x l IH]; intros i; simpl.
  - apply trainingSafe_ret.
  - apply trainingSafe_bind; [apply Hf | intros _; apply IH].
Qed.

Lemma trainingSafe_mapM {A B : Type} (f : A -> M B) (l : list A) :
  (forall x, trainingSafe (f x)) -> trainingSafe (mapM f l).
Proof.
  intros Hf. induction l as [|x l IH]; simpl.
  - apply trainingSafe_ret.
  - apply trainingSafe_bind; [apply Hf | intros y].
    apply trainingSafe_bind; [apply IH | intros ys; apply trainingSafe_ret].
Qed.

Lemma trainingSafe_removeDocsLRU : trainingSafe removeDocsLRU.
Proof.
  intros s Ht. rewrite removeDocsLRU_training by assumption.
  split; [assumption | reflexivity].
Qed.

Lemma trainingSafe_saveToIndexDbStorage : trainingSafe saveToIndexDbStorage.
Proof.
  intros s Ht. rewrite saveToIndexDbStorage_run.
  destruct (saved_fields s) as (Hd & _ & _ & Htm & _).
  rewrite Htm, Hd. split; [assumption | reflexivity].
Qed.

Create HintDb training.
#[local] Hint Resolve trainingSafe_ret trainingSafe_throw trainingSafe_get trainingSafe_emit
  trainingSafe_update trainingSafe_alloc trainingSafe_now trainingSafe_removeDocsLRU
  trainingSafe_saveToIndexDbStorage : training.

(** Walk through a method: split every [bind], branch and loop. *)
Ltac training_steps :=
  repeat first
    [ progress auto with training
    | apply trainingSafe_bind; [|intros ?]
    | apply trainingSafe_forEach_from; intros ? ?
    | apply trainingSafe_mapM; intros ?
    | match goal with
      | |- trainingSafe (if ?c then _ else _) => destruct c
      | |- trainingSafe (match ?x with _ => _ end) => destruct x
      | |- trainingSafe (let _ := _ in _) => cbv zeta
      end ].

Lemma trainingSafe_addDocuments (docs : list Loc) : trainingSafe (addDocuments docs).
Proof.
  unfold addDocuments, callEmbedTextsFn, forEach, assignVector. training_steps.
  apply trainingSafe_modify. intros s Ht. simpl. split; [assumption|].
  apply prefix_app_r. reflexivity.
Qed.

#[local] Hint Resolve trainingSafe_addDocuments : training.

Lemma trainingSafe_addText (text0 : string) (metadata0 : T) :
  trainingSafe (addText text0 metadata0).
Proof. unfold addText, newDocument. training_steps. Qed.

Lemma trainingSafe_addTexts (texts : list string) (metadatas : list T) :
  trainingSafe (addTexts texts metadatas).
Proof. unfold addTexts, newDocument. training_steps. Qed.

Lemma trainingSafe_similaritySearch (params : IVSSimilaritySearchParams) :
  trainingSafe (similaritySearch params).
Proof.
  unfold similaritySearch, embedText, callEmbedTextsFn, calculateMagnitude,
    calculateSimilarityScores, scorePair, copyWithScore, updateHitCounters, forEach,
    deleteValues.
  training_steps.
Qed.

Lemma trainingSafe_perform (c : call) : insertsOrSearches c -> trainingSafe (perform c).
Proof.
  destruct c; simpl; intros Hc; try contradiction.
  - apply trainingSafe_bind; [apply trainingSafe_addText | intros; apply trainingSafe_ret].
  - apply trainingSafe_bind; [apply trainingSafe_addTexts | intros; apply trainingSafe_ret].
  - apply trainingSafe_bind; [apply trainingSafe_similaritySearch | intros; apply trainingSafe_ret].
  - apply trainingSafe_modify. intros s Ht. simpl. split; reflexivity.
Qed.

Lemma mapM_alloc (ds : list Doc) :
  forall s : VectorStorage,
    mapM alloc ds s
    = Returns (seq (length (heap s)) (length ds)) (set_heap (heap s ++ ds) s).
Proof.
  induction ds as [|d ds IH]; intros s; simpl.
  - rewrite app_nil_r. destruct s; reflexivity.
  - unfold bind at 1. unfold alloc at 1. unfold bind at 1. rewrite IH. simpl.
    rewrite length_app, Nat.add_1_r, <- app_assoc. reflexivity.
Qed.

Lemma lookup_total_seq (h : list Doc) :
  (fun l => h !!! l) <$> seq 0 (length h) = h.
Proof.
  apply list_eq. intros i. rewrite list_lookup_fmap.
  destruct (decide (i < length h)%nat) as [Hlt|Hge].
  - rewrite lookup_seq_lt by assumption. simpl.
    destruct (lookup_lt_is_Some_2 h i Hlt) as [d Hd].
    rewrite Hd. f_equal. apply list_lookup_total_correct. assumption.
  - rewrite lookup_seq_ge, lookup_ge_None_2 by lia. reflexivity.
Qed.

Lemma constructor_run (options : IVSOptions) (records : list Doc) :
  constructor options records
  = Returns tt
      (if configured options then
         mkVS _ (seq 0 (length records))
           (default DEFAULT_MAX_SIZE_IN_MB (o_maxSizeInMB options))
           true true records records 0 [EvGetAll]
       else
         mkVS _ [] (default DEFAULT_MAX_SIZE_IN_MB (o_maxSizeInMB options))
           true false [] records 0
           [EvConsoleError "VectorStorage: pass as an option either an OpenAI API key or a custom embedTextsFn function."]).
Proof.
  unfold constructor. destruct (configured options); [|reflexivity].
  unfold loadFromIndexDbStorage. cbn [bind modify get emit negb].
  unfold bind at 1. rewrite mapM_alloc. cbn [bind modify].
  rewrite removeDocsLRU_training by reflexivity. reflexivity.
Qed.

Lemma deleteDocumentsByMetadata_run (documentId : string) (s : VectorStorage) :
  deleteDocumentsByMetadata documentId s
  = Returns tt
      (saved (set_documents
                (List.filter (fun l => negb (mentions documentId (deref s l))) (documents s))
                s)).
Proof.
  unfold deleteDocumentsByMetadata, bind, modify. rewrite saveToIndexDbStorage_run.
  reflexivity.
Qed.

(** In training mode every call but [endTrainingMode] ends, keeps the
    flag on and evicts nothing. *)
Lemma training_step (c : call) (s : VectorStorage) :
  trainingMode s = true ->
  beforeEndTrainingMode c ->
  (exists s', step c s s')
  /\ (forall s', step c s s' -> trainingMode s' = true /\ keptByCall c s s').
Proof.
  intros Ht Hc. unfold step.
  destruct c as [text0 metadata0|texts metadatas|params|documentId| |];
    try contradiction;
    try (match goal with
         | |- context [perform ?c] =>
             pose proof (trainingSafe_perform c I s Ht) as Hsafe;
             destruct (perform c s) as [a x|e x|]; [| |contradiction];
             (split; [exists x; reflexivity | intros s' ->; exact Hsafe])
         end).
  cbn [perform keptByCall]. rewrite deleteDocumentsByMetadata_run.
  match goal with |- context [saved ?x] => destruct (saved_fields x) as (Hd & _ & _ & Ht' & _) end.
  split; [eexists; reflexivity|]. intros s' ->. rewrite Hd, Ht'. split; [exact Ht | reflexivity].
Qed.

Lemma reachable_weaken (allowed allowed' : call -> Prop) (s0 s : VectorStorage) :
  (forall c, allowed c -> allowed' c) ->
  reachable allowed s0 s -> reachable allowed' s0 s.
Proof.
  intros Himp Hreach. induction Hreach as [|s s' c _ IH Hc Hs]; [constructor|].
  econstructor; [exact IH | apply Himp; exact Hc | exact Hs].
Qed.

(** C3.  A new instance has training mode on, and its initial load keeps
    every record of the backend.  From there, until [endTrainingMode] is
    called, training mode stays on and every call (insert, search, delete by
    metadata, [startTrainingMode]) ends and evicts nothing, whatever the
    ceiling is: an insert or a search leaves every document of the in-memory
    set in place (the set only grows at its end), and
    [deleteDocumentsByMetadata] takes out exactly the documents that carry
    its id.  As long as nothing is deleted, every document loaded at
    construction is still in place. *)
Theorem training_mode_never_evicts (options : IVSOptions) (records : list Doc) :
  exists s0 : VectorStorage,
    constructor options records = Returns tt s0
    /\ trainingMode s0 = true
    /\ (if configured options then docsOf s0 (documents s0) = records
        else documents s0 = [])
    /\ (forall s : VectorStorage,
          reachable beforeEndTrainingMode s0 s ->
          trainingMode s = true
          /\ forall c : call,
               beforeEndTrainingMode c ->
               (exists s', step c s s')
               /\ (forall s', step c s s' ->
                              trainingMode s' = true /\ keptByCall c s s'))
    /\ (forall s : VectorStorage,
          reachable insertsOrSearches s0 s ->
          trainingMode s = true
          /\ documents s0 `prefix_of` documents s
          /\ forall c : call,
               insertsOrSearches c ->
               (exists s', step c s s')
               /\ (forall s', step c s s' ->
                              trainingMode s' = true
                              /\ documents s `prefix_of` documents s')).
Proof.
  pose proof (constructor_run options records) as Hrun.
  match type of Hrun with _ = Returns tt ?x => set (s0 := x) in * end.
  exists s0. split; [exact Hrun|].
  assert (Ht0 : trainingMode s0 = true).
  { unfold s0. destruct (configured options); reflexivity. }
  assert (Hflag : forall s, reachable beforeEndTrainingMode s0 s -> trainingMode s = true).
  { intros s Hreach. induction Hreach as [|s s' c _ IH Hc Hs]; [exact Ht0|].
    apply (proj2 (training_step c s IH Hc) s' Hs). }
  assert (Hweak : forall c, insertsOrSearches c -> beforeEndTrainingMode c).
  { intros c. destruct c; simpl; tauto. }
  assert (Hstep : forall s c s',
             trainingMode s = true -> insertsOrSearches c -> step c s s' ->
             trainingMode s' = true /\ documents s `prefix_of` documents s').
  { intros s c s' Ht Hc Hs.
    destruct (proj2 (training_step c s Ht (Hweak c Hc)) s' Hs) as [Ht' Hkept].
    split; [exact Ht'|]. destruct c; simpl in Hc; try contradiction; exact Hkept. }
  split; [exact Ht0|]. split.
  { unfold s0. destruct (configured options); [|reflexivity].
    unfold docsOf, deref. simpl. apply lookup_total_seq. }
  split.
  - intros s Hreach. pose proof (Hflag s Hreach) as Ht. split; [exact Ht|].
    intros c Hc. apply training_step; assumption.
  - intros s Hreach.
    pose proof (Hflag s (reachable_weaken _ _ _ _ Hweak Hreach)) as Ht.
    split; [exact Ht|]. split.
    + clear Ht. induction Hreach as [|s s' c Hreach IH Hc Hs]; [reflexivity|].
      pose proof (Hflag s (reachable_weaken _ _ _ _ Hweak Hreach)) as Ht.
      destruct (Hstep s c s' Ht Hc Hs) as [_ Hp]. etrans; eassumption.
    + intros c Hc. split.
      * apply (training_step c s Ht (Hweak c Hc)).
      * intros s' Hs. apply (Hstep s c s'); assumption.
Qed.

(** *** C8: the order of the results *)

Lemma filter_take_prefix {A : Type} (P : A -> bool) (n : nat) (l : list A) :
  List.filter P (take n l) `prefix_of` List.filter P l.
Proof.
  rewrite <- (take_drop n l) at 2. rewrite List.filter_app.
  apply prefix_app_r. reflexivity.
Qed.

Lemma slice0_take {A : Type} (k : Z) (l : list A) : exists n, JS.slice0 k l = take n l.
Proof. unfold JS.slice0. destruct (k <? 0); eauto. Qed.

Lemma scoreCompare_Gt (x y : Loc * float) :
  scoreCompare x y = Gt <-> (0 <? snd y - snd x)%float = true.
Proof. unfold scoreCompare. apply FloatFacts.sortSign_Gt. Qed.

(** Pairs with one and the same score are never swapped. *)
Lemma score_sort_stable (sc : float) (pairs : list (Loc * float)) :
  List.filter (hasScore sc) (JS.sort scoreCompare pairs) = List.filter (hasScore sc) pairs.
Proof.
  apply sort_stable. intros x y _ _ Hx Hy Hgt.
  apply FloatAxioms.Leibniz.eqb_spec in Hx, Hy.
  apply scoreCompare_Gt in Hgt. rewrite Hx, Hy, FloatFacts.sub_diag_not_pos in Hgt.
  discriminate.
Qed.

(** Without NaN among the scores the comparator is the order of the
    numbers, and the sorted array is in descending order. *)
Lemma score_sort_descending (pairs : list (Loc * float)) :
  Forall (fun p => JS.isNaN (snd p) = false) pairs ->
  StronglySorted (fun p q : Loc * float => (snd q <=? snd p)%float = true)
    (JS.sort scoreCompare pairs).
Proof.
  intros Hnan. rewrite Forall_forall in Hnan.
  apply Sorted.Sorted_StronglySorted.
  - intros p q r Hpq Hqr. eapply FloatFacts.leb_trans; eassumption.
  - apply sort_sorted.
    + intros x y Hx Hy Hc.
      apply FloatFacts.not_ltb_leb; auto.
      rewrite <- FloatFacts.sub_pos_ltb by auto.
      destruct (0 <? snd y - snd x)%float eqn:E; [|reflexivity].
      exfalso. apply Hc. apply scoreCompare_Gt. exact E.
    + intros x y Hx Hy Hc. apply scoreCompare_Gt in Hc.
      rewrite FloatFacts.sub_pos_ltb in Hc by auto.
      apply FloatFacts.ltb_leb. exact Hc.
Qed.

Lemma lookup_total_new_objects (cs : list Doc) :
  forall pre : list Doc,
    Forall2 (fun l c => (pre ++ cs) !!! l = c) (seq (length pre) (length cs)) cs.
Proof.
  induction cs as [|c cs IH]; intros pre; simpl; constructor.
  - rewrite lookup_total_app_r, Nat.sub_diag by lia. reflexivity.
  - specialize (IH (pre ++ [c])). rewrite length_app, Nat.add_1_r, <- app_assoc in IH.
    exact IH.
Qed.

Lemma similaritySearch_inv (params : IVSSimilaritySearchParams) (s s' : VectorStorage)
    (r : SearchResult) :
  similaritySearch params s = Returns r s' ->
  exists qe rest pairs,
    embedTextsFn [query params] = Some (qe :: rest)
    /\ scoresOf s qe (l2norm qe) (filterDocuments s (documents s) (filterOptions params))
       = Some pairs.
Proof.
  intros Hrun.
  destruct (embedTextsFn [query params]) as [[|qe rest]|] eqn:Hembed.
  - exfalso. revert Hrun. unfold similaritySearch, embedText, callEmbedTextsFn.
    cbn [bind emit modify get ret]. rewrite Hembed. discriminate.
  - destruct (scoresOf s qe (l2norm qe)
                (filterDocuments s (documents s) (filterOptions params))) as [pairs|] eqn:Hs.
    + eauto.
    + exfalso. revert Hrun. unfold similaritySearch, embedText, callEmbedTextsFn.
      cbn [bind emit modify get ret]. rewrite Hembed.
      cbn [bind emit modify get ret lookup list_lookup calculateMagnitude default
             from_option id].
      set (s0 := set_trace (EvEmbed [query params] :: trace s) s).
      change (filterDocuments s0 (documents s0) (filterOptions params))
        with (filterDocuments s (documents s) (filterOptions params)).
      unfold bind at 1. rewrite calculateSimilarityScores_run.
      rewrite (scoresOf_ext s s0) by reflexivity. rewrite Hs. discriminate.
  - exfalso. revert Hrun. unfold similaritySearch, embedText, callEmbedTextsFn.
    cbn [bind emit modify get ret]. rewrite Hembed. discriminate.
Qed.

Lemma similaritySearch_returns (params : IVSSimilaritySearchParams) (s : VectorStorage)
    (qe : list float) (rest : list (list float)) :
  wf s ->
  embedTextsFn [query params] = Some (qe :: rest) ->
  Forall (fun l => is_Some (vector (deref s l)))
    (filterDocuments s (documents s) (filterOptions params)) ->
  trainingMode s = true \/ overCeiling s [] = false ->
  exists r s', similaritySearch params s = Returns r s'.
Proof.
  intros Hwf Hembed Hvec Hends.
  destruct (scoresOf_total s qe (l2norm qe) _ Hvec) as [pairs Hpairs].
  rewrite (similaritySearch_run params s qe rest pairs Hembed Hpairs Hwf). cbv zeta.
  match goal with
  | |- context [(if _ then _ else _) ?st] => set (s1 := st)
  end.
  assert (Hreturns : exists s2, (removeDocsLRU ;;; saveToIndexDbStorage) s1 = Returns tt s2).
  { unfold bind. destruct Hends as [Ht | Hempty].
    - rewrite removeDocsLRU_training by exact Ht.
      rewrite saveToIndexDbStorage_run. eauto.
    - destruct (trainingMode s1) eqn:Ht.
      + rewrite removeDocsLRU_training by exact Ht.
        rewrite saveToIndexDbStorage_run. eauto.
      + destruct (removeDocsLRU_returns s1 Ht Hempty) as (ls & -> & _).
        rewrite saveToIndexDbStorage_run. eauto. }
  destruct (0 <? length _)%nat.
  - destruct Hreturns as [s2 ->]. eauto.
  - simpl. eauto.
Qed.

(** C8 (as amended).  On a well-formed store a search returns whenever the
    provider answers with an embedding of the query, every filtered document
    has a vector, and eviction can end.  Whenever it returns, the results
    are copies of some of the scored documents, each with its score.
    Provided no score is NaN (the comparator is then consistent), the scores
    of the results are in descending order, and entries with one and the
    same score keep the relative order they had among the scored documents.
    With a NaN score the comparator is not consistent and the order is left
    to the engine: nothing is stated about it. *)
Theorem similaritySearch_sorted (params : IVSSimilaritySearchParams) (s : VectorStorage) :
  wf s ->
  (forall qe rest,
     embedTextsFn [query params] = Some (qe :: rest) ->
     Forall (fun l => is_Some (vector (deref s l)))
       (filterDocuments s (documents s) (filterOptions params)) ->
     trainingMode s = true \/ overCeiling s [] = false ->
     exists r s', similaritySearch params s = Returns r s')
  /\ (forall r s',
        similaritySearch params s = Returns r s' ->
        exists scoresPairs top : list (Loc * float),
          fst <$> scoresPairs = filterDocuments s (documents s) (filterOptions params)
          /\ Forall (fun p => similarityScore (deref s (fst p)) (queryEmbedding r)
                                (l2norm (queryEmbedding r)) = Some (snd p)) scoresPairs
          /\ top ⊆+ scoresPairs
          /\ Forall2 (fun l p => score (deref s' l) = Some (snd p)
                                 /\ text (deref s' l) = text (deref s (fst p)))
               (similarItems r) top
          /\ (Forall (fun p => JS.isNaN (snd p) = false) scoresPairs ->
              descending (snd <$> top)
              /\ forall sc, List.filter (hasScore sc) top
                            `prefix_of` List.filter (hasScore sc) scoresPairs)).
Proof.
  intros Hwf. split.
  { intros qe rest. apply similaritySearch_returns. exact Hwf. }
  intros r s' Hrun.
  destruct (similaritySearch_inv params s s' r Hrun) as (qe & rest & pairs & Hembed & Hpairs).
  rewrite (similaritySearch_run params s qe rest pairs Hembed Hpairs Hwf) in Hrun.
  cbv zeta in Hrun.
  destruct (scoresOf_spec _ _ _ _ _ Hpairs) as [Hfst Hscores].
  set (sorted := JS.sort scoreCompare pairs) in *.
  destruct (slice0_take (default 4 (k params)) sorted) as [n Hn].
  rewrite Hn in Hrun.
  match type of Hrun with
  | match ?o with _ => _ end = _ => destruct o as [[] s2|e s2|]; try discriminate
  end.
  inversion Hrun; subst r s'; clear Hrun. cbn [similarItems queryEmbedding].
  exists pairs, (take n sorted).
  split; [exact Hfst|]. split; [exact Hscores|]. split.
  { transitivity sorted; [apply sublist_submseteq, sublist_take|].
    unfold sorted. rewrite (sort_perm scoreCompare pairs). reflexivity. }
  split.
  { pose proof (lookup_total_new_objects
                  (searchCopy s (includeValues params) <$> take n sorted) (heap s)) as Hnew.
    rewrite length_fmap in Hnew. apply Forall2_fmap_r in Hnew.
    eapply Forall2_impl; [exact Hnew|]. intros l p Hl. unfold deref. cbn [heap set_heap].
    rewrite Hl. unfold searchCopy. destruct (includeValues params); split; reflexivity. }
  intros Hnan. split.
  2: { intros sc. rewrite <- (score_sort_stable sc pairs). apply filter_take_prefix. }
  unfold descending.
  apply (StronglySorted_fmap snd (fun p q : Loc * float => (snd q <=? snd p)%float = true)).
  - auto.
  - apply (StronglySorted_app_1_l _ (take n sorted) (drop n sorted)).
    rewrite take_drop. apply score_sort_descending. exact Hnan.
Qed.

(** *** C1: where the hits are counted *)

(** What a search that returns has done: the results are new objects at the
    end of the object store, one per best pair, and [documents] has lost
    entries at most. *)
Lemma similaritySearch_returns_shape (params : IVSSimilaritySearchParams)
    (s s' : VectorStorage) (r : SearchResult) :
  wf s ->
  similaritySearch params s = Returns r s' ->
  exists (top : list (Loc * float)),
    Forall (fun p => fst p ∈ documents s) top
    /\ similarItems r = seq (length (heap s)) (length top)
    /\ heap s' = heap s ++ (searchCopy s (includeValues params) <$> top)
    /\ (forall l, l ∈ documents s' -> l ∈ documents s).
Proof.
  intros Hwf Hrun.
  destruct (similaritySearch_inv params s s' r Hrun) as (qe & rest & pairs & Hembed & Hpairs).
  rewrite (similaritySearch_run params s qe rest pairs Hembed Hpairs Hwf) in Hrun.
  cbv zeta in Hrun.
  destruct (scoresOf_spec _ _ _ _ _ Hpairs) as [Hfst _].
  set (sorted := JS.sort scoreCompare pairs) in *.
  destruct (slice0_take (default 4 (k params)) sorted) as [n Hn].
  rewrite Hn in Hrun.
  match type of Hrun with
  | match (if ?c then ?a else ?b) ?s1 with _ => _ end = _ =>
      assert (Htail : match (if c then a else b) s1 with
                      | Returns _ s2 => forall l, l ∈ documents s2 -> l ∈ documents s
                      | Throws _ _ => False
                      | Diverges => True
                      end);
      [ destruct c;
        [ pose proof (evictAndSave_shape s1) as Hshape;
          destruct ((removeDocsLRU ;;; saveToIndexDbStorage) s1); tauto
        | simpl; auto ]
      | destruct ((if c then a else b) s1) as [[] s2|e s2|]; try discriminate ]
  end.
  inversion Hrun; subst r s'; clear Hrun.
  exists (take n sorted). repeat split; auto.
  apply Forall_take. rewrite Forall_forall. intros p Hp.
  apply sort_elem_of in Hp.
  assert (Hin : fst p ∈ filterDocuments s (documents s) (filterOptions params)).
  { rewrite <- Hfst. apply list_elem_of_fmap. exists p. auto. }
  unfold filterDocuments in Hin. destruct (filterOptions params); [|exact Hin].
  apply list_elem_of_In in Hin. apply filter_In in Hin. apply list_elem_of_In. tauto.
Qed.

(** Every search counts its hits on the copies it returns: a result is a
    new object, not a member of [documents], with one hit more than its
    source; the stored documents, sources included, are as they were. *)
Lemma similaritySearch_counts_hits_on_copies (params : IVSSimilaritySearchParams)
    (s s' : VectorStorage) (r : SearchResult) :
  wf s ->
  similaritySearch params s = Returns r s' ->
  (forall l, l ∈ documents s -> deref s' l = deref s l)
  /\ Forall (fun l => (l ∉ documents s) /\ (l ∉ documents s')) (similarItems r)
  /\ exists sources : list Loc,
       Forall2 (fun l src =>
                  src ∈ documents s
                  /\ hits (deref s' l) = Some (default 0 (hits (deref s src)) + 1)
                  /\ hits (deref s' src) = hits (deref s src))
         (similarItems r) sources.
Proof.
  intros Hwf Hrun.
  destruct (similaritySearch_returns_shape params s s' r Hwf Hrun)
    as (top & Htop & Hres & Hheap & Hsub).
  assert (Hlt : forall l, l ∈ documents s -> (l < length (heap s))%nat).
  { unfold wf in Hwf. rewrite Forall_forall in Hwf. exact Hwf. }
  assert (Hold : forall l, l ∈ documents s -> deref s' l = deref s l).
  { intros l Hl. unfold deref. rewrite Hheap. apply lookup_total_app_l. auto. }
  split; [exact Hold|]. split.
  - rewrite Hres, Forall_forall. intros l Hl. apply elem_of_seq in Hl.
    split; intros Hin; [|apply Hsub in Hin]; apply Hlt in Hin; lia.
  - exists (fst <$> top). rewrite Hres. apply Forall2_fmap_r.
    pose proof (lookup_total_new_objects
                  (searchCopy s (includeValues params) <$> top) (heap s)) as Hnew.
    rewrite length_fmap in Hnew. apply Forall2_fmap_r in Hnew.
    rewrite Forall_forall in Htop.
    apply Forall2_same_length_lookup. split; [apply (Forall2_length _ _ _ Hnew)|].
    intros i l p Hl Hp.
    pose proof (proj2 (proj1 (Forall2_same_length_lookup _ _ _) Hnew) i l p Hl Hp) as Hobj.
    assert (Hsrc : fst p ∈ documents s) by (apply Htop; eapply list_elem_of_lookup_2; eauto).
    split; [exact Hsrc|]. split.
    + unfold deref at 1. rewrite Hheap, Hobj. unfold searchCopy.
      destruct (includeValues params); reflexivity.
    + rewrite Hold by exact Hsrc. reflexivity.
Qed.

(** *** C10: the cached magnitude *)

Lemma newDocuments_length (tms : list (string * T)) :
  forall tick, length (newDocuments tick tms) = length tms.
Proof.
  induction tms as [|[t m] tms IH]; intros tick; simpl; [reflexivity|].
  rewrite IH. reflexivity.
Qed.

Lemma mapM_newDocument (tms : list (string * T)) :
  forall s : VectorStorage,
    mapM (fun '(text0, metadata0) => newDocument text0 metadata0) tms s
    = Returns (seq (length (heap s)) (length tms))
        (set_ticks (ticks s + length tms)
           (set_heap (heap s ++ newDocuments (ticks s) tms) s)).
Proof.
  induction tms as [|[t m] tms IH]; intros s; simpl.
  - rewrite app_nil_r, Nat.add_0_r. destruct s; reflexivity.
  - unfold bind at 1. unfold newDocument at 1. unfold bind at 1, now, alloc.
    unfold bind at 1. rewrite IH. simpl.
    rewrite length_app, Nat.add_1_r, <- app_assoc, Nat.add_succ_r. reflexivity.
Qed.

Lemma assignVectors_cached (newVectors : list (list float)) (docs : list Loc) (l : Loc) :
  forall (index : nat) (h : list Doc),
    snd (assignVectors newVectors index docs h) = true ->
    (l < length h)%nat ->
    l ∈ docs \/ magnitudeCached (h !!! l) ->
    magnitudeCached (fst (assignVectors newVectors index docs h) !!! l).
Proof.
  induction docs as [|doc rest IH]; intros index h Hok Hl Hcase; simpl in *.
  - destruct Hcase as [Hin|Hc]; [inversion Hin | exact Hc].
  - destruct (newVectors !! index) as [v|] eqn:Hv; [|discriminate].
    apply IH; [exact Hok | rewrite !length_alter; exact Hl|].
    destruct (decide (l = doc)) as [->|Hne].
    + right. rewrite !list_lookup_total_alter_eq by (rewrite ?length_alter; exact Hl).
      exists v. split; reflexivity.
    + destruct Hcase as [Hin|Hc].
      * left. apply elem_of_cons in Hin. destruct Hin; [contradiction | assumption].
      * right. rewrite !list_lookup_total_alter_ne by congruence. exact Hc.
Qed.

Lemma assignVectors_frame_total (newVectors : list (list float)) (docs : list Loc) (l : Loc)
    (index : nat) (h : list Doc) :
  l ∉ docs -> fst (assignVectors newVectors index docs h) !!! l = h !!! l.
Proof.
  intros Hl. rewrite !list_lookup_total_alt.
  rewrite assignVectors_frame by exact Hl. reflexivity.
Qed.

(** A step keeps the store consistent when it leaves the old objects as
    they were, keeps in [documents] only old documents or new ones that carry
    their norm, and leaves the backend alone or overwrites it with the
    in-memory set. *)
Lemma consistent_step (s s' : VectorStorage) :
  consistent s ->
  (length (heap s) <= length (heap s'))%nat ->
  (forall l, l ∈ documents s -> deref s' l = deref s l) ->
  (forall l, l ∈ documents s' ->
             l ∈ documents s
             \/ ((l < length (heap s'))%nat /\ magnitudeCached (deref s' l))) ->
  idb s' = idb s \/ idb s' = docsOf s' (documents s') ->
  consistent s'.
Proof.
  intros (Hwf & Hmem & Hidb) Hlen Hold Hdocs Hback.
  unfold wf in Hwf. rewrite Forall_forall in Hwf, Hmem.
  assert (Hmem' : Forall (fun l => magnitudeCached (deref s' l)) (documents s')).
  { rewrite Forall_forall. intros l Hl. destruct (Hdocs l Hl) as [Hin|[_ Hc]]; [|exact Hc].
    rewrite Hold by exact Hin. apply Hmem. exact Hin. }
  split; [|split].
  - unfold wf. rewrite Forall_forall. intros l Hl.
    destruct (Hdocs l Hl) as [Hin|[Hlt _]]; [|exact Hlt].
    specialize (Hwf l Hin). lia.
  - exact Hmem'.
  - destruct Hback as [-> | ->]; [exact Hidb|].
    unfold docsOf. apply Forall_fmap. exact Hmem'.
Qed.

Lemma evictSaveRet_run {A : Type} (x : A) (s : VectorStorage) :
  (removeDocsLRU ;;; saveToIndexDbStorage ;;; ret x) s
  = match (removeDocsLRU ;;; saveToIndexDbStorage) s with
    | Returns _ s' => Returns x s'
    | Throws e s' => Throws e s'
    | Diverges => Diverges
    end.
Proof.
  unfold bind. destruct (removeDocsLRU s) as [[] s1|e s1|]; reflexivity.
Qed.

(** A state that differs in the trace, the clock, the handle or the
    training flag only is as consistent as the first. *)
Lemma consistent_same (s s' : VectorStorage) :
  consistent s -> heap s' = heap s -> documents s' = documents s -> idb s' = idb s ->
  consistent s'.
Proof.
  intros Hc Hh Hd Hi. apply (consistent_step s s' Hc).
  - rewrite Hh. reflexivity.
  - intros l _. unfold deref. rewrite Hh. reflexivity.
  - intros l Hl. left. rewrite <- Hd. exact Hl.
  - left. exact Hi.
Qed.

Lemma addDocuments_consistent (docs : list Loc) (s : VectorStorage) :
  consistent s ->
  Forall (fun l => (l < length (heap s))%nat) docs ->
  Forall (fun l => l ∉ documents s) docs ->
  match addDocuments docs s with
  | Returns inserted s' =>
      consistent s' /\ Forall (fun l => magnitudeCached (deref s' l)) inserted
  | Throws _ s' => consistent s'
  | Diverges => True
  end.
Proof.
  intros Hc Hlt Hfresh. rewrite addDocuments_cases by exact Hlt. cbv zeta.
  set (new := List.filter (isNewDocument s (text <$> idb s)) docs).
  destruct (db s); [|exact Hc]. simpl negb. cbv iota.
  destruct (length new =? 0)%nat.
  { split; [|constructor]. apply (consistent_same s); auto. }
  destruct (embedTextsFn _) as [vs|]; [|apply (consistent_same s); auto].
  assert (Hnewlt : Forall (fun l => (l < length (heap s))%nat) new)
    by (apply filter_lt; exact Hlt).
  assert (Hnewfresh : forall l, l ∈ documents s -> l ∉ new).
  { intros l Hl Hin. rewrite Forall_forall in Hfresh. apply (Hfresh l); [|exact Hl].
    apply list_elem_of_In in Hin. apply filter_In in Hin. apply list_elem_of_In. tauto. }
  pose proof (assignVectors_length vs new 0 (heap s)) as Hlen.
  pose proof (fun l => assignVectors_frame_total vs new l 0 (heap s)) as Hframe.
  pose proof (fun l => assignVectors_cached vs new l 0 (heap s)) as Hcached.
  destruct (assignVectors vs 0 new (heap s)) as [h ok]. simpl in Hlen, Hframe, Hcached.
  destruct ok.
  2: { apply (consistent_step s _ Hc);
         [ simpl; lia
         | intros l Hl; unfold deref; simpl; apply Hframe; auto
         | intros l Hl; left; exact Hl
         | left; reflexivity ]. }
  rewrite evictSaveRet_run.
  match goal with |- context [(_ ;;; _) ?st] => set (s2 := st) end.
  pose proof (evictAndSave_shape s2) as Hshape.
  destruct ((removeDocsLRU ;;; saveToIndexDbStorage) s2) as [[] s3|e s3|];
    [|contradiction|exact I].
  destruct Hshape as (Hh & _ & _ & Hsub & _ & Hback).
  assert (Hnewcached : forall l, l ∈ new -> magnitudeCached (deref s3 l)).
  { intros l Hl. unfold deref. rewrite Hh. simpl. apply Hcached; auto.
    rewrite Forall_forall in Hnewlt. auto. }
  split; [|rewrite Forall_forall; exact Hnewcached].
  apply (consistent_step s _ Hc).
  - rewrite Hh. simpl. lia.
  - intros l Hl. unfold deref. rewrite Hh. simpl. apply Hframe. auto.
  - intros l Hl. apply Hsub in Hl. simpl in Hl. apply elem_of_app in Hl.
    destruct Hl as [Hl|Hl]; [left; exact Hl | right].
    split; [|auto]. rewrite Hh. simpl. rewrite Hlen.
    rewrite Forall_forall in Hnewlt. auto.
  - destruct Hback as [Hb|Hb]; [left | right]; exact Hb.
Qed.

Lemma consistent_alloc (s s1 : VectorStorage) (cands : list Doc) :
  consistent s -> heap s1 = heap s ++ cands -> documents s1 = documents s ->
  idb s1 = idb s ->
  consistent s1
  /\ Forall (fun l => (l < length (heap s1))%nat) (seq (length (heap s)) (length cands))
  /\ Forall (fun l => l ∉ documents s1) (seq (length (heap s)) (length cands)).
Proof.
  intros Hc Hh Hd Hi.
  assert (Hwf : forall l, l ∈ documents s -> (l < length (heap s))%nat).
  { destruct Hc as (Hwf & _). unfold wf in Hwf. rewrite Forall_forall in Hwf. exact Hwf. }
  split; [|split].
  - apply (consistent_step s _ Hc).
    + rewrite Hh, length_app. lia.
    + intros l Hl. unfold deref. rewrite Hh. apply lookup_total_app_l. auto.
    + intros l Hl. left. rewrite <- Hd. exact Hl.
    + left. exact Hi.
  - rewrite Forall_forall. intros l Hl. apply elem_of_seq in Hl.
    rewrite Hh, length_app. lia.
  - rewrite Forall_forall. intros l Hl Hin. apply elem_of_seq in Hl.
    rewrite Hd in Hin. apply Hwf in Hin. lia.
Qed.

Lemma addText_consistent (text0 : string) (metadata0 : T) (s : VectorStorage) :
  consistent s ->
  match addText text0 metadata0 s with
  | Returns _ s' | Throws _ s' => consistent s'
  | Diverges => True
  end.
Proof.
  intros Hc. unfold addText. unfold bind at 1. unfold newDocument, bind, now, alloc.
  match goal with
  | |- context [addDocuments [?l] ?s1] =>
      destruct (consistent_alloc s s1
                  [mkDoc None (Some metadata0) text0 (Date_now (ticks s)) (Some [])
                     (Some 0%float) None] Hc eq_refl eq_refl eq_refl)
        as (Hc1 & Hlt & Hfresh);
      pose proof (addDocuments_consistent [l] s1 Hc1 Hlt Hfresh) as Hadd;
      destruct (addDocuments [l] s1) as [ls s'|e s'|]
  end; simpl; tauto.
Qed.

Lemma addTexts_consistent (texts : list string) (metadatas : list T) (s : VectorStorage) :
  consistent s ->
  match addTexts texts metadatas s with
  | Returns inserted s' =>
      consistent s' /\ Forall (fun l => magnitudeCached (deref s' l)) inserted
  | Throws _ s' => consistent s'
  | Diverges => True
  end.
Proof.
  intros Hc. unfold addTexts.
  destruct (negb (length texts =? length metadatas)%nat); [exact Hc|].
  unfold bind. rewrite mapM_newDocument.
  match goal with
  | |- context [addDocuments ?ls ?s1] =>
      destruct (consistent_alloc s s1 (newDocuments (ticks s) (zip texts metadatas))
                  Hc eq_refl eq_refl eq_refl) as (Hc1 & Hlt & Hfresh);
      rewrite newDocuments_length in Hlt, Hfresh;
      exact (addDocuments_consistent ls s1 Hc1 Hlt Hfresh)
  end.
Qed.

(** A search that stops before scoring is over has only called the
    provider. *)
Lemma similaritySearch_throws_early (params : IVSSimilaritySearchParams) (s : VectorStorage) :
  (forall qe rest pairs,
     embedTextsFn [query params] = Some (qe :: rest) ->
     scoresOf s qe (l2norm qe) (filterDocuments s (documents s) (filterOptions params))
     <> Some pairs) ->
  exists e,
    similaritySearch params s
    = Throws e (set_trace (EvEmbed [query params] :: trace s) s).
Proof.
  intros Hfail.
  unfold similaritySearch, embedText, callEmbedTextsFn.
  cbn [bind emit modify get ret].
  destruct (embedTextsFn [query params]) as [[|qe rest]|] eqn:Hembed;
    [eexists; reflexivity | | eexists; reflexivity].
  cbn [bind emit modify get ret lookup list_lookup calculateMagnitude default from_option id].
  set (s0 := set_trace (EvEmbed [query params] :: trace s) s).
  change (filterDocuments s0 (documents s0) (filterOptions params))
    with (filterDocuments s (documents s) (filterOptions params)).
  unfold bind at 1. rewrite calculateSimilarityScores_run.
  rewrite (scoresOf_ext s s0) by reflexivity.
  destruct (scoresOf s qe (l2norm qe) _) as [pairs|] eqn:Hs.
  - exfalso. apply (Hfail qe rest pairs); auto.
  - eexists. reflexivity.
Qed.

Lemma similaritySearch_consistent (params : IVSSimilaritySearchParams) (s : VectorStorage) :
  consistent s ->
  match similaritySearch params s with
  | Returns _ s' | Throws _ s' => consistent s'
  | Diverges => True
  end.
Proof.
  intros Hc.
  destruct (embedTextsFn [query params]) as [[|qe rest]|] eqn:Hembed.
  1, 3: destruct (similaritySearch_throws_early params s) as [e ->];
    [intros ? ? ? ?; congruence | apply (consistent_same s); auto].
  destruct (scoresOf s qe (l2norm qe)
              (filterDocuments s (documents s) (filterOptions params))) as [pairs|] eqn:Hs.
  2: { destruct (similaritySearch_throws_early params s) as [e ->];
         [intros ? ? ? E; congruence | apply (consistent_same s); auto]. }
  rewrite (similaritySearch_run params s qe rest pairs Hembed Hs (proj1 Hc)). cbv zeta.
  match goal with |- context [(if _ then _ else _) ?st] => set (s1 := st) end.
  match goal with
  | |- context [(if ?c then ?a else ?b) s1] =>
      assert (Htail : match (if c then a else b) s1 with
                      | Returns _ s2 =>
                          (forall l, l ∈ documents s2 -> l ∈ documents s)
                          /\ (idb s2 = idb s \/ idb s2 = docsOf s2 (documents s2))
                          /\ heap s2 = heap s1
                      | Throws _ _ => False
                      | Diverges => True
                      end);
      [ destruct c;
        [ pose proof (evictAndSave_shape s1) as Hshape;
          destruct ((removeDocsLRU ;;; saveToIndexDbStorage) s1); tauto
        | simpl; auto ]
      | destruct ((if c then a else b) s1) as [[] s2|e s2|]; [|contradiction|exact I] ]
  end.
  destruct Htail as (Hsub & Hback & Hh).
  assert (Hwf : forall l, l ∈ documents s -> (l < length (heap s))%nat).
  { destruct Hc as (Hwf & _). unfold wf in Hwf. rewrite Forall_forall in Hwf. exact Hwf. }
  apply (consistent_step s _ Hc).
  - simpl. rewrite length_app. lia.
  - intros l Hl. unfold deref. simpl. apply lookup_total_app_l. auto.
  - intros l Hl. left. simpl in Hl. auto.
  - simpl. destruct Hback as [Hb|Hb]; [left; exact Hb | right].
    rewrite Hb. unfold docsOf. apply Forall_fmap_ext_1. rewrite Forall_forall.
    intros l Hl. unfold deref. simpl. rewrite Hh. unfold s1. simpl.
    rewrite !lookup_total_app_l by auto. reflexivity.
Qed.

Lemma deleteDocumentsByMetadata_consistent (documentId : string) (s : VectorStorage) :
  consistent s ->
  match deleteDocumentsByMetadata documentId s with
  | Returns _ s' | Throws _ s' => consistent s'
  | Diverges => True
  end.
Proof.
  intros Hc. unfold deleteDocumentsByMetadata. unfold bind, modify.
  rewrite saveToIndexDbStorage_run.
  match goal with |- consistent (saved ?st) => set (s1 := st) end.
  destruct (saved_fields s1) as (Hd & Hh & _).
  apply (consistent_step s _ Hc).
  - rewrite Hh. reflexivity.
  - intros l _. unfold deref. rewrite Hh. reflexivity.
  - intros l Hl. left. rewrite Hd in Hl. simpl in Hl.
    apply list_elem_of_In in Hl. apply filter_In in Hl. apply list_elem_of_In. tauto.
  - unfold saved. destruct (textsUnique _); simpl; [right | left]; reflexivity.
Qed.

Lemma perform_consistent (c : call) (s s' : VectorStorage) :
  consistent s -> step c s s' -> consistent s'.
Proof.
  intros Hc Hs. unfold step in Hs. destruct c; simpl in Hs.
  - unfold bind in Hs. pose proof (addText_consistent text0 metadata0 s Hc) as Hadd.
    destruct (addText text0 metadata0 s); simpl in Hs; subst; tauto.
  - unfold bind in Hs. pose proof (addTexts_consistent texts metadatas s Hc) as Hadd.
    destruct (addTexts texts metadatas s); simpl in Hs; subst; tauto.
  - unfold bind in Hs. pose proof (similaritySearch_consistent params s Hc) as Hadd.
    destruct (similaritySearch params s); simpl in Hs; subst; tauto.
  - pose proof (deleteDocumentsByMetadata_consistent documentId s Hc) as Hdel.
    destruct (deleteDocumentsByMetadata documentId s); subst; tauto.
  - subst. apply (consistent_same s); auto.
  - subst. apply (consistent_same s); auto.
Qed.

Lemma constructor_consistent (options : IVSOptions) (records : list Doc) (s0 : VectorStorage) :
  Forall magnitudeCached records ->
  constructor options records = Returns tt s0 ->
  consistent s0.
Proof.
  intros Hrec Hrun. rewrite constructor_run in Hrun. inversion Hrun; subst; clear Hrun.
  destruct (configured options); split; try split; simpl; try exact Hrec; try constructor.
  - unfold wf. simpl. rewrite Forall_forall. intros l Hl. apply elem_of_seq in Hl. lia.
  - rewrite Forall_forall. intros l Hl. apply elem_of_seq in Hl.
    unfold deref. simpl. rewrite Forall_forall in Hrec. apply Hrec.
    apply list_elem_of_lookup_total_2. lia.
Qed.

(** C10.  Every document that [addTexts] returns carries, in [vectorMag],
    the L2 norm of the vector it was given.  And in a store created on a
    backend whose records carry their norms, every document of the
    in-memory set carries the norm of its vector after every call. *)
Theorem vectorMag_is_norm :
  (forall (s s' : VectorStorage) texts metadatas inserted,
     consistent s ->
     addTexts texts metadatas s = Returns inserted s' ->
     Forall (fun l => magnitudeCached (deref s' l)) inserted)
  /\ (forall (options : IVSOptions) (records : list Doc) (s0 s : VectorStorage),
        Forall magnitudeCached records ->
        constructor options records = Returns tt s0 ->
        reachable (fun _ => True) s0 s ->
        Forall (fun l => magnitudeCached (deref s l)) (documents s)).
Proof.
  split.
  - intros s s' texts metadatas inserted Hc Hrun.
    pose proof (addTexts_consistent texts metadatas s Hc) as Hadd.
    rewrite Hrun in Hadd. tauto.
  - intros options records s0 s Hrec Hrun Hreach.
    assert (Hc : consistent s).
    { induction Hreach as [|s s' c _ IH _ Hstep].
      - eapply constructor_consistent; eassumption.
      - eapply perform_consistent; eassumption. }
    apply Hc.
Qed.

End Methods.

(** * The theorems at the concrete host *)

Lemma wf_withHello : wf Demo.withHello.
Proof. repeat constructor. Qed.

Lemma addTexts_length_mismatch_witness :
  addTexts ["a"; "b"] ["m1"] Demo.ready
  = Throws "The lengths of texts and metadata arrays must match." Demo.ready.
Proof.
  apply (@addTexts_length_mismatch Demo.host ["a"; "b"] ["m1"] Demo.ready).
  simpl. lia.
Defined.

Lemma addDocuments_all_dropped_witness :
  exists s',
    addText "hello" "m2" Demo.withHello = Returns None s'
    /\ trace s' = EvGetAll :: trace Demo.withHello
    /\ documents s' = documents Demo.withHello /\ idb s' = idb Demo.withHello.
Proof.
  apply (proj2 (addDocuments_all_dropped Demo.withHello eq_refl wf_withHello)).
  left. exists 0%nat. split; [|reflexivity]. apply list_elem_of_here.
Defined.

Lemma consistent_ready : consistent Demo.ready.
Proof. repeat split; constructor. Qed.

(** C1.  A search that returns the one stored document "hello": the hit
    is counted on the returned copy (object 1), and the stored document
    (object 0) has as many hits after the call as before, none. *)
Theorem similaritySearch_hits_not_recorded :
  similaritySearch (Demo.queryFor "hello") Demo.withHello
  = Returns Demo.helloResult Demo.afterHello
  /\ similarItems Demo.helloResult = [1%nat]
  /\ documents Demo.afterHello = [0%nat]
  /\ hits (deref Demo.withHello 0%nat) = None
  /\ hits (deref Demo.afterHello 0%nat) = None
  /\ hits (deref Demo.afterHello 1%nat) = Some 1.
Proof. vm_compute. repeat split; reflexivity. Qed.

(** C5.  A batch with the same text twice, on an empty store: both
    candidates are inserted, the in-memory set holds the text "a" twice, and
    the save is rejected by the unique index, so the backend stays empty. *)
Theorem addTexts_duplicate_in_batch :
  addTexts ["a"; "a"] ["m1"; "m2"] Demo.ready = Returns [0%nat; 1%nat] Demo.afterDuplicate
  /\ text <$> docsOf Demo.afterDuplicate (documents Demo.afterDuplicate) = ["a"; "a"]
  /\ idb Demo.afterDuplicate = []
  /\ trace Demo.afterDuplicate !! 1%nat = Some (EvSave false).
Proof. vm_compute. repeat split; reflexivity. Qed.

Lemma addTexts_over_ceiling_counterexample :
  addTexts ["alpha"; "beta"; "gamma"] ["m1"; "m2"; "m3"] Demo.ready
  = Returns [0%nat; 1%nat; 2%nat] Demo.threeDocs
  /\ length (documents Demo.threeDocs) = 3%nat
  /\ overCeiling Demo.threeDocs (documents Demo.threeDocs) = true
  /\ (getObjectSizeInMB (docsOf Demo.threeDocs (documents Demo.threeDocs))
      <=? maxSizeInMB Demo.threeDocs)%float = false.
Proof. vm_compute. repeat split; reflexivity. Qed.

Lemma addDocuments_within_ceiling_witness :
  exists (inserted : list Loc) (s' : VectorStorage),
    addDocuments [3%nat] Demo.candidate = Returns inserted s'
    /\ inserted <> []
    /\ overCeiling s' (documents s') = false
    /\ (sizesAreNumbers s' (documents s') -> withinCeiling s' (documents s') = true)
    /\ (documents s' = documents Demo.candidate ++ inserted
        \/ exists n : nat,
             documents s'
             = drop n (JS.sort (fun a b => lruCompare (deref s' a) (deref s' b))
                         (documents Demo.candidate ++ inserted))).
Proof.
  apply (addDocuments_within_ceiling [3%nat] Demo.candidate).
  - reflexivity.
  - reflexivity.
  - repeat constructor.
  - vm_compute. reflexivity.
  - intros texts. eexists. split; [reflexivity | apply length_fmap].
  - apply Exists_cons_hd. intros Hd. apply isNewDocument_false_iff in Hd.
    vm_compute in Hd. discriminate.
Defined.

Lemma similarityScore_mismatch_counterexample :
  length [1%float; 2%float] <> length [1%float]
  /\ similarityScore (mkDoc None (Some "m") "a" 0 (Some [1%float; 2%float]) (Some 2%float) None)
       [1%float] 1%float
     = Some nan
  /\ length [1%float] <> length [1%float; 5%float]
  /\ similarityScore (mkDoc None (Some "m") "b" 0 (Some [1%float]) (Some 1%float) None)
       [1%float; 5%float] 1%float
     = Some 1%float.
Proof. repeat split; try discriminate; vm_compute; reflexivity. Qed.

Lemma similarityScore_unequal_lengths_witness :
  (exists sc,
     similarityScore (mkDoc None (Some "m") "a" 0 (Some [1%float; 2%float]) (Some 2%float) None)
       [1%float] 1%float = Some sc)
  /\ ((length [1%float] < length [1%float; 2%float])%nat ->
      similarityScore (mkDoc None (Some "m") "a" 0 (Some [1%float; 2%float]) (Some 2%float) None)
        [1%float] 1%float = Some nan)
  /\ ((length [1%float; 2%float] < length [1%float])%nat ->
      similarityScore (mkDoc None (Some "m") "a" 0 (Some [1%float; 2%float]) (Some 2%float) None)
        [1%float] 1%float
      = similarityScore
          (mkDoc None (Some "m") "a" 0 (Some [1%float; 2%float]) (Some 2%float) None)
          (take (length [1%float; 2%float]) [1%float]) 1%float).
Proof.
  apply (similarityScore_unequal_lengths
           (mkDoc None (Some "m") "a" 0 (Some [1%float; 2%float]) (Some 2%float) None)
           [1%float; 2%float] [1%float] 1%float).
  reflexivity.
Defined.

Lemma removeDocsLRU_training_counterexample :
  trainingMode Demo.threeDocs = true
  /\ overCeiling Demo.threeDocs (documents Demo.threeDocs) = true
  /\ removeDocsLRU Demo.threeDocs = Returns tt Demo.threeDocs.
Proof. vm_compute. repeat split; reflexivity. Qed.

Lemma removeDocsLRU_spec_witness :
  let s := Demo.threeDocsEnded in
  let sorted := JS.sort (fun a b => lruCompare (deref s a) (deref s b)) (documents s) in
  exists n : nat,
    (n <= length (documents s))%nat
    /\ removeDocsLRU s = Returns tt (set_documents (drop n sorted) s)
    /\ sorted ≡ₚ documents s
    /\ StronglySorted (fun a b => lruLe (deref s a) (deref s b)) sorted
    /\ (forall h t, List.filter (hasLruKey s h t) sorted
                    = List.filter (hasLruKey s h t) (documents s))
    /\ overCeiling s (drop n sorted) = false
    /\ (sizesAreNumbers s (drop n sorted) -> withinCeiling s (drop n sorted) = true)
    /\ (forall m : nat, (m < n)%nat -> overCeiling s (drop m sorted) = true).
Proof.
  apply (proj2 (proj2 (removeDocsLRU_spec Demo.threeDocsEnded))).
  - reflexivity.
  - vm_compute. reflexivity.
  - vm_compute. reflexivity.
Defined.

Lemma wf_threeDocs : wf Demo.threeDocs.
Proof. repeat constructor. Qed.

Lemma wf_loaded : wf Demo.loaded.
Proof. repeat constructor. Qed.

(** A search for "hello" among a vector opposite to the query, a zero
    vector and the query's own vector.  The zero vector scores NaN; the
    comparator finds it equal to either neighbour, the two neighbours are
    never compared with each other, and the array stays as it was: the
    scores come back as about 0, NaN, 1. *)
Lemma similaritySearch_nan_counterexample :
  similaritySearch (Demo.queryFor "hello") Demo.loaded
  = Returns Demo.loadedResult Demo.afterLoadedSearch
  /\ (fun l => score (deref Demo.afterLoadedSearch l)) <$> similarItems Demo.loadedResult
     = [Some (-0x1p-53)%float; Some nan; Some 1%float]
  /\ (-0x1p-53 <? 1)%float = true
  /\ (1 <=? -0x1p-53)%float = false.
Proof. vm_compute. repeat split; reflexivity. Qed.

Lemma similaritySearch_sorted_witness :
  exists scoresPairs top : list (Loc * float),
    fst <$> scoresPairs
    = filterDocuments Demo.threeDocs (documents Demo.threeDocs)
        (filterOptions (Demo.queryFor "alpha"))
    /\ Forall (fun p => similarityScore (deref Demo.threeDocs (fst p))
                          (queryEmbedding Demo.alphaResult)
                          (l2norm (queryEmbedding Demo.alphaResult)) = Some (snd p))
         scoresPairs
    /\ top ⊆+ scoresPairs
    /\ Forall2 (fun l p => score (deref Demo.afterAlpha l) = Some (snd p)
                           /\ text (deref Demo.afterAlpha l)
                              = text (deref Demo.threeDocs (fst p)))
         (similarItems Demo.alphaResult) top
    /\ (Forall (fun p => JS.isNaN (snd p) = false) scoresPairs ->
        descending (snd <$> top)
        /\ forall sc, List.filter (hasScore sc) top
                      `prefix_of` List.filter (hasScore sc) scoresPairs).
Proof.
  apply (proj2 (similaritySearch_sorted (Demo.queryFor "alpha") Demo.threeDocs wf_threeDocs)
           Demo.alphaResult Demo.afterAlpha).
  vm_compute. reflexivity.
Defined.

Lemma vectorMag_is_norm_witness :
  Forall (fun l => magnitudeCached (deref Demo.threeDocs l)) [0%nat; 1%nat; 2%nat].
Proof.
  apply (proj1 vectorMag_is_norm Demo.ready Demo.threeDocs
           ["alpha"; "beta"; "gamma"] ["m1"; "m2"; "m3"] [0%nat; 1%nat; 2%nat]
           consistent_ready).
  vm_compute. reflexivity.
Defined.

(** * Further properties of the methods *)

(** ** Zero vectors *)
Module ZeroFacts.

Lemma isZero_spec (x : float) : isZero x = true <-> exists s, Prim2SF x = S754_zero s.
Proof.
  unfold isZero. rewrite FloatAxioms.eqb_spec.
  change (Prim2SF 0) with (S754_zero false).
  destruct (Prim2SF x) as [s| | |s m e]; simpl.
  - split; [eauto | reflexivity].
  - split; [destruct s; discriminate | intros [? ?]; discriminate].
  - split; [discriminate | intros [? ?]; discriminate].
  - split; [destruct s; discriminate | intros [? ?]; discriminate].
Qed.

Lemma zeroOrNaN_spec (x : float) :
  zeroOrNaN x <-> (exists s, Prim2SF x = S754_zero s) \/ Prim2SF x = S754_nan.
Proof. unfold zeroOrNaN. rewrite isZero_spec, FloatFacts.isNaN_spec. reflexivity. Qed.

Lemma mul_zero_zero (x y : float) : isZero x = true -> isZero y = true -> isZero (x * y) = true.
Proof.
  rewrite !isZero_spec, FloatAxioms.mul_spec. intros [sx ->] [sy ->]. simpl. eauto.
Qed.

Lemma mul_zero_l (x y : float) : isZero x = true -> zeroOrNaN (x * y).
Proof.
  rewrite zeroOrNaN_spec, isZero_spec, FloatAxioms.mul_spec. intros [sx ->].
  destruct (Prim2SF y) as [s| | |s m e]; simpl; eauto.
Qed.

Lemma add_zero_zero (x y : float) : isZero x = true -> isZero y = true -> isZero (x + y) = true.
Proof.
  rewrite !isZero_spec, FloatAxioms.add_spec. intros [sx ->] [sy ->].
  destruct sx, sy; simpl; eauto.
Qed.

Lemma add_zeroOrNaN (x y : float) : zeroOrNaN x -> zeroOrNaN y -> zeroOrNaN (x + y).
Proof.
  rewrite !zeroOrNaN_spec, FloatAxioms.add_spec.
  intros [[sx ->]| ->] [[sy ->]| ->]; try destruct sx; try destruct sy; simpl; eauto.
Qed.

Lemma sqrt_zero (x : float) : isZero x = true -> isZero (PrimFloat.sqrt x) = true.
Proof.
  rewrite !isZero_spec, FloatAxioms.sqrt_spec. intros [sx ->]. simpl. eauto.
Qed.

Lemma div_zeroOrNaN (x y : float) : zeroOrNaN x -> zeroOrNaN y -> (x / y)%float = nan.
Proof.
  rewrite !zeroOrNaN_spec. intros Hx Hy. apply FloatFacts.SF_nan_eq.
  rewrite FloatAxioms.div_spec.
  destruct Hx as [[sx ->]| ->], Hy as [[sy ->]| ->]; reflexivity.
Qed.

Lemma reduce_from_inv {A B : Type} (P : B -> Prop) (f : B -> A -> nat -> B) (l : list A) :
  (forall acc x i, P acc -> x ∈ l -> P (f acc x i)) ->
  forall i acc, P acc -> P (JS.reduce_from f i l acc).
Proof.
  induction l as [|x l IH]; intros Hf i acc Hacc; simpl; [exact Hacc|].
  apply IH.
  - intros acc' y j Hacc' Hy. apply Hf; [exact Hacc' | right; exact Hy].
  - apply Hf; [exact Hacc | left].
Qed.

Lemma l2norm_zero (v : list float) :
  Forall (fun x => isZero x = true) v -> isZero (l2norm v) = true.
Proof.
  intros Hv. unfold l2norm, JS.reduce. apply sqrt_zero.
  apply (reduce_from_inv (fun acc => isZero acc = true)); [|reflexivity].
  intros acc x i Hacc Hx. rewrite Forall_forall in Hv.
  apply add_zero_zero; [exact Hacc|]. apply mul_zero_zero; apply Hv; exact Hx.
Qed.

Lemma dotProduct_zeroOrNaN (v queryVector : list float) :
  Forall (fun x => isZero x = true) v -> zeroOrNaN (dotProduct v queryVector).
Proof.
  intros Hv. unfold dotProduct, JS.reduce.
  apply (reduce_from_inv zeroOrNaN); [|left; reflexivity].
  intros acc x i Hacc Hx. rewrite Forall_forall in Hv.
  apply add_zeroOrNaN; [exact Hacc|]. apply mul_zero_l. apply Hv. exact Hx.
Qed.

End ZeroFacts.

(** X1.  The score of a zero vector.  For a document whose vector holds
    zeros only (the empty vector included), the magnitude computed at
    insertion is zero, and with that magnitude cached the score against
    every query is NaN: the division by the product of the magnitudes is not
    guarded. *)
Theorem similarityScore_zero_vector {T : Type} (doc : IVSDocument T)
    (v queryVector : list float) (queryMagnitude : float) :
  vector doc = Some v ->
  Forall (fun x => isZero x = true) v ->
  calcVectorMagnitude doc = Some (l2norm v)
  /\ isZero (l2norm v) = true
  /\ (vectorMag doc = Some (l2norm v) ->
      similarityScore doc queryVector queryMagnitude = Some nan).
Proof.
  intros Hv Hzero. split; [unfold calcVectorMagnitude; rewrite Hv; reflexivity|].
  pose proof (ZeroFacts.l2norm_zero v Hzero) as Hmag. split; [exact Hmag|].
  intros Hcached. unfold similarityScore. rewrite Hv, Hcached. cbn [JS.toNumber default from_option id].
  f_equal. unfold normalizeScore, getCosineSimilarityScore.
  rewrite (ZeroFacts.div_zeroOrNaN (dotProduct v queryVector)).
  - rewrite FloatFacts.add_nan_l, FloatFacts.div_nan_l. reflexivity.
  - apply ZeroFacts.dotProduct_zeroOrNaN. exact Hzero.
  - apply ZeroFacts.mul_zero_l. exact Hmag.
Qed.

(** ** The methods *)
Section More.
Context `{Host}.

Abbreviation Doc := (IVSDocument T).

Lemma shiftWhileOver_Some (s : VectorStorage) (ls ls' : list Loc) :
  shiftWhileOver s ls = Some ls' ->
  overCeiling s ls' = false /\ exists n : nat, ls' = drop n ls.
Proof.
  revert ls'. induction ls as [|l ls IH]; simpl; intros ls' Hs.
  - destruct (overCeiling s []) eqn:Ho; inversion Hs; subst.
    split; [exact Ho | exists 0%nat; reflexivity].
  - destruct (overCeiling s (l :: ls)) eqn:Ho.
    + destruct (IH _ Hs) as [Hn [n ->]]. split; [exact Hn | exists (S n); reflexivity].
    + inversion Hs; subst. split; [exact Ho | exists 0%nat; reflexivity].
Qed.

Lemma shiftWhileOver_None (s : VectorStorage) (ls : list Loc) :
  shiftWhileOver s ls = None ->
  forall m : nat, (m <= length ls)%nat -> overCeiling s (drop m ls) = true.
Proof.
  induction ls as [|l ls IH]; simpl; intros Hs m Hm.
  - rewrite drop_nil. destruct (overCeiling s []); [reflexivity | discriminate].
  - destruct (overCeiling s (l :: ls)) eqn:Ho; [|discriminate].
    destruct m as [|m]; [exact Ho|]. simpl. apply IH; [exact Hs | lia].
Qed.

(** X2.  [removeDocsLRU] never throws, and it fails to return exactly when
    training mode is off and the in-memory set, and every tail of it in
    eviction order down to the empty array, is over the ceiling. *)
Theorem removeDocsLRU_never_returns_iff (s : VectorStorage) :
  (forall e s', removeDocsLRU s <> Throws e s')
  /\ (removeDocsLRU s = Diverges
      <-> trainingMode s = false
          /\ overCeiling s (documents s) = true
          /\ forall m : nat, (m <= length (documents s))%nat ->
                             overCeiling s (drop m (evictionOrder s)) = true).
Proof.
  unfold removeDocsLRU, evictionOrder.
  destruct (trainingMode s) eqn:Ht.
  { split; [discriminate|]. split; [discriminate | intros [? _]; discriminate]. }
  destruct (overCeiling s (documents s)) eqn:Ho.
  2: { split; [discriminate|]. split; [discriminate | intros (_ & ? & _); discriminate]. }
  set (sorted := JS.sort _ (documents s)).
  assert (Hlen : length sorted = length (documents s)) by apply sort_length.
  destruct (shiftWhileOver s sorted) as [ls|] eqn:Hs.
  - split; [discriminate|]. split; [discriminate|].
    intros (_ & _ & Hall). exfalso.
    rewrite shiftWhileOver_none in Hs; [discriminate|].
    intros m Hm. apply Hall. lia.
  - split; [discriminate|]. split; [|reflexivity].
    intros _. repeat split. intros m Hm. apply shiftWhileOver_None; [exact Hs | lia].
Qed.

(** X3.  What [removeDocsLRU] leaves is final: a second pass right after
    changes nothing.  What it keeps is part of what was there, and it
    touches neither the objects nor the backend. *)
Theorem removeDocsLRU_idempotent (s s1 : VectorStorage) :
  removeDocsLRU s = Returns tt s1 ->
  removeDocsLRU s1 = Returns tt s1
  /\ documents s1 ⊆+ documents s
  /\ heap s1 = heap s /\ idb s1 = idb s /\ trace s1 = trace s.
Proof.
  unfold removeDocsLRU at 1.
  destruct (trainingMode s) eqn:Ht.
  { intros Hr. inversion Hr; subst s1. split; [apply removeDocsLRU_training; exact Ht|].
    auto. }
  destruct (overCeiling s (documents s)) eqn:Ho.
  2: { intros Hr. inversion Hr; subst s1. split; [apply removeDocsLRU_under; exact Ho|].
       auto. }
  destruct (shiftWhileOver s _) as [ls|] eqn:Hs; [|discriminate].
  intros Hr. inversion Hr; subst s1. clear Hr.
  destruct (shiftWhileOver_Some _ _ _ Hs) as [Hunder [n Hn]].
  split.
  - apply removeDocsLRU_under. simpl.
    rewrite (overCeiling_ext s) by reflexivity. exact Hunder.
  - simpl. repeat split. rewrite Hn.
    etransitivity; [apply sublist_submseteq, sublist_drop|].
    apply Permutation_submseteq. apply sort_perm.
Qed.

Lemma NoDup_submseteq_inv {A : Type} (l k : list A) : l ⊆+ k -> NoDup k -> NoDup l.
Proof.
  intros Hsub Hk. apply submseteq_Permutation in Hsub. destruct Hsub as [k' Hperm].
  rewrite Hperm in Hk. apply NoDup_app in Hk. tauto.
Qed.

Lemma List_filter_sublist {A : Type} (P : A -> bool) (l : list A) :
  List.filter P l `sublist_of` l.
Proof.
  induction l as [|x l IH]; simpl; [constructor|].
  destruct (P x); [apply sublist_skip | apply sublist_cons]; exact IH.
Qed.

Lemma List_filter_idemp {A : Type} (P : A -> bool) (l : list A) :
  List.filter P (List.filter P l) = List.filter P l.
Proof.
  induction l as [|x l IH]; simpl; [reflexivity|].
  destruct (P x) eqn:Hx; simpl; [rewrite Hx, IH|]; auto.
Qed.

Lemma textsUnique_submseteq (s : VectorStorage) (ls ls' : list Loc) :
  ls' ⊆+ ls -> textsUnique (docsOf s ls) = true -> textsUnique (docsOf s ls') = true.
Proof.
  unfold textsUnique, docsOf. intros Hsub Hu.
  apply bool_decide_eq_true in Hu. apply bool_decide_eq_true.
  eapply NoDup_submseteq_inv; [|exact Hu].
  do 2 apply fmap_submseteq. exact Hsub.
Qed.

Lemma saved_idb (s : VectorStorage) :
  idb (saved s) = if textsUnique (docsOf s (documents s)) then docsOf s (documents s) else idb s.
Proof. unfold saved. destruct (textsUnique _); reflexivity. Qed.

Lemma docsOf_ext (s s' : VectorStorage) (ls : list Loc) :
  heap s' = heap s -> docsOf s' ls = docsOf s ls.
Proof. intros Hh. unfold docsOf, deref. rewrite Hh. reflexivity. Qed.

(** X4.  [deleteDocumentsByMetadata] always returns.  It keeps, in their
    order, exactly the documents whose metadata values do not include the
    id (a document without metadata is always kept); it changes no object
    and evicts nothing; if the texts in memory were distinct the backend
    then holds exactly what is left; and deleting the same id again changes
    nothing more. *)
Theorem deleteDocumentsByMetadata_removes_matching (documentId : string) (s : VectorStorage) :
  exists s1 : VectorStorage,
    deleteDocumentsByMetadata documentId s = Returns tt s1
    /\ (forall l, l ∈ documents s1
                  <-> l ∈ documents s /\ mentions documentId (deref s l) = false)
    /\ documents s1 `sublist_of` documents s
    /\ heap s1 = heap s
    /\ trainingMode s1 = trainingMode s
    /\ (textsUnique (docsOf s (documents s)) = true -> idb s1 = docsOf s1 (documents s1))
    /\ exists s2 : VectorStorage,
         deleteDocumentsByMetadata documentId s1 = Returns tt s2
         /\ documents s2 = documents s1.
Proof.
  rewrite deleteDocumentsByMetadata_run.
  set (kept := List.filter _ (documents s)).
  set (s0 := set_documents kept s).
  destruct (saved_fields s0) as (Hd & Hh & _ & Ht & _).
  exists (saved s0). split; [reflexivity|].
  rewrite Hd, Hh, Ht. simpl.
  split; [|split; [|split; [|split; [|split]]]]; try reflexivity.
  - intros l. unfold kept. rewrite !list_elem_of_In, filter_In, negb_true_iff. reflexivity.
  - apply List_filter_sublist.
  - intros Hu. rewrite saved_idb. simpl.
    assert (Hk : textsUnique (docsOf s0 kept) = true).
    { rewrite (docsOf_ext s) by reflexivity.
      eapply textsUnique_submseteq; [|exact Hu].
      apply sublist_submseteq, List_filter_sublist. }
    rewrite Hk. apply docsOf_ext. rewrite Hh. reflexivity.
  - rewrite deleteDocumentsByMetadata_run. eexists. split; [reflexivity|].
    match goal with |- documents (saved ?x) = _ => destruct (saved_fields x) as (-> & _) end.
    simpl. rewrite Hd. simpl.
    replace (List.filter (fun l => negb (mentions documentId (deref (saved s0) l))) kept)
      with (List.filter (fun l => negb (mentions documentId (deref s l))) kept).
    + apply List_filter_idemp.
    + apply filter_ext. intros l. unfold deref. rewrite Hh. reflexivity.
Qed.

(** X5.  What [saveToIndexDbStorage] has written, a new instance reads back.
    When the texts in memory are distinct, the save commits: the backend
    holds the documents in memory, each once.  An instance constructed
    afterwards on that backend (with an API key or an embedding function)
    holds the records in the order the backend hands them out, which may be
    any order: the same documents as were in memory, each once, whatever its
    ceiling. *)
Theorem save_then_reload (options : IVSOptions) (s : VectorStorage) :
  configured options = true ->
  textsUnique (docsOf s (documents s)) = true ->
  exists s1 : VectorStorage,
    saveToIndexDbStorage s = Returns tt s1
    /\ trace s1 = EvSave true :: trace s
    /\ idb s1 ≡ₚ docsOf s (documents s)
    /\ forall records : list Doc,
         records ≡ₚ idb s1 ->
         exists s2 : VectorStorage,
           constructor options records = Returns tt s2
           /\ docsOf s2 (documents s2) = records
           /\ docsOf s2 (documents s2) ≡ₚ docsOf s (documents s).
Proof.
  intros Hc Hu. rewrite saveToIndexDbStorage_run.
  exists (saved s). split; [reflexivity|].
  split; [unfold saved; rewrite Hu; reflexivity|].
  assert (Hidb : idb (saved s) = docsOf s (documents s)) by (rewrite saved_idb, Hu; reflexivity).
  split; [rewrite Hidb; reflexivity|].
  intros records Hperm. rewrite constructor_run, Hc. eexists. split; [reflexivity|].
  assert (Hload : docsOf
                    (mkVS _ (seq 0 (length records))
                       (default DEFAULT_MAX_SIZE_IN_MB (o_maxSizeInMB options))
                       true true records records 0 [EvGetAll])
                    (seq 0 (length records)) = records).
  { unfold docsOf, deref. cbn [heap]. apply lookup_total_seq. }
  cbn [documents]. rewrite Hload. split; [reflexivity|].
  rewrite Hperm, Hidb. reflexivity.
Qed.

Lemma Forall2_and_r {A B : Type} (P : A -> B -> Prop) (Q : B -> Prop)
    (l : list A) (k : list B) :
  Forall2 P l k -> Forall Q k -> Forall2 (fun x y => P x y /\ Q y) l k.
Proof.
  induction 1 as [|x y l k Hxy _ IH]; intros HQ; [constructor|].
  inversion HQ; subst. constructor; auto.
Qed.

Lemma slice0_length {A : Type} (k : Z) (l : list A) :
  Z.of_nat (length (JS.slice0 k l))
  = if k <? 0 then Z.max 0 (Z.of_nat (length l) + k) else Z.min k (Z.of_nat (length l)).
Proof.
  unfold JS.slice0. destruct (Z.ltb_spec k 0); rewrite length_take; lia.
Qed.

(** A search that returns has gone through every step. *)
Lemma similaritySearch_Returns_inv (params : IVSSimilaritySearchParams)
    (s s' : VectorStorage) (r : SearchResult) :
  wf s ->
  similaritySearch params s = Returns r s' ->
  exists (qe : list float) (rest : list (list float)) (pairs : list (Loc * float))
         (s2 : VectorStorage),
    let top := JS.slice0 (default 4 (k params)) (JS.sort scoreCompare pairs) in
    let s1 :=
      set_heap
        (heap s ++ (hit <$> ((fun p => set_score (Some (snd p)) (deref s (fst p))) <$> top)))
        (set_trace (EvEmbed [query params] :: trace s) s) in
    embedTextsFn [query params] = Some (qe :: rest)
    /\ scoresOf s qe (l2norm qe) (filterDocuments s (documents s) (filterOptions params))
       = Some pairs
    /\ (if (0 <? length top)%nat then removeDocsLRU ;;; saveToIndexDbStorage else ret tt) s1
       = Returns tt s2
    /\ r = {| similarItems := seq (length (heap s)) (length top);
              queryText := query params;
              queryEmbedding := qe |}
    /\ s' = set_heap (heap s ++ (searchCopy s (includeValues params) <$> top)) s2.
Proof.
  intros Hwf Hr.
  destruct (similaritySearch_inv _ _ _ _ Hr) as (qe & rest & pairs & Hembed & Hscores).
  rewrite (similaritySearch_run params s qe rest pairs Hembed Hscores Hwf) in Hr.
  cbv zeta in Hr. rewrite length_seq in Hr.
  exists qe, rest, pairs.
  match type of Hr with
  | match ?t with _ => _ end = _ => destruct t as [[] s2|e s2|] eqn:Htail
  end; [|discriminate|discriminate].
  exists s2. cbv zeta. inversion Hr; subst. repeat split; try assumption.
Qed.

Lemma similaritySearch_total (params : IVSSimilaritySearchParams) (s : VectorStorage)
    (qe : list float) :
  searchReturns params s qe ->
  exists (pairs : list (Loc * float)) (s2 : VectorStorage),
    let top := JS.slice0 (default 4 (k params)) (JS.sort scoreCompare pairs) in
    let s1 :=
      set_heap
        (heap s ++ (hit <$> ((fun p => set_score (Some (snd p)) (deref s (fst p))) <$> top)))
        (set_trace (EvEmbed [query params] :: trace s) s) in
    scoresOf s qe (l2norm qe) (filterDocuments s (documents s) (filterOptions params))
    = Some pairs
    /\ (if (0 <? length top)%nat then removeDocsLRU ;;; saveToIndexDbStorage else ret tt) s1
       = Returns tt s2
    /\ similaritySearch params s
       = Returns {| similarItems := seq (length (heap s)) (length top);
                    queryText := query params;
                    queryEmbedding := qe |}
           (set_heap (heap s ++ (searchCopy s (includeValues params) <$> top)) s2).
Proof.
  intros (Hwf & [rest Hembed] & Hvec & Hend).
  destruct (similaritySearch_returns params s qe rest Hwf Hembed Hvec Hend) as (r & s' & Hr).
  destruct (similaritySearch_Returns_inv _ _ _ _ Hwf Hr)
    as (qe' & rest' & pairs & s2 & Hembed' & Hscores & Htail & -> & ->).
  rewrite Hembed in Hembed'. inversion Hembed'; subst qe' rest'.
  exists pairs, s2. cbv zeta. repeat split; assumption.
Qed.

Lemma filterDocuments_sub (s : VectorStorage) (docs : list Loc)
    (filterOptions : option (option T -> bool)) :
  filterDocuments s docs filterOptions `sublist_of` docs.
Proof.
  unfold filterDocuments. destruct filterOptions; [apply List_filter_sublist | reflexivity].
Qed.

Lemma filterDocuments_elem (s : VectorStorage) (docs : list Loc)
    (filterOptions : option (option T -> bool)) (l : Loc) :
  l ∈ filterDocuments s docs filterOptions -> l ∈ docs.
Proof.
  intros Hl. eapply elem_of_submseteq; [exact Hl|].
  apply sublist_submseteq, filterDocuments_sub.
Qed.

Lemma scoresOf_length (s : VectorStorage) (qv : list float) (qm : float) (ls : list Loc)
    (ps : list (Loc * float)) :
  scoresOf s qv qm ls = Some ps -> length ps = length ls.
Proof.
  intros Hps. destruct (scoresOf_spec _ _ _ _ _ Hps) as [Hfst _].
  rewrite <- Hfst, length_fmap. reflexivity.
Qed.

Lemma lookup_total_old (s : VectorStorage) (extra : list (IVSDocument T)) (l : Loc) :
  (l < length (heap s))%nat -> (heap s ++ extra) !!! l = deref s l.
Proof. intros Hl. unfold deref. apply lookup_total_app_l. exact Hl. Qed.

Lemma wf_elem (s : VectorStorage) (l : Loc) :
  wf s -> l ∈ documents s -> (l < length (heap s))%nat.
Proof. unfold wf. rewrite Forall_forall. auto. Qed.

Lemma top_sources (params : IVSSimilaritySearchParams) (s : VectorStorage)
    (qv : list float) (qm : float) (pairs : list (Loc * float)) :
  scoresOf s qv qm (filterDocuments s (documents s) (filterOptions params)) = Some pairs ->
  Forall (fun p => fst p ∈ filterDocuments s (documents s) (filterOptions params))
    (JS.slice0 (default 4 (k params)) (JS.sort scoreCompare pairs)).
Proof.
  intros Hscores. destruct (scoresOf_spec _ _ _ _ _ Hscores) as [Hfst _].
  rewrite Forall_forall. intros p Hp. rewrite <- Hfst.
  apply list_elem_of_fmap. exists p. split; [reflexivity|].
  eapply sort_elem_of.
  destruct (slice0_take (default 4 (k params)) (JS.sort scoreCompare pairs)) as [n Hn].
  rewrite Hn in Hp. eapply elem_of_submseteq; [exact Hp | apply submseteq_take].
Qed.

(** The objects that a search returns, read in the state it leaves. *)
Lemma search_copies (s s2 : VectorStorage) (includeValues : bool) (top : list (Loc * float)) :
  Forall2
    (fun item p =>
       deref (set_heap (heap s ++ (searchCopy s includeValues <$> top)) s2) item
       = searchCopy s includeValues p)
    (seq (length (heap s)) (length top)) top.
Proof.
  pose proof (lookup_total_new_objects (searchCopy s includeValues <$> top) (heap s)) as Hnew.
  rewrite length_fmap in Hnew. apply Forall2_fmap_r in Hnew. exact Hnew.
Qed.

(** X6.  The number of results.  A search gives [min(k, n)] items for a
    [k >= 0], where [n] is the number of documents that pass the filter and
    [k] is 4 unless the call names it; for a negative [k] it gives all but
    the last [-k] of them.  The items are distinct objects. *)
Theorem similaritySearch_result_count (params : IVSSimilaritySearchParams)
    (s : VectorStorage) (qe : list float) :
  searchReturns params s qe ->
  exists (r : SearchResult) (s' : VectorStorage),
    similaritySearch params s = Returns r s'
    /\ queryText r = query params
    /\ queryEmbedding r = qe
    /\ (let n := Z.of_nat (length (filterDocuments s (documents s) (filterOptions params))) in
        let k := default 4 (k params) in
        Z.of_nat (length (similarItems r))
        = if k <? 0 then Z.max 0 (n + k) else Z.min k n)
    /\ NoDup (similarItems r).
Proof.
  intros Hok.
  destruct (similaritySearch_total _ _ _ Hok) as (pairs & s2 & Hscores & _ & Hrun).
  cbv zeta in Hrun. eexists _, _. split; [exact Hrun|].
  cbn [similarItems queryText queryEmbedding].
  split; [reflexivity|]. split; [reflexivity|]. split; [|apply NoDup_seq].
  cbv zeta.
  rewrite length_seq, slice0_length, sort_length, (scoresOf_length _ _ _ _ _ Hscores).
  reflexivity.
Qed.

(** X7.  A search without results leaves the store alone.  When a search
    returns no item (an empty store, a filter that nothing passes, [k = 0]),
    it neither evicts nor saves: the state changes by the one call of the
    provider in the trace only, also with training mode off and the store
    over its ceiling.  When no document passes the filter such a search
    returns whenever the provider answers. *)
Theorem similaritySearch_no_results (params : IVSSimilaritySearchParams) (s : VectorStorage) :
  wf s ->
  (forall r s',
     similaritySearch params s = Returns r s' ->
     similarItems r = [] ->
     s' = set_trace (EvEmbed [query params] :: trace s) s)
  /\ (forall qe rest,
        embedTextsFn [query params] = Some (qe :: rest) ->
        filterDocuments s (documents s) (filterOptions params) = [] ->
        similaritySearch params s
        = Returns {| similarItems := []; queryText := query params; queryEmbedding := qe |}
            (set_trace (EvEmbed [query params] :: trace s) s)).
Proof.
  intros Hwf. split.
  - intros r s' Hr Hnone.
    destruct (similaritySearch_Returns_inv _ _ _ _ Hwf Hr)
      as (qe & rest & pairs & s2 & _ & _ & Htail & -> & ->).
    cbn [similarItems] in Hnone.
    apply (f_equal (@length _)) in Hnone. rewrite length_seq in Hnone. simpl in Hnone.
    apply nil_length_inv in Hnone. rewrite Hnone in *. simpl in Htail.
    inversion Htail; subst s2. rewrite fmap_nil, !app_nil_r. destruct s; reflexivity.
  - intros qe rest Hembed Hnone.
    rewrite (similaritySearch_run params s qe rest [] Hembed); [|rewrite Hnone; reflexivity|exact Hwf].
    unfold JS.slice0. cbn [JS.sort foldr]. rewrite !take_nil.
    destruct (default 4 (k params) <? 0); cbn [length Nat.ltb Nat.leb ret];
      rewrite !fmap_nil, !app_nil_r; destruct s; reflexivity.
Qed.

(** X8.  What a result carries.  Every item that a search returns is a copy
    of a document that passed the filter: it has that document's text,
    metadata and timestamp, and its [vector] and [vectorMag] if and only if
    the call set [includeValues]; the stored document keeps both either way. *)
Theorem similaritySearch_values_on_request (params : IVSSimilaritySearchParams)
    (s : VectorStorage) (qe : list float) :
  searchReturns params s qe ->
  exists (r : SearchResult) (s' : VectorStorage) (sources : list Loc),
    similaritySearch params s = Returns r s'
    /\ Forall2
         (fun item src =>
            src ∈ filterDocuments s (documents s) (filterOptions params)
            /\ text (deref s' item) = text (deref s src)
            /\ metadata (deref s' item) = metadata (deref s src)
            /\ timestamp (deref s' item) = timestamp (deref s src)
            /\ vector (deref s' item)
               = (if includeValues params then vector (deref s src) else None)
            /\ vectorMag (deref s' item)
               = (if includeValues params then vectorMag (deref s src) else None)
            /\ deref s' src = deref s src)
         (similarItems r) sources.
Proof.
  intros Hok. pose proof Hok as (Hwf & _).
  destruct (similaritySearch_total _ _ _ Hok) as (pairs & s2 & Hscores & _ & Hrun).
  cbv zeta in Hrun.
  pose proof (top_sources params s _ _ _ Hscores) as Hsrc.
  set (top := JS.slice0 _ _) in *.
  eexists _, _, (fst <$> top). split; [exact Hrun|]. cbn [similarItems].
  apply Forall2_fmap_r.
  eapply Forall2_impl;
    [apply (Forall2_and_r _ _ _ _ (search_copies s s2 (includeValues params) top) Hsrc)|].
  intros item p [Hitem Hp]. simpl in Hitem.
  assert (Hlt : (fst p < length (heap s))%nat).
  { apply wf_elem; [exact Hwf|]. eapply filterDocuments_elem. exact Hp. }
  unfold compose. rewrite Hitem.
  set (s' := set_heap _ s2).
  assert (Hderef : forall x, deref s' x
                             = (heap s ++ (searchCopy s (includeValues params) <$> top)) !!! x)
    by reflexivity.
  rewrite !Hderef, (lookup_total_old s) by exact Hlt.
  split; [exact Hp|].
  unfold searchCopy. destruct (includeValues params); simpl; repeat split; reflexivity.
Qed.

Lemma removeDocsLRU_Returns_inv (s s1 : VectorStorage) :
  removeDocsLRU s = Returns tt s1 ->
  exists ls : list Loc,
    s1 = set_documents ls s
    /\ ls ⊆+ documents s
    /\ (trainingMode s = true -> ls = documents s)
    /\ (trainingMode s = false -> overCeiling s ls = false).
Proof.
  unfold removeDocsLRU.
  destruct (trainingMode s) eqn:Ht.
  { intros Hr. inversion Hr; subst s1. exists (documents s).
    rewrite set_documents_same. split; [reflexivity|]. split; [reflexivity|].
    split; [reflexivity | discriminate]. }
  destruct (overCeiling s (documents s)) eqn:Ho.
  2: { intros Hr. inversion Hr; subst s1. exists (documents s).
       rewrite set_documents_same. split; [reflexivity|]. split; [reflexivity|].
       split; [reflexivity | intros _; exact Ho]. }
  destruct (shiftWhileOver s _) as [ls|] eqn:Hs; [|discriminate].
  intros Hr. inversion Hr; subst s1. clear Hr.
  destruct (shiftWhileOver_Some _ _ _ Hs) as [Hunder [n Hn]].
  exists ls. split; [reflexivity|]. split; [|split; [discriminate | intros _; exact Hunder]].
  rewrite Hn. etransitivity; [apply submseteq_drop|].
  apply Permutation_submseteq, sort_perm.
Qed.

(** Where a search can fail. *)
Lemma similaritySearch_early (params : IVSSimilaritySearchParams) (s : VectorStorage) :
  let s0 := set_trace (EvEmbed [query params] :: trace s) s in
  match embedTextsFn [query params] with
  | None => similaritySearch params s = Throws "embedTextsFn rejected" s0
  | Some [] => similaritySearch params s = Throws "TypeError: embedding is undefined" s0
  | Some (qe :: _) =>
      scoresOf s qe (l2norm qe) (filterDocuments s (documents s) (filterOptions params)) = None ->
      similaritySearch params s = Throws "TypeError: doc.vector is undefined" s0
  end.
Proof.
  cbv zeta. unfold similaritySearch, embedText, callEmbedTextsFn.
  cbn [bind emit modify get ret].
  destruct (embedTextsFn [query params]) as [[|qe rest]|]; try reflexivity.
  intros Hscores.
  cbn [bind emit modify get ret lookup list_lookup calculateMagnitude default from_option id].
  set (s0 := set_trace (EvEmbed [query params] :: trace s) s).
  change (filterDocuments s0 (documents s0) (filterOptions params))
    with (filterDocuments s (documents s) (filterOptions params)).
  unfold bind at 1. rewrite calculateSimilarityScores_run.
  rewrite (scoresOf_ext s s0) by reflexivity. rewrite Hscores. reflexivity.
Qed.

Lemma scoresOf_None (s : VectorStorage) (qv : list float) (qm : float) (ls : list Loc) :
  scoresOf s qv qm ls = None <-> Exists (fun l => vector (deref s l) = None) ls.
Proof.
  induction ls as [|l ls IH]; simpl.
  - split; [discriminate | intros Hex; inversion Hex].
  - unfold similarityScore at 1. destruct (vector (deref s l)) as [v|] eqn:Hv.
    + destruct (scoresOf s qv qm ls) as [ps|].
      * split; [discriminate|]. intros Hex. inversion Hex; subst; [congruence|].
        exfalso. assert (Hn : Some ps = None) by (apply IH; assumption). discriminate.
      * split; [|reflexivity]. intros _. right. apply IH. reflexivity.
    + split; [|reflexivity]. intros _. left. exact Hv.
Qed.

Lemma similaritySearch_Throws_inv (params : IVSSimilaritySearchParams)
    (s s' : VectorStorage) (e : string) :
  wf s ->
  similaritySearch params s = Throws e s' ->
  s' = set_trace (EvEmbed [query params] :: trace s) s.
Proof.
  intros Hwf Hthrow. pose proof (similaritySearch_early params s) as Hearly.
  cbv zeta in Hearly.
  destruct (embedTextsFn [query params]) as [[|qe rest]|] eqn:Hembed;
    try (rewrite Hearly in Hthrow; inversion Hthrow; reflexivity).
  destruct (scoresOf s qe (l2norm qe)
              (filterDocuments s (documents s) (filterOptions params)))
    as [pairs|] eqn:Hscores.
  - exfalso.
    rewrite (similaritySearch_run params s qe rest pairs Hembed Hscores Hwf) in Hthrow.
    cbv zeta in Hthrow.
    match type of Hthrow with
    | match (if ?b then _ else _) ?st with _ => _ end = _ =>
        pose proof (evictAndSave_shape st) as Hshape; destruct b
    end.
    + destruct ((removeDocsLRU ;;; saveToIndexDbStorage) _);
        [discriminate | contradiction | discriminate].
    + discriminate.
  - rewrite (Hearly eq_refl) in Hthrow. inversion Hthrow; reflexivity.
Qed.

(** X9.  A search that fails changes nothing.  [similaritySearch] throws
    when the provider rejects, when it returns no vector, and when a
    document that passes the filter has no vector; whenever it throws, the
    state is as before but for the call of the provider in the trace: no
    result object, no eviction, no save. *)
Theorem similaritySearch_failure_changes_nothing
    (params : IVSSimilaritySearchParams) (s : VectorStorage) :
  wf s ->
  let s0 := set_trace (EvEmbed [query params] :: trace s) s in
  (forall e s', similaritySearch params s = Throws e s' -> s' = s0)
  /\ (embedTextsFn [query params] = None ->
      similaritySearch params s = Throws "embedTextsFn rejected" s0)
  /\ (embedTextsFn [query params] = Some [] ->
      similaritySearch params s = Throws "TypeError: embedding is undefined" s0)
  /\ (forall qe rest,
        embedTextsFn [query params] = Some (qe :: rest) ->
        Exists (fun l => vector (deref s l) = None)
          (filterDocuments s (documents s) (filterOptions params)) ->
        similaritySearch params s = Throws "TypeError: doc.vector is undefined" s0).
Proof.
  intros Hwf. cbv zeta. pose proof (similaritySearch_early params s) as Hearly.
  cbv zeta in Hearly.
  split; [|split; [|split]].
  - intros e s' Hthrow. eapply similaritySearch_Throws_inv; eassumption.
  - intros Hembed. rewrite Hembed in Hearly. exact Hearly.
  - intros Hembed. rewrite Hembed in Hearly. exact Hearly.
  - intros qe rest Hembed Hex. rewrite Hembed in Hearly. apply Hearly.
    apply scoresOf_None. exact Hex.
Qed.

Lemma docsOf_old (s s' : VectorStorage) (extra : list (IVSDocument T)) (ls : list Loc) :
  heap s' = heap s ++ extra ->
  Forall (fun l => (l < length (heap s))%nat) ls ->
  docsOf s' ls = docsOf s ls.
Proof.
  intros Hh Hlt. unfold docsOf. apply Forall_fmap_ext_1.
  eapply Forall_impl; [exact Hlt|]. intros l Hl. simpl.
  unfold deref at 1. rewrite Hh. apply lookup_total_old. exact Hl.
Qed.

Lemma overCeiling_old (s s' : VectorStorage) (extra : list (IVSDocument T)) (ls : list Loc) :
  heap s' = heap s ++ extra ->
  maxSizeInMB s' = maxSizeInMB s ->
  Forall (fun l => (l < length (heap s))%nat) ls ->
  overCeiling s' ls = overCeiling s ls.
Proof.
  intros Hh Hm Hlt. unfold overCeiling. rewrite Hm, (docsOf_old s s' extra) by assumption.
  reflexivity.
Qed.

(** X10.  A search evicts.  With training mode off, a search that returns
    at least one item runs the eviction pass: afterwards the in-memory set
    is not over the ceiling, and it is part of what was in memory before.  A
    search that returns no item keeps the set as it is. *)
Theorem similaritySearch_evicts (params : IVSSimilaritySearchParams)
    (s : VectorStorage) (qe : list float) :
  searchReturns params s qe ->
  trainingMode s = false ->
  exists (r : SearchResult) (s' : VectorStorage),
    similaritySearch params s = Returns r s'
    /\ documents s' ⊆+ documents s
    /\ (similarItems r <> [] ->
        overCeiling s' (documents s') = false
        /\ (sizesAreNumbers s' (documents s') -> withinCeiling s' (documents s') = true))
    /\ (similarItems r = [] -> documents s' = documents s).
Proof.
  intros Hok Htrain. pose proof Hok as (Hwf & _).
  destruct (similaritySearch_total _ _ _ Hok) as (pairs & s2 & Hscores & Htail & Hrun).
  cbv zeta in Hrun, Htail.
  set (top := JS.slice0 _ _) in *.
  set (s1 := set_heap _ (set_trace _ s)) in Htail.
  eexists _, _. split; [exact Hrun|]. cbn [similarItems documents set_heap].
  destruct (0 <? length top)%nat eqn:Hlen.
  - unfold bind in Htail.
    destruct (removeDocsLRU s1) as [[] s1'|e s1'|] eqn:Hevict; try discriminate.
    rewrite saveToIndexDbStorage_run in Htail. inversion Htail; subst s2. clear Htail.
    destruct (removeDocsLRU_Returns_inv _ _ Hevict) as (ls & -> & Hsub & _ & Hunder).
    specialize (Hunder Htrain).
    destruct (saved_fields (set_documents ls s1)) as (Hd & Hh & Hm & _).
    rewrite Hd. cbn [documents set_documents].
    assert (Hlt : Forall (fun l => (l < length (heap s))%nat) ls).
    { rewrite Forall_forall. intros l Hl. apply wf_elem; [exact Hwf|].
      eapply elem_of_submseteq; [exact Hl | exact Hsub]. }
    split; [exact Hsub|]. split.
    + intros _.
      set (s' := set_heap _ (saved _)).
      assert (Hover : overCeiling s' ls = false).
      { rewrite (overCeiling_old s s' _ ls eq_refl) by (try exact Hlt; exact Hm).
        rewrite <- (overCeiling_old s s1 _ ls eq_refl eq_refl Hlt). exact Hunder. }
      split; [exact Hover|]. intros Hnum. apply not_over_withinCeiling; assumption.
    + intros Hnil. apply (f_equal (@length _)) in Hnil. rewrite length_seq in Hnil.
      simpl in Hnil. rewrite Hnil in Hlen. discriminate.
  - inversion Htail; subst s2. cbn [documents set_heap set_trace].
    split; [reflexivity|]. split; [|reflexivity].
    intros Hne. exfalso. apply Hne.
    apply Nat.ltb_ge in Hlen. assert (length top = 0%nat) as -> by lia. reflexivity.
Qed.

(** X11.  A search returns the best.  The pairs of document and score split
    into the items returned and the rest; each item carries its score, and
    when no score is NaN no document left out scores higher than a document
    returned. *)
Theorem similaritySearch_returns_best (params : IVSSimilaritySearchParams)
    (s : VectorStorage) (qe : list float) :
  searchReturns params s qe ->
  exists (r : SearchResult) (s' : VectorStorage) (top rest : list (Loc * float)),
    similaritySearch params s = Returns r s'
    /\ fst <$> (top ++ rest) ≡ₚ filterDocuments s (documents s) (filterOptions params)
    /\ Forall (fun p => similarityScore (deref s (fst p)) qe (l2norm qe) = Some (snd p))
         (top ++ rest)
    /\ Forall2 (fun item p => score (deref s' item) = Some (snd p)
                              /\ text (deref s' item) = text (deref s (fst p)))
         (similarItems r) top
    /\ (Forall (fun p => JS.isNaN (snd p) = false) (top ++ rest) ->
        Forall (fun p => Forall (fun q => (snd q <=? snd p)%float = true) rest) top).
Proof.
  intros Hok. pose proof Hok as (Hwf & _).
  destruct (similaritySearch_total _ _ _ Hok) as (pairs & s2 & Hscores & _ & Hrun).
  cbv zeta in Hrun.
  pose proof (top_sources params s _ _ _ Hscores) as Hsrc.
  destruct (scoresOf_spec _ _ _ _ _ Hscores) as [Hfst Hall].
  destruct (slice0_take (default 4 (k params)) (JS.sort scoreCompare pairs)) as [n Hn].
  rewrite Hn in Hrun, Hsrc.
  set (sorted := JS.sort scoreCompare pairs) in *.
  assert (Hperm : take n sorted ++ drop n sorted ≡ₚ pairs).
  { rewrite take_drop. apply sort_perm. }
  eexists _, _, (take n sorted), (drop n sorted). split; [exact Hrun|].
  cbn [similarItems].
  split; [rewrite Hperm, Hfst; reflexivity|].
  split; [rewrite Hperm; exact Hall|].
  split.
  - eapply Forall2_impl;
      [apply (Forall2_and_r _ _ _ _
                (search_copies s s2 (includeValues params) (take n sorted)) Hsrc)|].
    intros item p [Hitem Hp]. simpl in Hitem. rewrite Hitem.
    assert (Hlt : (fst p < length (heap s))%nat).
    { apply wf_elem; [exact Hwf|]. eapply filterDocuments_elem. exact Hp. }
    unfold searchCopy. destruct (includeValues params); split; reflexivity.
  - intros Hnan. rewrite Hperm in Hnan.
    pose proof (score_sort_descending pairs Hnan) as Hsorted. fold sorted in Hsorted.
    rewrite <- (take_drop n sorted) in Hsorted.
    rewrite Forall_forall. intros p Hp. rewrite Forall_forall. intros q Hq.
    exact (StronglySorted_app_1_elem_of _ _ _ _ _ Hsorted Hp Hq).
Qed.

Lemma sameButValues_refl (d : Doc) : sameButValues d d.
Proof. repeat split. Qed.

Lemma sameButValues_trans (a b c : Doc) :
  sameButValues a b -> sameButValues b c -> sameButValues a c.
Proof. unfold sameButValues. intuition congruence. Qed.

Lemma alter_sameButValues (f : Doc -> Doc) (i : nat) (h : list Doc) (l : Loc) :
  (forall x, sameButValues x (f x)) -> sameButValues (h !!! l) (alter f i h !!! l).
Proof.
  intros Hf. rewrite list_lookup_total_alter.
  destruct (decide _) as [[-> _]|_]; [apply Hf | apply sameButValues_refl].
Qed.

Lemma assignVectors_sameButValues (newVectors : list (list float)) (docs : list Loc) (l : Loc) :
  forall (index : nat) (h : list Doc),
    sameButValues (h !!! l) (fst (assignVectors newVectors index docs h) !!! l).
Proof.
  induction docs as [|doc rest IH]; intros index h; simpl; [apply sameButValues_refl|].
  destruct (newVectors !! index); simpl.
  - eapply sameButValues_trans; [|apply IH].
    eapply sameButValues_trans; apply alter_sameButValues; intros x; repeat split.
  - apply alter_sameButValues. intros x. repeat split.
Qed.

Lemma assignVectors_assigned (newVectors : list (list float)) (docs : list Loc) :
  forall (index : nat) (h : list Doc),
    NoDup docs ->
    Forall (fun l => (l < length h)%nat) docs ->
    snd (assignVectors newVectors index docs h) = true ->
    Forall2 (fun l v =>
               vector (fst (assignVectors newVectors index docs h) !!! l) = Some v
               /\ vectorMag (fst (assignVectors newVectors index docs h) !!! l)
                  = Some (l2norm v))
      docs (take (length docs) (drop index newVectors)).
Proof.
  induction docs as [|doc rest IH]; intros index h Hnd Hlt Hok; simpl in *; [constructor|].
  apply NoDup_cons in Hnd. destruct Hnd as [Hnotin Hnd].
  inversion Hlt as [|? ? Hdoc Hrest]; subst.
  destruct (newVectors !! index) as [v|] eqn:Hv; [|discriminate].
  rewrite (drop_S _ _ _ Hv). simpl. constructor.
  - rewrite assignVectors_frame_total by exact Hnotin.
    rewrite list_lookup_total_alter_eq by (rewrite length_alter; exact Hdoc).
    rewrite list_lookup_total_alter_eq by exact Hdoc. split; reflexivity.
  - apply IH; [exact Hnd | | exact Hok].
    rewrite !length_alter. exact Hrest.
Qed.

Lemma assignVectors_snd (newVectors : list (list float)) (docs : list Loc) :
  forall (index : nat) (h : list Doc),
    snd (assignVectors newVectors index docs h) = true ->
    (length docs <= length newVectors - index)%nat.
Proof.
  induction docs as [|doc rest IH]; intros index h Hok; simpl in *; [lia|].
  destruct (newVectors !! index) as [v|] eqn:Hv; [|discriminate].
  apply lookup_lt_Some in Hv. apply IH in Hok. lia.
Qed.

Lemma saved_trace (s : VectorStorage) :
  EvSave false ∈ trace (saved s) ->
  EvSave false ∈ trace s \/ textsUnique (docsOf s (documents s)) = false.
Proof.
  unfold saved. destruct (textsUnique _); cbn [trace set_trace]; [|auto].
  intros Hin. left. apply elem_of_cons in Hin. destruct Hin as [Hin|Hin]; [discriminate|].
  exact Hin.
Qed.

Ltac skip_events :=
  repeat match goal with
    | Hin : _ ∈ trace _ |- _ =>
        progress cbn [trace set_trace set_heap set_documents set_ticks] in Hin
    | Hin : _ ∈ _ :: _ |- _ =>
        apply elem_of_cons in Hin; destruct Hin as [Hin|Hin]; [discriminate|]
    end.

(** What [addDocuments] leaves, by outcome. *)
Lemma addDocuments_outcome (docs : list Loc) (s : VectorStorage) :
  Forall (fun l => (l < length (heap s))%nat) docs ->
  let new := List.filter (isNewDocument s (text <$> idb s)) docs in
  match addDocuments docs s with
  | Returns inserted s' =>
      inserted = new
      /\ length (heap s') = length (heap s)
      /\ (forall l, sameButValues (deref s l) (deref s' l))
      /\ (forall l, l ∉ new -> deref s' l = deref s l)
      /\ documents s' ⊆+ documents s ++ new
      /\ (trainingMode s = true -> documents s' = documents s ++ new)
      /\ trainingMode s' = trainingMode s
      /\ (new = [] -> documents s' = documents s /\ idb s' = idb s)
      /\ (new <> [] ->
          idb s' = (if textsUnique (docsOf s' (documents s'))
                    then docsOf s' (documents s') else idb s)
          /\ (trainingMode s = false -> overCeiling s' (documents s') = false)
          /\ exists vs,
               embedTextsFn ((fun l => text (deref s l)) <$> new) = Some vs
               /\ heap s' = fst (assignVectors vs 0 new (heap s))
               /\ snd (assignVectors vs 0 new (heap s)) = true)
      /\ (EvSave false ∈ trace s' ->
          EvSave false ∈ trace s \/ textsUnique (docsOf s' (documents s')) = false)
  | Throws e s' =>
      documents s' = documents s /\ idb s' = idb s /\ trainingMode s' = trainingMode s
      /\ length (heap s') = length (heap s)
      /\ (forall l, l ∉ new -> deref s' l = deref s l)
      /\ (EvSave false ∈ trace s' -> EvSave false ∈ trace s)
  | Diverges => True
  end.
Proof.
  intros Hlt. cbv zeta. rewrite addDocuments_cases by exact Hlt. cbv zeta.
  set (new := List.filter _ docs).
  destruct (db s); cbn [negb].
  2: { repeat split; auto. }
  destruct (length new =? 0)%nat eqn:Hlen.
  { apply Nat.eqb_eq in Hlen. apply nil_length_inv in Hlen. rewrite Hlen.
    cbn [documents set_trace idb heap trainingMode].
    split; [reflexivity|]. split; [reflexivity|].
    split; [intros l; apply sameButValues_refl|]. split; [reflexivity|].
    split; [rewrite app_nil_r; reflexivity|]. split; [rewrite app_nil_r; reflexivity|].
    split; [reflexivity|]. split; [auto|]. split; [intros Hne; congruence|].
    intros Hin. skip_events. left. exact Hin. }
  assert (Hnew : new <> []).
  { intros Hnil. rewrite Hnil in Hlen. discriminate. }
  destruct (embedTextsFn _) as [vs|] eqn:Hvs.
  2: { cbn [documents set_trace idb heap trainingMode trace]. repeat split.
       intros Hin. skip_events. exact Hin. }
  pose proof (assignVectors_length vs new 0 (heap s)) as Hlenh.
  pose proof (fun l => assignVectors_sameButValues vs new l 0 (heap s)) as Hsame.
  pose proof (fun l => assignVectors_frame_total vs new l 0 (heap s)) as Hframe.
  destruct (assignVectors vs 0 new (heap s)) as [h ok] eqn:Hassign. simpl in Hlenh, Hsame, Hframe.
  destruct ok.
  2: { cbn [documents set_heap set_trace idb heap trainingMode trace].
       repeat split; try assumption. intros Hin. skip_events. exact Hin. }
  set (s1 := set_documents _ (set_heap h _)).
  rewrite evictSaveRet_run. unfold bind.
  destruct (removeDocsLRU s1) as [[] s2|e s2|] eqn:Hevict; [| |exact I].
  2: { pose proof (removeDocsLRU_shape s1) as Hshape. rewrite Hevict in Hshape.
       contradiction. }
  rewrite saveToIndexDbStorage_run.
  destruct (removeDocsLRU_Returns_inv _ _ Hevict) as (ls & -> & Hsub & Hall & Hunder).
  destruct (saved_fields (set_documents ls s1)) as (Hd & Hh & Hm & Ht & _).
  assert (Hderef : forall l, deref (saved (set_documents ls s1)) l = h !!! l).
  { intros l. unfold deref. rewrite Hh. reflexivity. }
  split; [reflexivity|]. rewrite Hh, Hd, Ht. cbn [heap documents set_documents s1 set_heap trainingMode set_trace].
  split; [exact Hlenh|].
  split; [intros l; rewrite Hderef; apply Hsame|].
  split; [intros l Hl; rewrite Hderef; apply Hframe; exact Hl|].
  split; [exact Hsub|]. split; [exact Hall|]. split; [reflexivity|].
  split; [intros Hnil; congruence|].
  split.
  2: { intros Hin. apply saved_trace in Hin.
       rewrite (docsOf_ext _ (saved (set_documents ls s1))) by exact Hh.
       destruct Hin as [Hin|Hin]; [left | right; exact Hin].
       cbn [trace set_documents s1 set_heap set_trace] in Hin. skip_events. exact Hin. }
  intros _. split; [|split].
  - rewrite saved_idb. rewrite (docsOf_ext _ (saved (set_documents ls s1))) by exact Hh.
    reflexivity.
  - intros Htrain. rewrite (overCeiling_ext (set_documents ls s1)) by assumption.
    apply Hunder. exact Htrain.
  - exists vs. rewrite Hassign. repeat split.
Qed.

Lemma List_filter_fmap {A B : Type} (f : A -> B) (P : B -> bool) (l : list A) :
  List.filter P (f <$> l) = f <$> List.filter (fun x => P (f x)) l.
Proof.
  induction l as [|x l IH]; [reflexivity|].
  rewrite fmap_cons. cbn [List.filter].
  destruct (P (f x)); [rewrite fmap_cons|]; rewrite IH; reflexivity.
Qed.

Lemma existsb_ext_elem {A : Type} (f g : A -> bool) (l : list A) :
  (forall x, x ∈ l -> f x = g x) -> existsb f l = existsb g l.
Proof.
  induction l as [|x l IH]; intros Hfg; [reflexivity|].
  cbn [existsb]. rewrite (Hfg x) by left. rewrite IH; [reflexivity|].
  intros y Hy. apply Hfg. right. exact Hy.
Qed.

Lemma List_filter_NoDup {A : Type} (P : A -> bool) (l : list A) :
  NoDup l -> NoDup (List.filter P l).
Proof. intros Hnd. eapply sublist_NoDup; [exact Hnd | apply List_filter_sublist]. Qed.

(** The state in which [addText] and [addTexts] call [addDocuments]: the
    candidates are new objects at the end of the object store. *)
Lemma addTexts_run (texts : list string) (metadatas : list T) (s : VectorStorage) :
  length texts = length metadatas ->
  addTexts texts metadatas s
  = addDocuments (seq (length (heap s)) (length texts))
      (set_ticks (ticks s + length texts)
         (set_heap (heap s ++ newDocuments (ticks s) (zip texts metadatas)) s)).
Proof.
  intros Hlen. unfold addTexts. rewrite (proj2 (Nat.eqb_eq _ _) Hlen). cbn [negb].
  unfold bind. rewrite mapM_newDocument.
  rewrite length_zip, <- Hlen, Nat.min_id. reflexivity.
Qed.

Lemma addText_as_addTexts (text0 : string) (metadata0 : T) (s : VectorStorage) :
  addText text0 metadata0 s
  = match addTexts [text0] [metadata0] s with
    | Returns docs s' => Returns (docs !! 0%nat) s'
    | Throws e s' => Throws e s'
    | Diverges => Diverges
    end.
Proof.
  rewrite addTexts_run by reflexivity.
  unfold addText, newDocument, bind, now, alloc. cbn [newDocuments zip zip_with length seq].
  cbn [ticks heap set_heap set_ticks].
  replace (ticks s + 1)%nat with (S (ticks s)) by lia.
  match goal with
  | |- match addDocuments ?d ?st with _ => _ end = match addDocuments ?d' ?st' with _ => _ end =>
      replace st' with st by (destruct s; reflexivity)
  end.
  destruct (addDocuments _ _); reflexivity.
Qed.

Lemma filter_seq_new (P : Doc -> bool) (cs : list Doc) :
  forall pre : list Doc,
    (fun l => (pre ++ cs) !!! l)
      <$> List.filter (fun l => P ((pre ++ cs) !!! l)) (seq (length pre) (length cs))
    = List.filter P cs.
Proof.
  induction cs as [|c cs IH]; intros pre; [reflexivity|].
  assert (Hc : (pre ++ c :: cs) !!! length pre = c).
  { rewrite lookup_total_app_r, Nat.sub_diag by lia. reflexivity. }
  specialize (IH (pre ++ [c])). rewrite <- app_assoc in IH.
  rewrite length_app in IH. cbn [length app] in IH. rewrite Nat.add_1_r in IH.
  cbn [length seq List.filter]. rewrite Hc.
  destruct (P c); cbn [List.filter]; [rewrite fmap_cons, Hc|]; rewrite IH; reflexivity.
Qed.

Lemma newDocuments_pairs (p : string -> bool) (tms : list (string * T)) :
  forall tick,
    (fun d => (text d, metadata d))
      <$> List.filter (fun d => p (text d)) (newDocuments tick tms)
    = (fun tm => (fst tm, Some (snd tm))) <$> List.filter (fun tm => p (fst tm)) tms.
Proof.
  induction tms as [|[t m] tms IH]; intros tick; [reflexivity|].
  cbn [newDocuments List.filter text fst].
  destruct (p t); [rewrite !fmap_cons|]; rewrite IH; reflexivity.
Qed.

Lemma newDocuments_texts (tms : list (string * T)) :
  forall tick, text <$> newDocuments tick tms = fst <$> tms.
Proof.
  induction tms as [|[t m] tms IH]; intros tick; [reflexivity|].
  cbn [newDocuments]. rewrite !fmap_cons, IH. reflexivity.
Qed.

(** The filter of [addDocuments] on a candidate reads its text only. *)
Lemma isNewDocument_candidate (s s1 : VectorStorage) (extra : list Doc) (l : Loc) :
  wf s ->
  heap s1 = heap s ++ extra -> documents s1 = documents s -> idb s1 = idb s ->
  isNewDocument s1 (text <$> idb s1) l = isNewText s (text (deref s1 l)).
Proof.
  intros Hwf Hh Hd Hi. unfold isNewDocument, isNewText. rewrite Hd, Hi.
  f_equal. f_equal. f_equal.
  apply existsb_ext_elem. intros d Hd'. f_equal.
  unfold deref at 1. rewrite Hh. rewrite (lookup_total_old s); [reflexivity|].
  apply wf_elem; [exact Hwf | exact Hd'].
Qed.

(** The candidates of [addTexts] that pass the filter of [addDocuments]. *)
Lemma addTexts_new (texts : list string) (metadatas : list T) (s : VectorStorage) :
  wf s ->
  length texts = length metadatas ->
  let s1 := set_ticks (ticks s + length texts)
              (set_heap (heap s ++ newDocuments (ticks s) (zip texts metadatas)) s) in
  let docs := seq (length (heap s)) (length texts) in
  let new := List.filter (isNewDocument s1 (text <$> idb s1)) docs in
  Forall (fun l => (l < length (heap s1))%nat) docs
  /\ NoDup new
  /\ Forall (fun l => (length (heap s) <= l < length (heap s1))%nat) new
  /\ docsOf s1 new
     = List.filter (fun d => isNewText s (text d)) (newDocuments (ticks s) (zip texts metadatas))
  /\ (fun l => text (deref s1 l)) <$> new = List.filter (isNewText s) texts.
Proof.
  intros Hwf Hlen. cbv zeta.
  set (cands := newDocuments (ticks s) (zip texts metadatas)).
  set (s1 := set_ticks _ (set_heap _ s)).
  assert (Hcands : length cands = length texts).
  { unfold cands. rewrite newDocuments_length, length_zip, <- Hlen, Nat.min_id. reflexivity. }
  assert (Hdocs : Forall (fun l => (length (heap s) <= l < length (heap s1))%nat)
                    (seq (length (heap s)) (length texts))).
  { rewrite Forall_forall. intros l Hl. apply elem_of_seq in Hl.
    cbn [heap s1 set_ticks set_heap]. rewrite length_app, Hcands. lia. }
  assert (Hfilter : List.filter (isNewDocument s1 (text <$> idb s1))
                      (seq (length (heap s)) (length texts))
                    = List.filter (fun l => isNewText s (text ((heap s ++ cands) !!! l)))
                        (seq (length (heap s)) (length texts))).
  { apply filter_ext. intros l.
    apply (isNewDocument_candidate s s1 cands l Hwf); reflexivity. }
  rewrite Hfilter.
  assert (Hdocs' : docsOf s1 (List.filter (fun l => isNewText s (text ((heap s ++ cands) !!! l)))
                                (seq (length (heap s)) (length texts)))
                   = List.filter (fun d => isNewText s (text d)) cands).
  { rewrite <- Hcands. apply (filter_seq_new (fun d => isNewText s (text d)) cands (heap s)). }
  split; [eapply Forall_impl; [exact Hdocs | simpl; intros; lia]|].
  split; [apply List_filter_NoDup, NoDup_seq|].
  split.
  { rewrite Forall_forall. intros l Hl. rewrite Forall_forall in Hdocs. apply Hdocs.
    eapply elem_of_submseteq; [exact Hl|]. apply sublist_submseteq, List_filter_sublist. }
  split; [exact Hdocs'|].
  change (fun l => text (deref s1 l)) with (text ∘ deref s1).
  rewrite list_fmap_compose.
  match goal with
  | |- context [deref s1 <$> ?x] => change (deref s1 <$> x) with (docsOf s1 x)
  end.
  rewrite Hdocs'.
  rewrite <- (List_filter_fmap text (isNewText s)).
  unfold cands. rewrite newDocuments_texts, fst_zip by lia. reflexivity.
Qed.

(** What [addTexts] leaves, by outcome. *)
Lemma addTexts_outcome (texts : list string) (metadatas : list T) (s : VectorStorage) :
  wf s ->
  length texts = length metadatas ->
  match addTexts texts metadatas s with
  | Returns inserted s' =>
      wf s'
      /\ trainingMode s' = trainingMode s
      /\ (forall l, l ∈ documents s -> deref s' l = deref s l)
      /\ documents s' ⊆+ documents s ++ inserted
      /\ (trainingMode s = true -> documents s' = documents s ++ inserted)
      /\ NoDup inserted
      /\ Forall (fun l => l ∉ documents s) inserted
      /\ (fun d => (text d, metadata d)) <$> docsOf s' inserted
         = (fun tm => (fst tm, Some (snd tm)))
             <$> List.filter (fun tm => isNewText s (fst tm)) (zip texts metadatas)
      /\ (inserted = [] -> documents s' = documents s /\ idb s' = idb s)
      /\ (inserted <> [] ->
          idb s' = (if textsUnique (docsOf s' (documents s'))
                    then docsOf s' (documents s') else idb s)
          /\ (trainingMode s = false -> overCeiling s' (documents s') = false)
          /\ exists vs,
               embedTextsFn (List.filter (isNewText s) texts) = Some vs
               /\ Forall2 (fun d v => vector d = Some v /\ vectorMag d = Some (l2norm v))
                    (docsOf s' inserted) (take (length inserted) vs))
      /\ (EvSave false ∈ trace s' ->
          EvSave false ∈ trace s \/ textsUnique (docsOf s' (documents s')) = false)
  | Throws e s' =>
      wf s'
      /\ documents s' = documents s /\ idb s' = idb s /\ trainingMode s' = trainingMode s
      /\ (forall l, l ∈ documents s -> deref s' l = deref s l)
      /\ (EvSave false ∈ trace s' -> EvSave false ∈ trace s)
  | Diverges => True
  end.
Proof.
  intros Hwf Hlen. rewrite addTexts_run by exact Hlen.
  destruct (addTexts_new texts metadatas s Hwf Hlen) as (Hdocs & Hnd & Hrange & Hnew & Htexts).
  cbv zeta in Hdocs, Hnd, Hrange, Hnew, Htexts.
  set (s1 := set_ticks _ (set_heap _ s)) in *.
  set (docs := seq (length (heap s)) (length texts)) in *.
  pose proof (addDocuments_outcome docs s1 Hdocs) as Hout. cbv zeta in Hout.
  set (new := List.filter (isNewDocument s1 (text <$> idb s1)) docs) in *.
  assert (Hold : forall l, l ∈ documents s -> (l ∉ new) /\ deref s1 l = deref s l).
  { intros l Hl. pose proof (wf_elem s l Hwf Hl) as Hlt. split.
    - intros Hin. rewrite Forall_forall in Hrange. apply Hrange in Hin. lia.
    - unfold deref at 1. cbn [heap s1 set_ticks set_heap]. apply lookup_total_old. exact Hlt. }
  assert (Hfresh : Forall (fun l => l ∉ documents s) new).
  { rewrite Forall_forall. intros l Hl Hin. apply Hold in Hin. tauto. }
  assert (Hlen1 : (length (heap s) <= length (heap s1))%nat).
  { cbn [heap s1 set_ticks set_heap]. rewrite length_app. lia. }
  destruct (addDocuments docs s1) as [inserted s'|e s'|]; [| |exact I].
  - destruct Hout as (-> & Hh & Hsame & Hframe & Hsub & Happ & Ht & Hnil & Hcons & Htrace).
    assert (Hwf' : wf s').
    { unfold wf. rewrite Forall_forall. intros l Hl. rewrite Hh.
      eapply elem_of_submseteq in Hl; [|exact Hsub].
      apply elem_of_app in Hl. destruct Hl as [Hl|Hl].
      - apply (wf_elem s l Hwf) in Hl. lia.
      - rewrite Forall_forall in Hrange. apply Hrange in Hl. lia. }
    split; [exact Hwf'|]. split; [exact Ht|].
    split.
    { intros l Hl. destruct (Hold l Hl) as [Hnotin Hderef].
      rewrite Hframe by exact Hnotin. exact Hderef. }
    split; [exact Hsub|]. split; [exact Happ|]. split; [exact Hnd|]. split; [exact Hfresh|].
    split.
    { transitivity ((fun d => (text d, metadata d)) <$> docsOf s1 new).
      - unfold docsOf. rewrite <- !list_fmap_compose. apply list_fmap_ext.
        intros i l _. simpl. destruct (Hsame l) as (-> & -> & _). reflexivity.
      - rewrite Hnew. apply newDocuments_pairs. }
    split; [exact Hnil|]. split; [|exact Htrace].
    intros Hne. destruct (Hcons Hne) as (Hidb & Hunder & vs & Hvs & Hheap & Hok).
    split; [exact Hidb|]. split; [exact Hunder|].
    exists vs. split; [rewrite <- Htexts; exact Hvs|].
    pose proof (assignVectors_assigned vs new 0 (heap s1) Hnd) as Hassigned.
    rewrite <- Hheap in Hassigned. rewrite drop_0 in Hassigned.
    unfold docsOf. apply Forall2_fmap_l. apply Hassigned; [|exact Hok].
    eapply Forall_impl; [exact Hrange|]. simpl. intros; lia.
  - destruct Hout as (Hd & Hi & Ht & Hh & Hframe & Htrace).
    split.
    { unfold wf. rewrite Hd, Hh. eapply Forall_impl; [exact Hwf|].
      intros l Hl. cbv beta in Hl |- *. lia. }
    split; [exact Hd|]. split; [exact Hi|]. split; [exact Ht|].
    split; [|exact Htrace].
    intros l Hl. destruct (Hold l Hl) as [Hnotin Hderef].
    rewrite Hframe by exact Hnotin. exact Hderef.
Qed.

(** [addTexts] by the answer of the provider. *)
Lemma addTexts_cases (texts : list string) (metadatas : list T) (s : VectorStorage) :
  wf s ->
  length texts = length metadatas ->
  let newTexts := List.filter (isNewText s) texts in
  if negb (db s) then
    exists s', addTexts texts metadatas s = Throws "TypeError: this.db is undefined" s'
  else
    match newTexts with
    | [] => exists s', addTexts texts metadatas s = Returns [] s'
    | _ :: _ =>
        match embedTextsFn newTexts with
        | None => exists s', addTexts texts metadatas s = Throws "embedTextsFn rejected" s'
        | Some vs =>
            if (length newTexts <=? length vs)%nat then
              trainingMode s = true \/ overCeiling s [] = false ->
              exists inserted s', addTexts texts metadatas s = Returns inserted s'
            else
              exists s',
                addTexts texts metadatas s = Throws "TypeError: doc.vector is undefined" s'
        end
    end.
Proof.
  intros Hwf Hlen. cbv zeta. rewrite addTexts_run by exact Hlen.
  destruct (addTexts_new texts metadatas s Hwf Hlen) as (Hdocs & Hnd & Hrange & Hnew & Htexts).
  cbv zeta in Hdocs, Hnd, Hrange, Hnew, Htexts.
  set (s1 := set_ticks _ (set_heap _ s)) in *.
  set (docs := seq (length (heap s)) (length texts)) in *.
  rewrite (addDocuments_cases docs s1 Hdocs). cbv zeta.
  set (new := List.filter (isNewDocument s1 (text <$> idb s1)) docs) in *.
  rewrite Htexts.
  assert (Hlennew : length new = length (List.filter (isNewText s) texts)).
  { rewrite <- Htexts, length_fmap. reflexivity. }
  change (db s1) with (db s). destruct (db s); cbn [negb]; [|eauto].
  destruct (List.filter (isNewText s) texts) as [|t ts] eqn:Hts.
  { rewrite Hlennew. cbn [length Nat.eqb]. eauto. }
  rewrite Hlennew. cbn [length Nat.eqb].
  destruct (embedTextsFn (t :: ts)) as [vs|]; [|eauto].
  pose proof (assignVectors_snd vs new 0 (heap s1)) as Hsnd.
  pose proof (assignVectors_ok vs new 0 (heap s1)) as Hok.
  rewrite Hlennew in Hsnd, Hok. cbn [length] in Hsnd, Hok.
  destruct (assignVectors vs 0 new (heap s1)) as [h ok]. cbn [snd] in Hsnd, Hok.
  destruct (Nat.leb_spec (S (length ts)) (length vs)) as [Hle|Hgt].
  - rewrite Hok by lia. intros Hend.
    set (s2 := set_documents _ (set_heap h _)).
    rewrite evictSaveRet_run. unfold bind.
    assert (Hevict : exists s3, removeDocsLRU s2 = Returns tt s3).
    { destruct Hend as [Htrain|Hempty].
      - exists s2. apply removeDocsLRU_training. exact Htrain.
      - destruct (trainingMode s2) eqn:Ht2.
        + exists s2. apply removeDocsLRU_training. exact Ht2.
        + destruct (removeDocsLRU_returns s2 Ht2) as (ls & Hr & _); [exact Hempty|].
          eauto. }
    destruct Hevict as [s3 ->]. rewrite saveToIndexDbStorage_run. eauto.
  - destruct ok; [lia | eauto].
Qed.

(** X12.  An insertion that fails inserts nothing.  Whenever [addTexts]
    throws, the in-memory set, every document in it and the backend are as
    before.  It throws when the provider rejects and when the provider
    returns fewer vectors than there are new texts; in both cases after the
    texts have passed the filter, so the next call meets the same store. *)
Theorem addTexts_failure_inserts_nothing
    (texts : list string) (metadatas : list T) (s : VectorStorage) :
  wf s ->
  (forall e s',
     addTexts texts metadatas s = Throws e s' ->
     documents s' = documents s /\ idb s' = idb s /\ trainingMode s' = trainingMode s
     /\ (forall l, l ∈ documents s -> deref s' l = deref s l))
  /\ (length texts = length metadatas ->
      db s = true ->
      List.filter (isNewText s) texts <> [] ->
      (embedTextsFn (List.filter (isNewText s) texts) = None ->
       exists s', addTexts texts metadatas s = Throws "embedTextsFn rejected" s')
      /\ (forall vs,
            embedTextsFn (List.filter (isNewText s) texts) = Some vs ->
            (length vs < length (List.filter (isNewText s) texts))%nat ->
            exists s',
              addTexts texts metadatas s = Throws "TypeError: doc.vector is undefined" s')).
Proof.
  intros Hwf. split.
  - intros e s' Hthrow.
    destruct (Nat.eq_dec (length texts) (length metadatas)) as [Hlen|Hlen].
    + pose proof (addTexts_outcome texts metadatas s Hwf Hlen) as Hout.
      rewrite Hthrow in Hout. tauto.
    + unfold addTexts in Hthrow. rewrite (proj2 (Nat.eqb_neq _ _) Hlen) in Hthrow.
      inversion Hthrow; subst. auto.
  - intros Hlen Hdb Hnew.
    pose proof (addTexts_cases texts metadatas s Hwf Hlen) as Hcases. cbv zeta in Hcases.
    rewrite Hdb in Hcases. cbn [negb] in Hcases.
    destruct (List.filter (isNewText s) texts) as [|t ts]; [congruence|].
    split.
    + intros Hnone. rewrite Hnone in Hcases. exact Hcases.
    + intros vs Hvs Hshort. rewrite Hvs in Hcases.
      rewrite (proj2 (Nat.leb_gt _ _) Hshort) in Hcases. exact Hcases.
Qed.

(** X13.  What an insertion stores.  In training mode, with the database
    open and a provider that returns a vector for each new text,
    [addTexts] returns one document for each pair whose text is new (not
    blank, not in memory, not in the backend), in the order of the call; it
    appends these very objects to the in-memory set and leaves the
    documents already there untouched; each carries its text and metadata,
    the vector the provider returned for it, and the norm of that vector. *)
Theorem addTexts_stores_new_pairs
    (texts : list string) (metadatas : list T) (s : VectorStorage) (vs : list (list float)) :
  wf s ->
  db s = true ->
  trainingMode s = true ->
  length texts = length metadatas ->
  (List.filter (isNewText s) texts <> [] ->
   embedTextsFn (List.filter (isNewText s) texts) = Some vs) ->
  (length (List.filter (isNewText s) texts) <= length vs)%nat ->
  exists (inserted : list Loc) (s' : VectorStorage),
    addTexts texts metadatas s = Returns inserted s'
    /\ documents s' = documents s ++ inserted
    /\ (forall l, l ∈ documents s -> deref s' l = deref s l)
    /\ (fun d => (text d, metadata d)) <$> docsOf s' inserted
       = (fun tm => (fst tm, Some (snd tm)))
           <$> List.filter (fun tm => isNewText s (fst tm)) (zip texts metadatas)
    /\ Forall2 (fun d v => vector d = Some v /\ vectorMag d = Some (l2norm v))
         (docsOf s' inserted) (take (length inserted) vs).
Proof.
  intros Hwf Hdb Htrain Hlen Hvs Hlenvs.
  pose proof (addTexts_cases texts metadatas s Hwf Hlen) as Hcases. cbv zeta in Hcases.
  rewrite Hdb in Hcases. cbn [negb] in Hcases.
  pose proof (addTexts_outcome texts metadatas s Hwf Hlen) as Hout.
  assert (Hret : exists inserted s', addTexts texts metadatas s = Returns inserted s').
  { destruct (List.filter (isNewText s) texts) as [|t ts] eqn:Hts.
    - destruct Hcases as [s' Hs']. eauto.
    - rewrite Hvs in Hcases by discriminate.
      rewrite (proj2 (Nat.leb_le _ _) Hlenvs) in Hcases. apply Hcases. left. exact Htrain. }
  destruct Hret as (inserted & s' & Hret). rewrite Hret in Hout.
  destruct Hout as (_ & _ & Hold & _ & Happ & _ & _ & Hpairs & Hnil & Hcons & _).
  exists inserted, s'. split; [exact Hret|]. split; [exact (Happ Htrain)|].
  split; [exact Hold|]. split; [exact Hpairs|].
  destruct inserted as [|l ls] eqn:Hins; [constructor|]. rewrite <- Hins in *.
  assert (Hne : inserted <> []) by (rewrite Hins; discriminate).
  destruct (Hcons Hne) as (_ & _ & vs' & Hvs' & Hassigned).
  assert (Hnew : List.filter (isNewText s) texts <> []).
  { intros Hnone. rewrite Hnone in Hvs'.
    apply (f_equal (fmap fst)) in Hpairs.
    rewrite <- !list_fmap_compose in Hpairs.
    change (fst ∘ (fun tm : string * T => (fst tm, Some (snd tm)))) with (@fst string T) in Hpairs.
    rewrite <- (List_filter_fmap fst (isNewText s)), fst_zip, Hnone in Hpairs by lia.
    apply fmap_nil_inv in Hpairs. unfold docsOf in Hpairs. apply fmap_nil_inv in Hpairs.
    contradiction. }
  rewrite (Hvs Hnew) in Hvs'. inversion Hvs'; subst vs'. exact Hassigned.
Qed.

Lemma isNewText_true (s : VectorStorage) (t : string) :
  isNewText s t = true ->
  JS.trim t <> EmptyString /\ (t ∉ textsInMemory s) /\ (t ∉ text <$> idb s).
Proof.
  unfold isNewText. rewrite !andb_true_iff, !negb_true_iff.
  intros [[Htrim Hmem] Hidb]. split; [|split].
  - intros Heq. rewrite Heq in Htrim. discriminate.
  - intros Hin. unfold textsInMemory, docsOf in Hin. rewrite <- list_fmap_compose in Hin.
    apply list_elem_of_fmap in Hin. destruct Hin as (d & -> & Hd).
    assert (Hex : existsb (fun d0 => String.eqb (text (deref s d0)) ((text ∘ deref s) d))
                    (documents s) = true).
    { apply existsb_exists. exists d. split; [apply list_elem_of_In; exact Hd|].
      apply String.eqb_refl. }
    congruence.
  - intros Hin. apply existsb_eqb_elem in Hin. congruence.
Qed.

Lemma textsUnique_NoDup (s : VectorStorage) :
  NoDup (textsInMemory s) -> textsUnique (docsOf s (documents s)) = true.
Proof. intros Hnd. unfold textsUnique. apply bool_decide_eq_true. exact Hnd. Qed.

(** One step that adds the documents [added], with new texts, and keeps
    the texts of the others. *)
Lemma textsInOrder_step (s s' : VectorStorage) (added : list Loc) :
  textsInOrder s ->
  wf s' ->
  (forall l, l ∈ documents s -> text (deref s' l) = text (deref s l)) ->
  documents s' ⊆+ documents s ++ added ->
  NoDup (text <$> docsOf s' added) ->
  Forall (fun t => isNewText s t = true) (text <$> docsOf s' added) ->
  (EvSave false ∈ trace s' ->
   EvSave false ∈ trace s \/ textsUnique (docsOf s' (documents s')) = false) ->
  textsInOrder s'.
Proof.
  intros (Hwf & Hnd & Hblank & Hsave) Hwf' Htext Hsub Hnd' Hnew Htrace.
  assert (Hold : text <$> docsOf s' (documents s) = textsInMemory s).
  { unfold textsInMemory, docsOf. rewrite <- !list_fmap_compose.
    apply Forall_fmap_ext_1. rewrite Forall_forall. intros l Hl. simpl. apply Htext. exact Hl. }
  assert (Hall : textsInMemory s' ⊆+ textsInMemory s ++ (text <$> docsOf s' added)).
  { rewrite <- Hold. unfold textsInMemory, docsOf. rewrite <- !fmap_app.
    do 2 apply fmap_submseteq. exact Hsub. }
  assert (Hnd2 : NoDup (textsInMemory s')).
  { eapply NoDup_submseteq_inv; [exact Hall|]. apply NoDup_app. split; [exact Hnd|].
    split; [|exact Hnd'].
    intros t Ht Ht'. rewrite Forall_forall in Hnew. apply Hnew in Ht'.
    apply isNewText_true in Ht'. tauto. }
  split; [exact Hwf'|]. split; [exact Hnd2|]. split.
  - rewrite Forall_forall. intros t Ht.
    eapply elem_of_submseteq in Ht; [|exact Hall]. apply elem_of_app in Ht.
    destruct Ht as [Ht|Ht].
    + rewrite Forall_forall in Hblank. apply Hblank. exact Ht.
    + rewrite Forall_forall in Hnew. apply Hnew in Ht. apply isNewText_true in Ht. tauto.
  - intros Hin. destruct (Htrace Hin) as [Hin'|Hdup]; [contradiction|].
    rewrite textsUnique_NoDup in Hdup by exact Hnd2. discriminate.
Qed.

(** What [similaritySearch] leaves, by outcome. *)
Lemma similaritySearch_outcome (params : IVSSimilaritySearchParams) (s : VectorStorage) :
  wf s ->
  match similaritySearch params s with
  | Returns r s' =>
      wf s'
      /\ (forall l, l ∈ documents s -> deref s' l = deref s l)
      /\ documents s' ⊆+ documents s
      /\ (EvSave false ∈ trace s' ->
          EvSave false ∈ trace s \/ textsUnique (docsOf s' (documents s')) = false)
      /\ (idb s' = idb s \/ idb s' = docsOf s' (documents s'))
  | Throws e s' => s' = set_trace (EvEmbed [query params] :: trace s) s
  | Diverges => True
  end.
Proof.
  intros Hwf.
  destruct (similaritySearch params s) as [r s'|e s'|] eqn:Hr; [| |exact I].
  2: { eapply similaritySearch_Throws_inv; eassumption. }
  destruct (similaritySearch_Returns_inv _ _ _ _ Hwf Hr)
    as (qe & rest & pairs & s2 & _ & _ & Htail & -> & ->).
  cbv zeta in Htail.
  set (top := JS.slice0 _ _) in *.
  set (s1 := set_heap _ (set_trace _ s)) in Htail.
  set (s' := set_heap _ s2).
  assert (Hshape : documents s2 ⊆+ documents s
                   /\ (EvSave false ∈ trace s2 ->
                       EvSave false ∈ trace s
                       \/ textsUnique (docsOf s1 (documents s2)) = false)
                   /\ (idb s2 = idb s \/ idb s2 = docsOf s1 (documents s2))).
  { destruct (0 <? length top)%nat.
    - unfold bind in Htail.
      destruct (removeDocsLRU s1) as [[] s1'|e s1'|] eqn:Hevict; try discriminate.
      rewrite saveToIndexDbStorage_run in Htail. inversion Htail; subst s2. clear Htail.
      destruct (removeDocsLRU_Returns_inv _ _ Hevict) as (ls & -> & Hsub & _).
      destruct (saved_fields (set_documents ls s1)) as (Hd & _).
      rewrite Hd. cbn [documents set_documents]. split; [exact Hsub|]. split.
      + intros Hin. apply saved_trace in Hin.
        destruct Hin as [Hin|Hin]; [left | right; exact Hin].
        cbn [trace set_documents s1 set_heap set_trace] in Hin.
        apply elem_of_cons in Hin. destruct Hin as [Hin|Hin]; [discriminate | exact Hin].
      + rewrite saved_idb. destruct (textsUnique _); [right | left]; reflexivity.
    - inversion Htail; subst s2. split; [reflexivity|]. split; [|left; reflexivity].
      intros Hin. left. cbn [trace s1 set_heap set_trace] in Hin.
      apply elem_of_cons in Hin. destruct Hin as [Hin|Hin]; [discriminate | exact Hin]. }
  destruct Hshape as (Hsub & Htrace & Hidb).
  assert (Hlt : Forall (fun l => (l < length (heap s))%nat) (documents s2)).
  { rewrite Forall_forall. intros l Hl. apply wf_elem; [exact Hwf|].
    eapply elem_of_submseteq; [exact Hl | exact Hsub]. }
  split; [|split; [|split; [|split]]].
  - unfold wf. cbn [documents heap s' set_heap]. rewrite length_app.
    eapply Forall_impl; [exact Hlt|]. intros l Hl. cbv beta in Hl |- *. lia.
  - intros l Hl. unfold deref at 1. cbn [heap s' set_heap].
    apply lookup_total_old. apply wf_elem; assumption.
  - exact Hsub.
  - cbn [trace documents s' set_heap].
    rewrite (docsOf_old s s' _ (documents s2) eq_refl Hlt).
    rewrite <- (docsOf_old s s1 _ (documents s2) eq_refl Hlt). exact Htrace.
  - cbn [idb documents s' set_heap].
    rewrite (docsOf_old s s' _ (documents s2) eq_refl Hlt).
    rewrite <- (docsOf_old s s1 _ (documents s2) eq_refl Hlt). exact Hidb.
Qed.

Lemma textsInOrder_addTexts (texts : list string) (metadatas : list T) (s : VectorStorage) :
  textsInOrder s ->
  NoDup texts ->
  match addTexts texts metadatas s with
  | Returns _ s' | Throws _ s' => textsInOrder s'
  | Diverges => True
  end.
Proof.
  intros Hinv Hnd. pose proof Hinv as (Hwf & _).
  destruct (Nat.eq_dec (length texts) (length metadatas)) as [Hlen|Hlen].
  2: { unfold addTexts. rewrite (proj2 (Nat.eqb_neq _ _) Hlen). exact Hinv. }
  pose proof (addTexts_outcome texts metadatas s Hwf Hlen) as Hout.
  destruct (addTexts texts metadatas s) as [inserted s'|e s'|]; [| |exact I].
  - destruct Hout as (Hwf' & _ & Hold & Hsub & _ & _ & _ & Hpairs & _ & _ & Htrace).
    assert (Htexts : text <$> docsOf s' inserted = List.filter (isNewText s) texts).
    { apply (f_equal (fmap fst)) in Hpairs. rewrite <- !list_fmap_compose in Hpairs.
      change (fst ∘ (fun tm : string * T => (fst tm, Some (snd tm)))) with (@fst string T)
        in Hpairs.
      rewrite <- (List_filter_fmap fst (isNewText s)), fst_zip in Hpairs by lia.
      exact Hpairs. }
    apply (textsInOrder_step s s' inserted Hinv Hwf'); try assumption.
    + intros l Hl. rewrite Hold by exact Hl. reflexivity.
    + rewrite Htexts. apply List_filter_NoDup. exact Hnd.
    + rewrite Htexts. rewrite Forall_forall. intros t Ht.
      apply list_elem_of_In, filter_In in Ht. tauto.
  - destruct Hout as (Hwf' & Hd & _ & _ & Hold & Htrace).
    apply (textsInOrder_step s s' [] Hinv Hwf').
    + intros l Hl. rewrite Hold by exact Hl. reflexivity.
    + rewrite Hd, app_nil_r. reflexivity.
    + constructor.
    + constructor.
    + intros Hin. left. apply Htrace. exact Hin.
Qed.

Lemma textsInOrder_perform (c : call) (s s' : VectorStorage) :
  textsInOrder s -> distinctBatch c -> step c s s' -> textsInOrder s'.
Proof.
  intros Hinv Hbatch Hstep. pose proof Hinv as (Hwf & Hnd & Hblank & Hsave).
  unfold step in Hstep.
  destruct c as [text0 metadata0|texts metadatas|params|documentId| |]; cbn [perform] in Hstep.
  - unfold bind in Hstep. rewrite addText_as_addTexts in Hstep.
    pose proof (textsInOrder_addTexts [text0] [metadata0] s Hinv) as Hout.
    destruct (addTexts [text0] [metadata0] s) as [docs s1|e s1|];
      simpl in Hstep; [| |contradiction]; subst s'; apply Hout; apply NoDup_singleton.
  - unfold bind in Hstep.
    pose proof (textsInOrder_addTexts texts metadatas s Hinv Hbatch) as Hout.
    destruct (addTexts texts metadatas s) as [docs s1|e s1|];
      simpl in Hstep; [| |contradiction]; subst s'; exact Hout.
  - unfold bind in Hstep.
    pose proof (similaritySearch_outcome params s Hwf) as Hout.
    destruct (similaritySearch params s) as [r s1|e s1|];
      simpl in Hstep; [| |contradiction]; subst s'.
    + destruct Hout as (Hwf' & Hold & Hsub & Htrace & _).
      apply (textsInOrder_step s s1 [] Hinv Hwf'); try (constructor; fail).
      * intros l Hl. rewrite Hold by exact Hl. reflexivity.
      * rewrite app_nil_r. exact Hsub.
      * exact Htrace.
    + rewrite Hout. split; [exact Hwf|]. split; [exact Hnd|]. split; [exact Hblank|].
      cbn [trace set_trace]. intros Hin.
      apply elem_of_cons in Hin. destruct Hin as [Hin|Hin]; [discriminate | contradiction].
  - rewrite deleteDocumentsByMetadata_run in Hstep. subst s'.
    set (s0 := set_documents _ s).
    destruct (saved_fields s0) as (Hd & Hh & _).
    apply (textsInOrder_step s (saved s0) [] Hinv); try (constructor; fail).
    + unfold wf. rewrite Hd, Hh. cbn [documents heap s0 set_documents].
      rewrite Forall_forall. intros l Hl. apply wf_elem; [exact Hwf|].
      apply list_elem_of_In, filter_In in Hl. apply list_elem_of_In. tauto.
    + intros l _. unfold deref. rewrite Hh. reflexivity.
    + rewrite Hd, app_nil_r. cbn [documents s0 set_documents].
      apply sublist_submseteq, List_filter_sublist.
    + intros Hin. apply saved_trace in Hin.
      rewrite (docsOf_ext s0 (saved s0)) by exact Hh. rewrite Hd. exact Hin.
  - unfold startTrainingMode, modify in Hstep. subst s'. exact Hinv.
  - unfold endTrainingMode, modify in Hstep. subst s'. exact Hinv.
Qed.

(** X14.  Texts stay distinct.  A new instance on a backend whose records
    have distinct texts, none blank, starts with its texts in order; every
    call that does not name one text twice in a batch keeps them so,
    whether it returns or throws: no two documents in memory share a text,
    no blank text is inserted, and no save fails. *)
Theorem texts_stay_distinct :
  (forall (options : IVSOptions) (records : list Doc) (s0 : VectorStorage),
     NoDup (text <$> records) ->
     Forall (fun r => JS.trim (text r) <> EmptyString) records ->
     constructor options records = Returns tt s0 ->
     textsInOrder s0)
  /\ (forall (c : call) (s s' : VectorStorage),
        textsInOrder s -> distinctBatch c -> step c s s' -> textsInOrder s')
  /\ (forall s0 s : VectorStorage,
        textsInOrder s0 -> reachable distinctBatch s0 s -> textsInOrder s).
Proof.
  split; [|split].
  - intros options records s0 Hnd Hblank Hc. rewrite constructor_run in Hc.
    inversion Hc; subst s0. clear Hc.
    destruct (configured options).
    + unfold textsInOrder, textsInMemory, wf, docsOf, deref.
      cbn [documents heap trace].
      rewrite lookup_total_seq.
      split; [|split; [exact Hnd|split]].
      * rewrite Forall_forall. intros l Hl. apply elem_of_seq in Hl. lia.
      * rewrite Forall_fmap. exact Hblank.
      * intros Hin. apply elem_of_cons in Hin. destruct Hin as [Hin|Hin]; [discriminate|].
        inversion Hin.
    + unfold textsInOrder, textsInMemory, wf, docsOf. cbn [documents heap trace].
      split; [constructor|]. split; [constructor|]. split; [constructor|].
      intros Hin. apply elem_of_cons in Hin. destruct Hin as [Hin|Hin]; [discriminate|].
      inversion Hin.
  - apply textsInOrder_perform.
  - intros s0 s Hinv Hreach. induction Hreach as [|s s' c _ IH Hbatch Hstep]; [exact Hinv|].
    eapply textsInOrder_perform; eassumption.
Qed.

Lemma addTexts_closed_db (texts : list string) (metadatas : list T) (s : VectorStorage) :
  db s = false ->
  length texts = length metadatas ->
  exists s',
    addTexts texts metadatas s = Throws "TypeError: this.db is undefined" s'
    /\ documents s' = documents s /\ idb s' = idb s /\ db s' = false
    /\ trace s' = trace s.
Proof.
  intros Hdb Hlen. rewrite addTexts_run by exact Hlen.
  unfold addDocuments, bind, get. cbn [db set_ticks set_heap]. rewrite Hdb. cbn [negb].
  eexists. split; [reflexivity|]. repeat split; assumption.
Qed.

(** A search in a store that holds no document changes nothing but the
    trace. *)
Lemma similaritySearch_no_documents (params : IVSSimilaritySearchParams) (s : VectorStorage) :
  documents s = [] ->
  match similaritySearch params s with
  | Returns _ x | Throws _ x => x = set_trace (EvEmbed [query params] :: trace s) s
  | Diverges => False
  end.
Proof.
  intros Hnone.
  assert (Hwf : wf s) by (unfold wf; rewrite Hnone; constructor).
  assert (Hfilter : filterDocuments s (documents s) (filterOptions params) = []).
  { rewrite Hnone. unfold filterDocuments. destruct (filterOptions params); reflexivity. }
  pose proof (similaritySearch_early params s) as Hearly. cbv zeta in Hearly.
  destruct (embedTextsFn [query params]) as [[|qe rest]|] eqn:Hembed;
    try (rewrite Hearly; reflexivity).
  rewrite (similaritySearch_run params s qe rest [] Hembed);
    [|rewrite Hfilter; reflexivity|exact Hwf].
  unfold JS.slice0. cbn [JS.sort foldr]. rewrite !take_nil.
  destruct (default 4 (k params) <? 0); cbn [length Nat.ltb Nat.leb ret];
    rewrite !fmap_nil, !app_nil_r; destruct s; reflexivity.
Qed.

(** X15.  An instance without configuration.  Constructed with neither an
    API key nor an embedding function, an instance logs the error and does
    nothing else: it never reads the backend, holds no document, and its
    database handle is unset.  This stays so through every call but
    [deleteDocumentsByMetadata]: every [addText] throws the error on the
    unset handle, every [addTexts] throws it too unless the two arrays
    differ in length (it then throws the length error), and nothing is
    inserted.  [deleteDocumentsByMetadata] still saves: it opens the
    database and replaces the records of the backend by the empty in-memory
    set. *)
Theorem unconfigured_instance (options : IVSOptions) (records : list Doc) :
  configured options = false ->
  exists s0 : VectorStorage,
    constructor options records = Returns tt s0
    /\ trace s0
       = [EvConsoleError "VectorStorage: pass as an option either an OpenAI API key or a custom embedTextsFn function."]
    /\ forall s : VectorStorage,
         reachable beforeDelete s0 s ->
         documents s = [] /\ idb s = records /\ db s = false
         /\ (EvGetAll ∉ trace s)
         /\ (forall text0 metadata0,
               exists s',
                 addText text0 metadata0 s = Throws "TypeError: this.db is undefined" s'
                 /\ documents s' = [] /\ idb s' = records /\ db s' = false)
         /\ (forall texts metadatas,
               exists s',
                 addTexts texts metadatas s
                 = Throws (if (length texts =? length metadatas)%nat
                           then "TypeError: this.db is undefined"
                           else "The lengths of texts and metadata arrays must match.") s'
                 /\ documents s' = [] /\ idb s' = records /\ db s' = false)
         /\ (forall documentId,
               exists s',
                 deleteDocumentsByMetadata documentId s = Returns tt s'
                 /\ db s' = true /\ documents s' = [] /\ idb s' = []).
Proof.
  intros Hc. rewrite constructor_run, Hc. eexists. split; [reflexivity|].
  split; [reflexivity|].
  match goal with |- forall s, reachable _ ?x s -> _ => set (s0 := x) end.
  assert (Htexts : forall s texts metadatas,
             db s = false ->
             exists s',
               addTexts texts metadatas s
               = Throws (if (length texts =? length metadatas)%nat
                         then "TypeError: this.db is undefined"
                         else "The lengths of texts and metadata arrays must match.") s'
               /\ documents s' = documents s /\ idb s' = idb s /\ db s' = false
               /\ trace s' = trace s).
  { intros s texts metadatas Hdb.
    destruct (Nat.eqb_spec (length texts) (length metadatas)) as [Hlen|Hlen].
    - apply addTexts_closed_db; assumption.
    - exists s. unfold addTexts. rewrite (proj2 (Nat.eqb_neq _ _) Hlen). auto. }
  assert (Hinv : forall s, reachable beforeDelete s0 s ->
                           documents s = [] /\ idb s = records /\ db s = false
                           /\ (EvGetAll ∉ trace s)).
  { intros s Hreach. induction Hreach as [|s s' c _ IH Hc' Hs].
    - split; [reflexivity|]. split; [reflexivity|]. split; [reflexivity|].
      intros Hin. apply elem_of_cons in Hin. destruct Hin as [Hin|Hin]; [discriminate|].
      inversion Hin.
    - destruct IH as (Hd & Hi & Hdb & Htr). unfold step in Hs.
      destruct c as [text0 metadata0|texts metadatas|params|documentId| |];
        cbn [perform] in Hs; try contradiction.
      + unfold bind in Hs. rewrite addText_as_addTexts in Hs.
        destruct (Htexts s [text0] [metadata0] Hdb) as (x & Hx & Hd' & Hi' & Hdb' & Htr').
        rewrite Hx in Hs. subst s'. rewrite Hd', Hi', Htr'. auto.
      + unfold bind in Hs.
        destruct (Htexts s texts metadatas Hdb) as (x & Hx & Hd' & Hi' & Hdb' & Htr').
        rewrite Hx in Hs. subst s'. rewrite Hd', Hi', Htr'. auto.
      + unfold bind in Hs.
        pose proof (similaritySearch_no_documents params s Hd) as Hsearch.
        destruct (similaritySearch params s) as [r x|e x|]; [| |contradiction];
          simpl in Hs; subst s' x; cbn [documents idb db trace set_trace];
          (split; [exact Hd|]; split; [exact Hi|]; split; [exact Hdb|];
           intros Hin; apply elem_of_cons in Hin;
           destruct Hin as [Hin|Hin]; [discriminate | contradiction]).
      + unfold startTrainingMode, modify in Hs. subst s'. auto.
      + unfold endTrainingMode, modify in Hs. subst s'. auto. }
  intros s Hreach. destruct (Hinv s Hreach) as (Hd & Hi & Hdb & Htr).
  split; [exact Hd|]. split; [exact Hi|]. split; [exact Hdb|]. split; [exact Htr|].
  split; [|split].
  - intros text0 metadata0. rewrite addText_as_addTexts.
    destruct (Htexts s [text0] [metadata0] Hdb) as (x & Hx & Hd' & Hi' & Hdb' & _).
    rewrite Hx. exists x. cbn [length Nat.eqb].
    split; [reflexivity|]. rewrite Hd', Hi'. auto.
  - intros texts metadatas.
    destruct (Htexts s texts metadatas Hdb) as (x & Hx & Hd' & Hi' & Hdb' & _).
    exists x. split; [exact Hx|]. rewrite Hd', Hi'. auto.
  - intros documentId. rewrite deleteDocumentsByMetadata_run. eexists. split; [reflexivity|].
    rewrite Hd. cbn [List.filter]. unfold saved, textsUnique, docsOf.
    cbn [documents set_documents fmap list_fmap].
    rewrite bool_decide_eq_true_2 by constructor. repeat split.
Qed.

(** X16.  What [addText] returns.  In training mode, with the database
    open, for a text that is new and a provider that answers with a vector,
    [addText] returns the object it has appended to the in-memory set: it
    carries the text, the metadata, the time of the call, no hit count, the
    vector of the provider and its norm. *)
Theorem addText_returns_stored (text0 : string) (metadata0 : T) (s : VectorStorage)
    (v : list float) (rest : list (list float)) :
  wf s ->
  db s = true ->
  trainingMode s = true ->
  isNewText s text0 = true ->
  embedTextsFn [text0] = Some (v :: rest) ->
  exists (doc : Loc) (s' : VectorStorage),
    addText text0 metadata0 s = Returns (Some doc) s'
    /\ documents s' = documents s ++ [doc]
    /\ deref s' doc
       = mkDoc None (Some metadata0) text0 (Date_now (ticks s)) (Some v) (Some (l2norm v)) None
    /\ (forall l, l ∈ documents s -> deref s' l = deref s l).
Proof.
  intros Hwf Hdb Htrain Hnew Hembed.
  rewrite addText_as_addTexts, addTexts_run by reflexivity.
  destruct (addTexts_new [text0] [metadata0] s Hwf eq_refl)
    as (Hdocs & _ & _ & _ & Htexts).
  cbv zeta in Hdocs, Htexts. cbn [length seq zip zip_with newDocuments] in *.
  set (cand := mkDoc None (Some metadata0) text0 (Date_now (ticks s)) (Some []) (Some 0%float) None)
    in *.
  set (s1 := set_ticks _ (set_heap _ s)) in *.
  set (base := length (heap s)) in *.
  assert (Hcand : deref s1 base = cand).
  { unfold deref. cbn [heap s1 set_ticks set_heap].
    rewrite lookup_total_app_r, Nat.sub_diag by (unfold base; lia). reflexivity. }
  assert (Hfilter : List.filter (isNewDocument s1 (text <$> idb s1)) [base] = [base]).
  { cbn [List.filter].
    rewrite (isNewDocument_candidate s s1 [cand] base Hwf) by reflexivity.
    rewrite Hcand. cbn [text cand]. rewrite Hnew. reflexivity. }
  rewrite (addDocuments_run [base] s1 (v :: rest)); [|exact Hdb|rewrite Hfilter; discriminate| |exact Hdocs].
  2: { rewrite Hfilter. cbn [fmap list_fmap]. rewrite Hcand. exact Hembed. }
  cbv zeta. rewrite Hfilter. cbn [assignVectors lookup list_lookup].
  rewrite evictSaveRet_run. unfold bind.
  rewrite removeDocsLRU_training by exact Htrain. rewrite saveToIndexDbStorage_run.
  cbn [lookup list_lookup].
  match goal with
  | |- context [saved ?x] => set (sx := x)
  end.
  exists base, (saved sx). split; [reflexivity|].
  destruct (saved_fields sx) as (Hd & Hh & _).
  rewrite Hd. unfold deref. rewrite Hh. unfold sx.
  cbn [documents heap set_documents set_heap set_trace s1 set_ticks].
  split; [reflexivity|]. split.
  - rewrite list_lookup_total_alter_eq
      by (rewrite length_alter, length_app; cbn [length]; unfold base; lia).
    rewrite list_lookup_total_alter_eq by (rewrite length_app; cbn [length]; unfold base; lia).
    rewrite lookup_total_app_r, Nat.sub_diag by (unfold base; lia). reflexivity.
  - intros l Hl. pose proof (wf_elem s l Hwf Hl) as Hlt.
    rewrite !list_lookup_total_alter_ne by (unfold base; lia).
    apply lookup_total_app_l. exact Hlt.
Qed.

Lemma fieldsKept_refl (s : VectorStorage) : fieldsKept s s.
Proof. repeat split; auto. Qed.

Lemma fieldsKept_same (s s' : VectorStorage) :
  trainingMode s' = trainingMode s -> maxSizeInMB s' = maxSizeInMB s -> db s' = db s ->
  fieldsKept s s'.
Proof. intros Ht Hm Hd. unfold fieldsKept. rewrite Ht, Hm, Hd. auto. Qed.

Lemma fieldsKept_trans (s1 s2 s3 : VectorStorage) :
  fieldsKept s1 s2 -> fieldsKept s2 s3 -> fieldsKept s1 s3.
Proof. unfold fieldsKept. intuition congruence. Qed.

Lemma keepsFields_ret {A : Type} (a : A) : keepsFields (ret a).
Proof. intros s. apply fieldsKept_refl. Qed.

Lemma keepsFields_throw {A : Type} (e : string) : keepsFields (@throw _ A e).
Proof. intros s. apply fieldsKept_refl. Qed.

Lemma keepsFields_get : keepsFields get.
Proof. intros s. apply fieldsKept_refl. Qed.

Lemma keepsFields_bind {A B : Type} (m : M A) (f : A -> M B) :
  keepsFields m -> (forall a, keepsFields (f a)) -> keepsFields (bind m f).
Proof.
  intros Hm Hf s. unfold bind. specialize (Hm s).
  destruct (m s) as [a s1|e s1|]; [|exact Hm|exact I].
  specialize (Hf a s1). destruct (f a s1) as [b s2|e s2|]; [| |exact I];
    eapply fieldsKept_trans; eassumption.
Qed.

Lemma keepsFields_modify (f : VectorStorage -> VectorStorage) :
  (forall s, fieldsKept s (f s)) -> keepsFields (modify f).
Proof. intros Hf s. apply Hf. Qed.

Lemma keepsFields_emit (e : event) : keepsFields (emit e).
Proof. apply keepsFields_modify. intros s. apply fieldsKept_same; reflexivity. Qed.

Lemma keepsFields_update (l : Loc) (f : Doc -> Doc) : keepsFields (update l f).
Proof. apply keepsFields_modify. intros s. apply fieldsKept_same; reflexivity. Qed.

Lemma keepsFields_alloc (d : Doc) : keepsFields (alloc d).
Proof. intros s. apply fieldsKept_same; reflexivity. Qed.

Lemma keepsFields_now : keepsFields now.
Proof. intros s. apply fieldsKept_same; reflexivity. Qed.

Lemma keepsFields_forEach_from {A : Type} (f : A -> nat -> M unit) (l : list A) :
  (forall x i, keepsFields (f x i)) -> forall i, keepsFields (forEach_from f i l).
Proof.
  intros Hf. induction l as [|x l IH]; intros i; simpl.
  - apply keepsFields_ret.
  - apply keepsFields_bind; [apply Hf | intros _; apply IH].
Qed.

Lemma keepsFields_mapM {A B : Type} (f : A -> M B) (l : list A) :
  (forall x, keepsFields (f x)) -> keepsFields (mapM f l).
Proof.
  intros Hf. induction l as [|x l IH]; simpl.
  - apply keepsFields_ret.
  - apply keepsFields_bind; [apply Hf|]. intros y.
    apply keepsFields_bind; [exact IH|]. intros ys. apply keepsFields_ret.
Qed.

Lemma keepsFields_removeDocsLRU : keepsFields removeDocsLRU.
Proof.
  intros s. pose proof (removeDocsLRU_shape s) as Hshape.
  destruct (removeDocsLRU s) as [[] s1|e s1|] eqn:Hr; [|contradiction|exact I].
  destruct (removeDocsLRU_Returns_inv _ _ Hr) as (ls & -> & _).
  apply fieldsKept_same; reflexivity.
Qed.

Lemma keepsFields_saveToIndexDbStorage : keepsFields saveToIndexDbStorage.
Proof.
  intros s. rewrite saveToIndexDbStorage_run.
  destruct (saved_fields s) as (_ & _ & Hm & Ht & Hdb & _). repeat split; auto.
Qed.

Create HintDb fields.
#[local] Hint Resolve keepsFields_ret keepsFields_throw keepsFields_get keepsFields_emit
  keepsFields_update keepsFields_alloc keepsFields_now keepsFields_removeDocsLRU
  keepsFields_saveToIndexDbStorage : fields.

(** Takes a method apart into the steps above. *)
Ltac fields_steps :=
  repeat first
    [ progress auto with fields
    | apply keepsFields_bind; [|intros ?]
    | apply keepsFields_forEach_from; intros ? ?
    | apply keepsFields_mapM; intros ?
    | apply keepsFields_modify; intros ?; apply fieldsKept_same; reflexivity
    | match goal with
      | |- keepsFields (if ?c then _ else _) => destruct c
      | |- keepsFields (match ?x with _ => _ end) => destruct x
      | |- keepsFields (let _ := _ in _) => cbv zeta
      end ].

Lemma keepsFields_addDocuments (docs : list Loc) : keepsFields (addDocuments docs).
Proof.
  unfold addDocuments, callEmbedTextsFn, forEach, assignVector, calcVectorMagnitude.
  fields_steps.
Qed.

#[local] Hint Resolve keepsFields_addDocuments : fields.

Lemma keepsFields_addText (text0 : string) (metadata0 : T) :
  keepsFields (addText text0 metadata0).
Proof.
  unfold addText, newDocument. fields_steps.
Qed.

Lemma keepsFields_addTexts (texts : list string) (metadatas : list T) :
  keepsFields (addTexts texts metadatas).
Proof.
  unfold addTexts, newDocument. fields_steps.
Qed.

Lemma keepsFields_similaritySearch (params : IVSSimilaritySearchParams) :
  keepsFields (similaritySearch params).
Proof.
  unfold similaritySearch, embedText, callEmbedTextsFn, calculateMagnitude,
    calculateSimilarityScores, scorePair, copyWithScore, updateHitCounters, forEach,
    deleteValues.
  fields_steps.
Qed.

Lemma keepsFields_deleteDocumentsByMetadata (documentId : string) :
  keepsFields (deleteDocumentsByMetadata documentId).
Proof. unfold deleteDocumentsByMetadata. fields_steps. Qed.

(** X17.  The training flag moves by its two switches only.  Whatever a
    call does, returning or throwing, it keeps the ceiling, and a database
    handle that is set stays set.  [startTrainingMode] and
    [endTrainingMode] set the flag and touch nothing else; every other call
    leaves the flag as it found it. *)
Theorem training_flag_moves_by_switch_only (c : call) (s s' : VectorStorage) :
  step c s s' ->
  maxSizeInMB s' = maxSizeInMB s
  /\ (db s = true -> db s' = true)
  /\ match c with
     | CallStartTrainingMode => s' = set_trainingMode true s
     | CallEndTrainingMode => s' = set_trainingMode false s
     | _ => trainingMode s' = trainingMode s
     end.
Proof.
  unfold step. intros Hstep.
  assert (Hkeeps : forall (m : M unit),
             keepsFields m ->
             match m s with Returns _ x | Throws _ x => s' = x | Diverges => False end ->
             fieldsKept s s').
  { intros m Hm Hrun. specialize (Hm s).
    destruct (m s) as [a x|e x|]; [subst x; exact Hm | subst x; exact Hm | contradiction]. }
  destruct c as [text0 metadata0|texts metadatas|params|documentId| |]; cbn [perform] in Hstep.
  - apply Hkeeps in Hstep; [unfold fieldsKept in Hstep; tauto|].
    apply keepsFields_bind; [apply keepsFields_addText | intros; apply keepsFields_ret].
  - apply Hkeeps in Hstep; [unfold fieldsKept in Hstep; tauto|].
    apply keepsFields_bind; [apply keepsFields_addTexts | intros; apply keepsFields_ret].
  - apply Hkeeps in Hstep; [unfold fieldsKept in Hstep; tauto|].
    apply keepsFields_bind; [apply keepsFields_similaritySearch | intros; apply keepsFields_ret].
  - apply Hkeeps in Hstep; [unfold fieldsKept in Hstep; tauto|].
    apply keepsFields_deleteDocumentsByMetadata.
  - unfold startTrainingMode, modify in Hstep. subst s'. repeat split; auto.
  - unfold endTrainingMode, modify in Hstep. subst s'. repeat split; auto.
Qed.

(** X19.  A stored document never changes.  No call changes any property of
    a document that is in memory, its hit count included: every call works
    on new objects (candidates, copies for the results) or on the array of
    references.  Only [addText] and [addTexts] add documents to the
    in-memory set; every other call keeps a part of it.  Every call leaves
    the references live. *)
Theorem stored_documents_never_change (c : call) (s s' : VectorStorage) :
  wf s ->
  step c s s' ->
  wf s'
  /\ (forall l, l ∈ documents s -> deref s' l = deref s l)
  /\ match c with
     | CallAddText _ _ | CallAddTexts _ _ => True
     | _ => documents s' ⊆+ documents s
     end.
Proof.
  intros Hwf Hstep. unfold step in Hstep.
  assert (Htexts : forall texts metadatas,
             match addTexts texts metadatas s with
             | Returns _ x | Throws _ x =>
                 wf x /\ (forall l, l ∈ documents s -> deref x l = deref s l)
             | Diverges => True
             end).
  { intros texts metadatas.
    destruct (Nat.eq_dec (length texts) (length metadatas)) as [Hlen|Hlen].
    2: { unfold addTexts. rewrite (proj2 (Nat.eqb_neq _ _) Hlen). cbn [negb throw].
         split; [exact Hwf | reflexivity]. }
    pose proof (addTexts_outcome texts metadatas s Hwf Hlen) as Hout.
    destruct (addTexts texts metadatas s) as [inserted x|e x|]; [| |exact I]; tauto. }
  destruct c as [text0 metadata0|texts metadatas|params|documentId| |]; cbn [perform] in *.
  - unfold bind in *. rewrite addText_as_addTexts in *.
    specialize (Htexts [text0] [metadata0]).
    destruct (addTexts [text0] [metadata0] s) as [docs x|e x|]; simpl in *;
      [| |contradiction]; subst s'; tauto.
  - unfold bind in *. specialize (Htexts texts metadatas).
    destruct (addTexts texts metadatas s) as [docs x|e x|]; simpl in *;
      [| |contradiction]; subst s'; tauto.
  - unfold bind in *. pose proof (similaritySearch_outcome params s Hwf) as Hout.
    destruct (similaritySearch params s) as [r x|e x|]; simpl in *;
      [| |contradiction]; subst s'.
    + tauto.
    + rewrite Hout. split; [exact Hwf|]. split; [reflexivity|]. reflexivity.
  - rewrite deleteDocumentsByMetadata_run in *. subst s'.
    match goal with |- context [saved ?x] => destruct (saved_fields x) as (Hd & Hh & _) end.
    assert (Hsub : List.filter (fun l => negb (mentions documentId (deref s l))) (documents s)
                   ⊆+ documents s) by apply sublist_submseteq, List_filter_sublist.
    split; [|split].
    + unfold wf. rewrite Forall_forall. intros l Hl. rewrite Hd in Hl. rewrite Hh.
      cbn [documents heap set_documents] in Hl |- *. apply wf_elem; [exact Hwf|].
      eapply elem_of_submseteq; [exact Hl | exact Hsub].
    + intros l _. exact (f_equal (fun h : list Doc => h !!! l) Hh).
    + rewrite Hd. exact Hsub.
  - unfold startTrainingMode, modify in *. subst s'. split; [exact Hwf|]. split; reflexivity.
  - unfold endTrainingMode, modify in *. subst s'. split; [exact Hwf|]. split; reflexivity.
Qed.

(** X20.  A ceiling that nothing fits under.  When the ceiling is below
    the size of every set of documents, the empty one included, and
    training mode is off, [addText] of a new text never returns: the
    eviction loop empties the array and goes on shifting. *)
Theorem addText_never_returns (text0 : string) (metadata0 : T) (s : VectorStorage)
    (v : list float) (rest : list (list float)) :
  wf s ->
  db s = true ->
  trainingMode s = false ->
  (forall ds, (maxSizeInMB s <? getObjectSizeInMB ds)%float = true) ->
  isNewText s text0 = true ->
  embedTextsFn [text0] = Some (v :: rest) ->
  addText text0 metadata0 s = Diverges.
Proof.
  intros Hwf Hdb Htrain Hover Hnew Hembed.
  rewrite addText_as_addTexts, addTexts_run by reflexivity.
  destruct (addTexts_new [text0] [metadata0] s Hwf eq_refl)
    as (Hdocs & _ & _ & _ & Htexts).
  cbv zeta in Hdocs, Htexts. cbn [length seq zip zip_with newDocuments] in *.
  set (cand := mkDoc None (Some metadata0) text0 (Date_now (ticks s)) (Some []) (Some 0%float) None)
    in *.
  set (s1 := set_ticks _ (set_heap _ s)) in *.
  set (base := length (heap s)) in *.
  assert (Hcand : deref s1 base = cand).
  { unfold deref. cbn [heap s1 set_ticks set_heap].
    rewrite lookup_total_app_r, Nat.sub_diag by (unfold base; lia). reflexivity. }
  assert (Hfilter : List.filter (isNewDocument s1 (text <$> idb s1)) [base] = [base]).
  { cbn [List.filter].
    rewrite (isNewDocument_candidate s s1 [cand] base Hwf) by reflexivity.
    rewrite Hcand. cbn [text cand]. rewrite Hnew. reflexivity. }
  rewrite (addDocuments_run [base] s1 (v :: rest));
    [|exact Hdb|rewrite Hfilter; discriminate| |exact Hdocs].
  2: { rewrite Hfilter. cbn [fmap list_fmap]. rewrite Hcand. exact Hembed. }
  cbv zeta. rewrite Hfilter. cbn [assignVectors lookup list_lookup].
  rewrite evictSaveRet_run. unfold bind.
  rewrite removeDocsLRU_diverges; [reflexivity | exact Htrain |].
  intros ls. unfold overCeiling. apply Hover.
Qed.

End More.

(** * The further properties at the concrete host *)

Lemma addTexts_stores_new_pairs_witness :
  exists (inserted : list Loc) (s' : VectorStorage),
    addTexts ["alpha"; " "; "hello"; "beta"] ["m1"; "m2"; "m3"; "m4"] Demo.withHello
    = Returns inserted s'
    /\ documents s' = documents Demo.withHello ++ inserted
    /\ (forall l, l ∈ documents Demo.withHello -> deref s' l = deref Demo.withHello l)
    /\ (fun d => (text d, metadata d)) <$> docsOf s' inserted
       = (fun tm => (fst tm, Some (snd tm)))
           <$> List.filter (fun tm => isNewText Demo.withHello (fst tm))
                 (zip ["alpha"; " "; "hello"; "beta"] ["m1"; "m2"; "m3"; "m4"])
    /\ Forall2 (fun d v => vector d = Some v /\ vectorMag d = Some (l2norm v))
         (docsOf s' inserted)
         (take (length inserted) [[5%float; 1%float]; [4%float; 1%float]]).
Proof.
  apply (@addTexts_stores_new_pairs Demo.host
           ["alpha"; " "; "hello"; "beta"] ["m1"; "m2"; "m3"; "m4"] Demo.withHello
           [[5%float; 1%float]; [4%float; 1%float]]).
  - exact wf_withHello.
  - reflexivity.
  - reflexivity.
  - reflexivity.
  - intros _. vm_compute. reflexivity.
  - vm_compute. lia.
Defined.

Lemma wf_ready : wf Demo.ready.
Proof. constructor. Qed.

Lemma addText_returns_stored_witness :
  exists (doc : Loc) (s' : VectorStorage),
    addText "hello" "m1" Demo.ready = Returns (Some doc) s'
    /\ documents s' = documents Demo.ready ++ [doc]
    /\ deref s' doc
       = mkDoc None (Some "m1") "hello" (Date_now (ticks Demo.ready))
           (Some [5%float; 1%float]) (Some (l2norm [5%float; 1%float])) None
    /\ (forall l, l ∈ documents Demo.ready -> deref s' l = deref Demo.ready l).
Proof.
  apply (@addText_returns_stored Demo.host "hello" "m1" Demo.ready [5%float; 1%float] []).
  - exact wf_ready.
  - reflexivity.
  - reflexivity.
  - vm_compute. reflexivity.
  - vm_compute. reflexivity.
Defined.

Lemma wf_offlineReady : @wf Demo.offline Demo.offlineReady.
Proof. constructor. Qed.

Lemma addTexts_failure_inserts_nothing_witness :
  exists s',
    @addTexts Demo.offline ["a"] ["m"] Demo.offlineReady = Throws "embedTextsFn rejected" s'
    /\ documents s' = documents Demo.offlineReady
    /\ idb s' = idb Demo.offlineReady.
Proof.
  destruct (@addTexts_failure_inserts_nothing Demo.offline ["a"] ["m"] Demo.offlineReady
              wf_offlineReady) as [Hsame Hcauses].
  assert (Hnew : List.filter (@isNewText Demo.offline Demo.offlineReady) ["a"] <> [])
    by (vm_compute; discriminate).
  destruct (Hcauses eq_refl eq_refl Hnew) as [Hreject _].
  destruct (Hreject eq_refl) as [s' Hs'].
  exists s'. split; [exact Hs'|].
  destruct (Hsame _ _ Hs') as (Hd & Hi & _). split; assumption.
Defined.

Lemma texts_stay_distinct_witness : textsInOrder Demo.threeDocs.
Proof.
  destruct (@texts_stay_distinct Demo.host) as (Hstart & Hstep & _).
  apply (Hstep (@CallAddTexts Demo.host ["alpha"; "beta"; "gamma"] ["m1"; "m2"; "m3"])
           Demo.ready).
  - apply (Hstart Demo.options []); [constructor | constructor | reflexivity].
  - apply (proj1 (bool_decide_eq_true (NoDup ["alpha"; "beta"; "gamma"]))). reflexivity.
  - vm_compute. reflexivity.
Defined.

Lemma searchReturns_threeDocs (params : IVSSimilaritySearchParams) :
  query params = "alpha" -> filterOptions params = None ->
  searchReturns params Demo.threeDocs [5%float; 1%float].
Proof.
  intros Hq Hf. unfold searchReturns. rewrite Hq, Hf.
  split; [exact wf_threeDocs|]. split; [exists []; reflexivity|].
  split; [|left; reflexivity].
  repeat constructor; eexists; reflexivity.
Qed.

Lemma similaritySearch_result_count_witness :
  exists (r : SearchResult) (s' : VectorStorage),
    similaritySearch (Demo.queryFor "alpha") Demo.threeDocs = Returns r s'
    /\ queryText r = "alpha"
    /\ queryEmbedding r = [5%float; 1%float]
    /\ Z.of_nat (length (similarItems r)) = 3
    /\ NoDup (similarItems r).
Proof.
  exact (@similaritySearch_result_count Demo.host (Demo.queryFor "alpha") Demo.threeDocs
           [5%float; 1%float]
           (searchReturns_threeDocs (Demo.queryFor "alpha") eq_refl eq_refl)).
Defined.

Lemma similaritySearch_returns_best_witness :
  exists (r : SearchResult) (s' : VectorStorage) (top rest : list (Loc * float)),
    similaritySearch (Demo.queryWithValues "alpha") Demo.threeDocs = Returns r s'
    /\ fst <$> (top ++ rest) ≡ₚ documents Demo.threeDocs
    /\ Forall (fun p => similarityScore (deref Demo.threeDocs (fst p)) [5%float; 1%float]
                          (l2norm [5%float; 1%float]) = Some (snd p))
         (top ++ rest)
    /\ Forall2 (fun item p => score (deref s' item) = Some (snd p)
                              /\ text (deref s' item) = text (deref Demo.threeDocs (fst p)))
         (similarItems r) top
    /\ (Forall (fun p => JS.isNaN (snd p) = false) (top ++ rest) ->
        Forall (fun p => Forall (fun q => (snd q <=? snd p)%float = true) rest) top).
Proof.
  exact (@similaritySearch_returns_best Demo.host (Demo.queryWithValues "alpha")
           Demo.threeDocs [5%float; 1%float]
           (searchReturns_threeDocs (Demo.queryWithValues "alpha") eq_refl eq_refl)).
Defined.

Lemma similaritySearch_values_on_request_witness :
  exists (r : SearchResult) (s' : VectorStorage) (sources : list Loc),
    similaritySearch (Demo.queryWithValues "alpha") Demo.threeDocs = Returns r s'
    /\ Forall2
         (fun item src =>
            src ∈ documents Demo.threeDocs
            /\ text (deref s' item) = text (deref Demo.threeDocs src)
            /\ metadata (deref s' item) = metadata (deref Demo.threeDocs src)
            /\ timestamp (deref s' item) = timestamp (deref Demo.threeDocs src)
            /\ vector (deref s' item) = vector (deref Demo.threeDocs src)
            /\ vectorMag (deref s' item) = vectorMag (deref Demo.threeDocs src)
            /\ deref s' src = deref Demo.threeDocs src)
         (similarItems r) sources.
Proof.
  exact (@similaritySearch_values_on_request Demo.host (Demo.queryWithValues "alpha")
           Demo.threeDocs [5%float; 1%float]
           (searchReturns_threeDocs (Demo.queryWithValues "alpha") eq_refl eq_refl)).
Defined.

Lemma similaritySearch_no_results_witness :
  similaritySearch (Demo.queryFor "alpha") Demo.ready
  = Returns {| similarItems := []; queryText := "alpha";
               queryEmbedding := [5%float; 1%float] |}
      (set_trace (EvEmbed ["alpha"] :: trace Demo.ready) Demo.ready).
Proof.
  apply (proj2 (@similaritySearch_no_results Demo.host (Demo.queryFor "alpha") Demo.ready
                  wf_ready) [5%float; 1%float] []).
  - reflexivity.
  - reflexivity.
Defined.

Lemma similaritySearch_failure_changes_nothing_witness :
  @similaritySearch Demo.offline Demo.offlineQuery Demo.offlineReady
  = Throws "embedTextsFn rejected"
      (@set_trace Demo.offline (EvEmbed ["hello"] :: @trace Demo.offline Demo.offlineReady)
         Demo.offlineReady).
Proof.
  apply (proj1 (proj2 (@similaritySearch_failure_changes_nothing Demo.offline
                         Demo.offlineQuery Demo.offlineReady wf_offlineReady))).
  reflexivity.
Defined.

Lemma similaritySearch_evicts_witness :
  exists (r : SearchResult) (s' : VectorStorage),
    similaritySearch (Demo.queryFor "alpha") Demo.threeDocsEnded = Returns r s'
    /\ documents s' ⊆+ documents Demo.threeDocsEnded
    /\ (similarItems r <> [] ->
        overCeiling s' (documents s') = false
        /\ (sizesAreNumbers s' (documents s') -> withinCeiling s' (documents s') = true))
    /\ (similarItems r = [] -> documents s' = documents Demo.threeDocsEnded).
Proof.
  apply (@similaritySearch_evicts Demo.host (Demo.queryFor "alpha") Demo.threeDocsEnded
           [5%float; 1%float]).
  - split; [repeat constructor|]. split; [exists []; reflexivity|].
    split; [repeat constructor; eexists; reflexivity|]. right. vm_compute. reflexivity.
  - reflexivity.
Defined.

Lemma removeDocsLRU_idempotent_witness :
  removeDocsLRU Demo.evicted = Returns tt Demo.evicted
  /\ documents Demo.evicted ⊆+ documents Demo.threeDocsEnded
  /\ heap Demo.evicted = heap Demo.threeDocsEnded
  /\ idb Demo.evicted = idb Demo.threeDocsEnded
  /\ trace Demo.evicted = trace Demo.threeDocsEnded.
Proof.
  apply (@removeDocsLRU_idempotent Demo.host Demo.threeDocsEnded Demo.evicted).
  vm_compute. reflexivity.
Defined.

Lemma save_then_reload_witness :
  exists s1 : VectorStorage,
    saveToIndexDbStorage Demo.threeDocs = Returns tt s1
    /\ trace s1 = EvSave true :: trace Demo.threeDocs
    /\ idb s1 ≡ₚ docsOf Demo.threeDocs (documents Demo.threeDocs)
    /\ forall records : list (IVSDocument string),
         records ≡ₚ idb s1 ->
         exists s2 : VectorStorage,
           constructor Demo.options records = Returns tt s2
           /\ docsOf s2 (documents s2) = records
           /\ docsOf s2 (documents s2) ≡ₚ docsOf Demo.threeDocs (documents Demo.threeDocs).
Proof.
  apply (@save_then_reload Demo.host Demo.options Demo.threeDocs).
  - reflexivity.
  - vm_compute. reflexivity.
Defined.

Lemma unconfigured_instance_witness :
  exists s0 : VectorStorage,
    constructor Demo.bare Demo.records = Returns tt s0
    /\ trace s0
       = [EvConsoleError "VectorStorage: pass as an option either an OpenAI API key or a custom embedTextsFn function."]
    /\ forall s : VectorStorage,
         reachable beforeDelete s0 s ->
         documents s = [] /\ idb s = Demo.records /\ db s = false
         /\ (EvGetAll ∉ trace s)
         /\ (forall text0 metadata0,
               exists s',
                 addText text0 metadata0 s = Throws "TypeError: this.db is undefined" s'
                 /\ documents s' = [] /\ idb s' = Demo.records /\ db s' = false)
         /\ (forall texts metadatas,
               exists s',
                 addTexts texts metadatas s
                 = Throws (if (length texts =? length metadatas)%nat
                           then "TypeError: this.db is undefined"
                           else "The lengths of texts and metadata arrays must match.") s'
                 /\ documents s' = [] /\ idb s' = Demo.records /\ db s' = false)
         /\ (forall documentId,
               exists s',
                 deleteDocumentsByMetadata documentId s = Returns tt s'
                 /\ db s' = true /\ documents s' = [] /\ idb s' = []).
Proof.
  apply (@unconfigured_instance Demo.host Demo.bare Demo.records). reflexivity.
Defined.

Lemma similarityScore_zero_vector_witness :
  similarityScore
    (mkDoc None (Some "z") "zero" 2 (Some [0%float; 0%float]) (Some 0%float) None)
    [5%float; 1%float] (l2norm [5%float; 1%float])
  = Some nan.
Proof.
  apply (proj2 (proj2 (similarityScore_zero_vector
                         (mkDoc None (Some "z") "zero" 2 (Some [0%float; 0%float])
                            (Some 0%float) None)
                         [0%float; 0%float] [5%float; 1%float] (l2norm [5%float; 1%float])
                         eq_refl ltac:(repeat constructor)))).
  vm_compute. reflexivity.
Defined.

Lemma training_flag_moves_by_switch_only_witness :
  maxSizeInMB Demo.threeDocsEnded = maxSizeInMB Demo.threeDocs
  /\ (db Demo.threeDocs = true -> db Demo.threeDocsEnded = true)
  /\ Demo.threeDocsEnded = set_trainingMode false Demo.threeDocs.
Proof.
  apply (@training_flag_moves_by_switch_only Demo.host (@CallEndTrainingMode Demo.host)
           Demo.threeDocs Demo.threeDocsEnded).
  vm_compute. reflexivity.
Defined.

Lemma stored_documents_never_change_witness :
  wf Demo.afterHello
  /\ (forall l, l ∈ documents Demo.withHello -> deref Demo.afterHello l = deref Demo.withHello l)
  /\ documents Demo.afterHello ⊆+ documents Demo.withHello.
Proof.
  apply (@stored_documents_never_change Demo.host
           (@CallSimilaritySearch Demo.host (Demo.queryFor "hello"))
           Demo.withHello Demo.afterHello wf_withHello).
  vm_compute. reflexivity.
Defined.

Lemma addText_never_returns_witness :
  @addText Demo.flat "hello" "m1" Demo.flatEnded = Diverges.
Proof.
  apply (@addText_never_returns Demo.flat "hello" "m1" Demo.flatEnded [5%float; 1%float] []).
  - constructor.
  - reflexivity.
  - reflexivity.
  - intros ds. vm_compute. reflexivity.
  - vm_compute. reflexivity.
  - vm_compute. reflexivity.
Defined.
